(** * ola/common/network/NetworkUtils.cpp

    A shallow embedding of the network helpers of OLA: the byte-order
    conversions, the FQDN splitting functions, the functions that report
    the name of the host and the name servers, the netlink receive loop
    [ReadNetlinkSocket] and the routing-table scan of [DefaultRoute].

    Integers of the C++ source are values of [Z] with every conversion
    between widths written out; the message buffer is a list of bytes
    addressed by offset; the operating system (socket, send, recv, getpid,
    gethostname, the resolver) is a record of the answers it gives to the
    calls the code makes. *)

From Stdlib Require Import String Ascii ZArith List Bool Lia.
Import ListNotations.

Local Open Scope Z_scope.

(** ** Fixed-width integers *)

(** Conversion to an unsigned integer of [w] bits. *)
Definition to_unsigned (w : Z) (z : Z) : Z := z mod 2 ^ w.

(** Conversion to a signed (two's complement) integer of [w] bits. *)
Definition to_signed (w : Z) (z : Z) : Z :=
  (z + 2 ^ (w - 1)) mod 2 ^ w - 2 ^ (w - 1).

Definition to_uint16 : Z -> Z := to_unsigned 16.
Definition to_uint32 : Z -> Z := to_unsigned 32.
Definition to_int16 : Z -> Z := to_signed 16.
Definition to_int32 : Z -> Z := to_signed 32.

Definition is_uint8 (z : Z) : Prop := 0 <= z < 2 ^ 8.
Definition is_uint16 (z : Z) : Prop := 0 <= z < 2 ^ 16.
Definition is_uint32 (z : Z) : Prop := 0 <= z < 2 ^ 32.
Definition is_int16 (z : Z) : Prop := - 2 ^ 15 <= z < 2 ^ 15.
Definition is_int32 (z : Z) : Prop := - 2 ^ 31 <= z < 2 ^ 31.

(** ** Byte order *)

(** The 16- and 32-bit byte swaps that [htons], [ntohs], [htonl] and
    [ntohl] of <arpa/inet.h> perform on a little-endian host. *)
Definition bswap_16 (x : Z) : Z :=
  Z.lor (Z.shiftl (Z.land x 255) 8) (Z.land (Z.shiftr x 8) 255).

Definition bswap_32 (x : Z) : Z :=
  Z.lor (Z.lor (Z.shiftl (Z.land x 255) 24)
               (Z.shiftl (Z.land (Z.shiftr x 8) 255) 16))
        (Z.lor (Z.shiftl (Z.land (Z.shiftr x 16) 255) 8)
               (Z.land (Z.shiftr x 24) 255)).

Section ByteOrder.

(** [IsBigEndian()]: the byte order of the host, fixed at build time. *)
Variable IsBigEndian : bool.

Definition htons (x : Z) : Z := if IsBigEndian then x else bswap_16 x.
Definition ntohs (x : Z) : Z := if IsBigEndian then x else bswap_16 x.
Definition htonl (x : Z) : Z := if IsBigEndian then x else bswap_32 x.
Definition ntohl (x : Z) : Z := if IsBigEndian then x else bswap_32 x.

(** The overloads of the source are told apart by a suffix naming the
    argument type.  An [int16_t] argument passed to [ntohs] is converted
    to [uint16_t], and the [uint16_t] result back to [int16_t]. *)
Definition NetworkToHost_u8 (value : Z) : Z := value.
Definition NetworkToHost_u16 (value : Z) : Z := ntohs value.
Definition NetworkToHost_u32 (value : Z) : Z := ntohl value.
Definition NetworkToHost_i8 (value : Z) : Z := value.
Definition NetworkToHost_i16 (value : Z) : Z :=
  to_int16 (ntohs (to_uint16 value)).
Definition NetworkToHost_i32 (value : Z) : Z :=
  to_int32 (ntohl (to_uint32 value)).

Definition HostToNetwork_u8 (value : Z) : Z := value.
Definition HostToNetwork_i8 (value : Z) : Z := value.
Definition HostToNetwork_u16 (value : Z) : Z := htons value.
Definition HostToNetwork_i16 (value : Z) : Z :=
  to_int16 (htons (to_uint16 value)).
Definition HostToNetwork_u32 (value : Z) : Z := htonl value.
Definition HostToNetwork_i32 (value : Z) : Z :=
  to_int32 (htonl (to_uint32 value)).

(** [((value & 0xff) << 8) | (value >> 8)]: [value] is promoted to [int],
    so for a negative [int16_t] the right shift is the arithmetic one
    ([Z.shiftr] on a negative number), and the [int] result is converted
    to the return type. *)
Definition swap16_expr (value : Z) : Z :=
  Z.lor (Z.shiftl (Z.land value 255) 8) (Z.shiftr value 8).

Definition HostToLittleEndian_u8 (value : Z) : Z := value.
Definition HostToLittleEndian_i8 (value : Z) : Z := value.

Definition HostToLittleEndian_u16 (value : Z) : Z :=
  if IsBigEndian then to_uint16 (swap16_expr value) else value.

Definition HostToLittleEndian_i16 (value : Z) : Z :=
  if IsBigEndian then to_int16 (swap16_expr value) else value.

Definition _ByteSwap (value : Z) : Z :=
  Z.lor (Z.lor (Z.lor (to_uint32 (Z.shiftl (Z.land value 255) 24))
                      (to_uint32 (Z.shiftl (Z.land value 65280) 8)))
               (Z.shiftr (Z.land value 16711680) 8))
        (Z.shiftr (Z.land value 4278190080) 24).

Definition HostToLittleEndian_u32 (value : Z) : Z :=
  if IsBigEndian then _ByteSwap value else value.

Definition HostToLittleEndian_i32 (value : Z) : Z :=
  if IsBigEndian then to_int32 (_ByteSwap (to_uint32 value)) else value.

Definition LittleEndianToHost_u8 (value : Z) : Z := value.
Definition LittleEndianToHost_i8 (value : Z) : Z := value.

Definition LittleEndianToHost_u16 (value : Z) : Z :=
  if IsBigEndian then to_uint16 (swap16_expr value) else value.

Definition LittleEndianToHost_i16 (value : Z) : Z :=
  if IsBigEndian then to_int16 (swap16_expr value) else value.

Definition LittleEndianToHost_u32 (value : Z) : Z :=
  if IsBigEndian then _ByteSwap value else value.

Definition LittleEndianToHost_i32 (value : Z) : Z :=
  if IsBigEndian then to_int32 (_ByteSwap (to_uint32 value)) else value.

End ByteOrder.

(** ** Host names *)

(** [std::string::npos] is [None]. *)
Fixpoint mem_ascii (c : ascii) (chars : string) : bool :=
  match chars with
  | EmptyString => false
  | String d chars' => if Ascii.eqb c d then true else mem_ascii c chars'
  end.

(** [s.find_first_of(chars)]: the position of the first character of [s]
    that occurs in [chars]. *)
Fixpoint find_first_of (s chars : string) : option nat :=
  match s with
  | EmptyString => None
  | String c s' =>
      if mem_ascii c chars then Some O
      else option_map S (find_first_of s' chars)
  end.

(** [s.substr(pos, count)], [count = None] standing for the default [npos];
    [None] is the [std::out_of_range] thrown when [pos > s.size()]. *)
Definition substr (s : string) (pos : nat) (count : option nat) : option string :=
  if Nat.ltb (String.length s) pos then None
  else
    let rest := (String.length s - pos)%nat in
    Some (substring pos (match count with
                         | Some n => Nat.min n rest
                         | None => rest
                         end) s).

Definition HostnameFromFQDN (fqdn : string) : option string :=
  match find_first_of fqdn "." with
  | None => Some fqdn
  | Some first_dot => substr fqdn 0 (Some first_dot)
  end.

Definition DomainNameFromFQDN (fqdn : string) : option string :=
  match find_first_of fqdn "." with
  | None => Some ""%string
  | Some first_dot => substr fqdn (first_dot + 1) None
  end.

(** ** Executions

    A step of the embedded code either yields a value or stops the
    execution for one of three reasons: a blocking [recv] that is never
    answered, an access outside the message buffer or a read of an
    indeterminate value (undefined behaviour in C++), or a loop that has
    not finished within the iterations the model grants it. *)

Inductive fault : Type :=
| Blocks
| Undefined
| OutOfFuel.

Inductive run (A : Type) : Type :=
| Ok (a : A)
| Fault (f : fault).

Arguments Ok {A} a.
Arguments Fault {A} f.

Definition bind {A B : Type} (c : run A) (k : A -> run B) : run B :=
  match c with
  | Ok a => k a
  | Fault f => Fault f
  end.

Notation "x <- c ;; k" := (bind c (fun x => k))
  (at level 61, c at next level, right associativity).

(** ** The message buffer *)

(** A buffer is the list of its bytes; a pointer into it is an offset. *)
Definition buffer : Type := list Z.

Definition load8 (m : buffer) (p : Z) : run Z :=
  if p <? 0 then Fault Undefined
  else match nth_error m (Z.to_nat p) with
       | Some b => Ok b
       | None => Fault Undefined
       end.

(** [store_bytes m p bs] overwrites [length bs] bytes of [m] from [p] on. *)
Definition store_bytes (m : buffer) (p : Z) (bs : list Z) : run buffer :=
  if (p <? 0) || (Z.of_nat (length m) <? p + Z.of_nat (length bs))
  then Fault Undefined
  else Ok (firstn (Z.to_nat p) m ++ bs
           ++ skipn (Z.to_nat p + length bs) m).

Section Netlink.

Variable IsBigEndian : bool.

(** *** Multi-byte fields, in host byte order *)

Definition bytes_of_u16 (v : Z) : list Z :=
  if IsBigEndian then [v / 256 mod 256; v mod 256]
  else [v mod 256; v / 256 mod 256].

Definition bytes_of_u32 (v : Z) : list Z :=
  if IsBigEndian
  then [v / 16777216 mod 256; v / 65536 mod 256; v / 256 mod 256; v mod 256]
  else [v mod 256; v / 256 mod 256; v / 65536 mod 256; v / 16777216 mod 256].

Definition u16_of_bytes (b0 b1 : Z) : Z :=
  if IsBigEndian then 256 * b0 + b1 else b0 + 256 * b1.

Definition u32_of_bytes (b0 b1 b2 b3 : Z) : Z :=
  if IsBigEndian
  then 16777216 * b0 + 65536 * b1 + 256 * b2 + b3
  else b0 + 256 * b1 + 65536 * b2 + 16777216 * b3.

Definition load16 (m : buffer) (p : Z) : run Z :=
  b0 <- load8 m p ;;
  b1 <- load8 m (p + 1) ;;
  Ok (u16_of_bytes b0 b1).

Definition load32 (m : buffer) (p : Z) : run Z :=
  b0 <- load8 m p ;;
  b1 <- load8 m (p + 1) ;;
  b2 <- load8 m (p + 2) ;;
  b3 <- load8 m (p + 3) ;;
  Ok (u32_of_bytes b0 b1 b2 b3).

Definition store16 (m : buffer) (p v : Z) : run buffer :=
  store_bytes m p (bytes_of_u16 v).

Definition store32 (m : buffer) (p v : Z) : run buffer :=
  store_bytes m p (bytes_of_u32 v).

(** *** <linux/netlink.h>

    [struct nlmsghdr] is sixteen bytes: [nlmsg_len] (u32, offset 0),
    [nlmsg_type] (u16, 4), [nlmsg_flags] (u16, 6), [nlmsg_seq] (u32, 8)
    and [nlmsg_pid] (u32, 12). *)

Definition sizeof_nlmsghdr : Z := 16.
Definition off_nlmsg_len : Z := 0.
Definition off_nlmsg_type : Z := 4.
Definition off_nlmsg_flags : Z := 6.
Definition off_nlmsg_seq : Z := 8.
Definition off_nlmsg_pid : Z := 12.

Definition NLMSG_ERROR : Z := 2.
Definition NLMSG_DONE : Z := 3.
Definition NLM_F_REQUEST : Z := 1.
Definition NLM_F_MULTI : Z := 2.
Definition NLM_F_DUMP : Z := 768.

(** [((len) + NLMSG_ALIGNTO - 1) & ~(NLMSG_ALIGNTO - 1)] with
    [NLMSG_ALIGNTO = 4U], computed in [unsigned int]. *)
Definition NLMSG_ALIGN (len : Z) : Z :=
  Z.land (to_uint32 (len + 4 - 1)) (to_uint32 (Z.lnot (4 - 1))).

Definition NLMSG_HDRLEN : Z := NLMSG_ALIGN sizeof_nlmsghdr.
Definition NLMSG_LENGTH (len : Z) : Z := len + NLMSG_HDRLEN.
Definition NLMSG_SPACE (len : Z) : Z := NLMSG_ALIGN (NLMSG_LENGTH len).
Definition NLMSG_DATA (nlh : Z) : Z := nlh + NLMSG_HDRLEN.

(** [NLMSG_OK(nlh, len)] at an [unsigned int] length:
    [len >= (int)sizeof(struct nlmsghdr) &&
     nlh->nlmsg_len >= sizeof(struct nlmsghdr) && nlh->nlmsg_len <= len];
    the header is read only when the first test passes. *)
Definition NLMSG_OK (m : buffer) (nlh : Z) (len : Z) : run bool :=
  if len <? sizeof_nlmsghdr then Ok false
  else
    nlmsg_len <- load32 m (nlh + off_nlmsg_len) ;;
    Ok ((sizeof_nlmsghdr <=? nlmsg_len) && (nlmsg_len <=? len)).

(** [NLMSG_PAYLOAD(nlh, len)], converted to the [int] it is assigned to. *)
Definition NLMSG_PAYLOAD (nlmsg_len : Z) (len : Z) : Z :=
  to_int32 (nlmsg_len - NLMSG_SPACE len).

(** *** <linux/rtnetlink.h>

    [struct rtmsg] is twelve bytes, [rtm_family] at offset 0 and
    [rtm_table] at offset 4; [struct rtattr] is [rta_len] (u16, offset 0)
    and [rta_type] (u16, offset 2). *)

Definition sizeof_rtmsg : Z := 12.
Definition off_rtm_family : Z := 0.
Definition off_rtm_table : Z := 4.
Definition sizeof_rtattr : Z := 4.
Definition off_rta_len : Z := 0.
Definition off_rta_type : Z := 2.

Definition RTM_NEWROUTE : Z := 24.
Definition RTM_GETROUTE : Z := 26.
Definition AF_INET : Z := 2.
Definition RT_TABLE_MAIN : Z := 254.
Definition RTA_DST : Z := 1.
Definition RTA_OIF : Z := 4.
Definition RTA_GATEWAY : Z := 5.

Definition RTA_ALIGN (len : Z) : Z :=
  Z.land (to_uint32 (len + 4 - 1)) (to_uint32 (Z.lnot (4 - 1))).

Definition RTA_LENGTH (len : Z) : Z := RTA_ALIGN sizeof_rtattr + len.
Definition RTA_DATA (rta : Z) : Z := rta + RTA_LENGTH 0.
Definition RTM_RTA (r : Z) : Z := r + NLMSG_ALIGN sizeof_rtmsg.
Definition RTM_PAYLOAD (nlmsg_len : Z) : Z :=
  NLMSG_PAYLOAD nlmsg_len sizeof_rtmsg.

(** [RTA_OK(rta, len)] at an [int] length:
    [len >= (int)sizeof(struct rtattr) &&
     rta->rta_len >= sizeof(struct rtattr) && rta->rta_len <= len]. *)
Definition RTA_OK (m : buffer) (rta : Z) (len : Z) : run bool :=
  if len <? sizeof_rtattr then Ok false
  else
    rta_len <- load16 m (rta + off_rta_len) ;;
    Ok ((sizeof_rtattr <=? rta_len) && (rta_len <=? len)).

(** *** ReadNetlinkSocket *)

(** What the kernel has in store for one call of [recv]: a failure, or
    the next datagram of the socket's queue. *)
Inductive recv_result : Type :=
| RecvError
| RecvDatagram (data : list Z).

(** [recv(sd, buf, len, 0)] answered by [r]: [-1] on failure; otherwise
    the datagram is copied to [buf], cut to [len] bytes, and the number
    of bytes copied is returned. *)
Definition recv (r : recv_result) (m : buffer) (buf len : Z)
  : run (Z * buffer) :=
  match r with
  | RecvError => Ok (-1, m)
  | RecvDatagram data =>
      let got := firstn (Z.to_nat len) data in
      m' <- store_bytes m buf got ;;
      Ok (Z.of_nat (length got), m')
  end.

(** The value returned, the buffer as the call leaves it, and the
    answers of the kernel that no [recv] has asked for yet. *)
Record read_result : Type := mkRead {
  read_ret : Z;
  read_buf : buffer;
  read_pending : list recv_result
}.

(** The [do ... while] loop, entered with [msglen] bytes accumulated and
    [buf] pointing behind them.  Each iteration takes one answer of the
    kernel; when none is left the [recv] blocks. *)
Fixpoint ReadNetlinkLoop (script : list recv_result) (m : buffer)
         (buf bufsize seq pid msglen : Z) : run read_result :=
  match script with
  | [] => Fault Blocks
  | r :: script' =>
      got <- recv r m buf (to_uint32 (bufsize - msglen)) ;;
      let readlen := fst got in
      let m := snd got in
      if readlen <? 0 then Ok (mkRead (-1) m script')
      else
        let nl_hdr := buf in
        ok <- NLMSG_OK m nl_hdr (to_uint32 readlen) ;;
        if negb ok then Ok (mkRead (-1) m script')
        else
          nlmsg_type <- load16 m (nl_hdr + off_nlmsg_type) ;;
          if nlmsg_type =? NLMSG_ERROR then Ok (mkRead (-1) m script')
          else if nlmsg_type =? NLMSG_DONE
          then Ok (mkRead (to_int32 msglen) m script')
          else
            let buf := buf + readlen in
            let msglen := to_uint32 (msglen + readlen) in
            nlmsg_flags <- load16 m (nl_hdr + off_nlmsg_flags) ;;
            if Z.land nlmsg_flags NLM_F_MULTI =? 0
            then Ok (mkRead (to_int32 msglen) m script')
            else
              nlmsg_seq <- load32 m (nl_hdr + off_nlmsg_seq) ;;
              again <- (if negb (to_int32 nlmsg_seq =? seq) then Ok true
                        else
                          nlmsg_pid <- load32 m (nl_hdr + off_nlmsg_pid) ;;
                          Ok (negb (to_int32 nlmsg_pid =? pid))) ;;
              if again
              then ReadNetlinkLoop script' m buf bufsize seq pid msglen
              else Ok (mkRead (to_int32 msglen) m script')
  end.

Definition ReadNetlinkSocket (script : list recv_result) (m : buffer)
           (buf bufsize seq pid : Z) : run read_result :=
  ReadNetlinkLoop script m buf bufsize seq pid 0.

(** *** DefaultRoute *)

(** [defaultRouteIp] points either to the [in_addr] obtained from [new]
    or into the message buffer. *)
Inductive in_addr_ptr : Type :=
| NewInAddr
| InBuffer (p : Z).

Record scan_state : Type := mkScan {
  routeCount : Z;
  foundDefaultRoute : bool;
  defaultRouteIp : in_addr_ptr
}.

(** The [switch] on [rt_attr->rta_type].  The values streamed to the log
    are read from the buffer, so the reads are kept. *)
Definition scan_attr (m : buffer) (rt_attr : Z) (st : scan_state)
  : run scan_state :=
  rta_type <- load16 m (rt_attr + off_rta_type) ;;
  if rta_type =? RTA_OIF then
    _ <- load32 m (RTA_DATA rt_attr) ;;
    Ok (mkScan (to_uint32 (routeCount st + 1))
               (foundDefaultRoute st) (defaultRouteIp st))
  else if rta_type =? RTA_GATEWAY then
    _ <- load32 m (RTA_DATA rt_attr) ;;
    Ok (mkScan (routeCount st) true (InBuffer (RTA_DATA rt_attr)))
  else if rta_type =? RTA_DST then
    _ <- load32 m (RTA_DATA rt_attr) ;;
    Ok st
  else Ok st.

(** The loop over the attributes of one route entry:
    [for (...; RTA_OK(rt_attr, rt_len); rt_attr = RTA_NEXT(rt_attr, rt_len))]. *)
Fixpoint scan_attrs (fuel : nat) (m : buffer) (rt_attr rt_len : Z)
         (st : scan_state) : run scan_state :=
  ok <- RTA_OK m rt_attr rt_len ;;
  if negb ok then Ok st
  else
    match fuel with
    | O => Fault OutOfFuel
    | S fuel' =>
        st <- scan_attr m rt_attr st ;;
        rta_len <- load16 m (rt_attr + off_rta_len) ;;
        scan_attrs fuel' m (rt_attr + RTA_ALIGN rta_len)
                   (to_int32 (to_uint32 rt_len - RTA_ALIGN rta_len)) st
    end.

(** The loop over the messages of the response:
    [for (; NLMSG_OK(nl_msg, (unsigned int)len);
            nl_msg = NLMSG_NEXT(nl_msg, len))]. *)
Fixpoint scan_msgs (fuel : nat) (m : buffer) (nl_msg len : Z)
         (st : scan_state) : run scan_state :=
  ok <- NLMSG_OK m nl_msg (to_uint32 len) ;;
  if negb ok then Ok st
  else
    match fuel with
    | O => Fault OutOfFuel
    | S fuel' =>
        let rt_msg := NLMSG_DATA nl_msg in
        let st := mkScan (routeCount st) false (defaultRouteIp st) in
        rtm_family <- load8 m (rt_msg + off_rtm_family) ;;
        in_main <- (if rtm_family =? AF_INET then
                      rtm_table <- load8 m (rt_msg + off_rtm_table) ;;
                      Ok (rtm_table =? RT_TABLE_MAIN)
                    else Ok false) ;;
        st <- (if in_main then
                 nlmsg_len <- load32 m (nl_msg + off_nlmsg_len) ;;
                 let rt_len := RTM_PAYLOAD nlmsg_len in
                 scan_attrs (S (Z.to_nat rt_len)) m (RTM_RTA rt_msg) rt_len st
               else Ok st) ;;
        if in_main && foundDefaultRoute st then Ok st
        else
          nlmsg_len <- load32 m (nl_msg + off_nlmsg_len) ;;
          scan_msgs fuel' m (nl_msg + NLMSG_ALIGN nlmsg_len)
                    (to_int32 (to_uint32 len - NLMSG_ALIGN nlmsg_len)) st
    end.

(** The decision after the scan: the value returned and the address
    stored to [*default_route], if any.  [defaultRouteIp->s_addr] is read
    through the pointer, and an [in_addr] fresh from [new] holds an
    indeterminate value until it is written. *)
Definition select_route (m : buffer) (st : scan_state)
  : run (bool * option Z) :=
  let read_s_addr (cell : option Z) (m : buffer) : run Z :=
    match defaultRouteIp st with
    | NewInAddr => match cell with
                   | Some v => Ok v
                   | None => Fault Undefined
                   end
    | InBuffer p => load32 m p
    end in
  if negb (foundDefaultRoute st) then
    if routeCount st >? 0 then
      zeroed <- match defaultRouteIp st with
                | NewInAddr => Ok (Some 0, m)
                | InBuffer p => m' <- store32 m p 0 ;; Ok (None, m')
                end ;;
      s_addr <- read_s_addr (fst zeroed) (snd zeroed) ;;
      Ok (true, Some s_addr)
    else Ok (false, None)
  else
    s_addr <- read_s_addr None m ;;
    Ok (true, Some s_addr).

(** The operating system as [DefaultRoute] meets it: the values that
    [socket], [getpid] and [send] return and the answers to the calls of
    [recv], in order. *)
Record kernel : Type := mkKernel {
  socket_ret : Z;
  getpid_ret : Z;
  send_ret : Z;
  recv_rets : list recv_result
}.

(** What a call of [DefaultRoute] that returns has done: the value
    returned, the address stored to [*default_route] ([None] when the
    slot is left untouched), whether [close(sd)] was called, and the
    answers of the kernel left unread. *)
Record route_result : Type := mkRoute {
  ret : bool;
  default_route : option Z;
  sd_closed : bool;
  pending : list recv_result
}.

Definition BUFSIZE : Z := 8192.

(** [msg] after [memset] and the five assignments to the request header
    ([seq++] stores the old value of [seq], which is 0). *)
Definition request_msg (pid : Z) : run buffer :=
  let seq := 0 in
  let msg := repeat 0 (Z.to_nat BUFSIZE) in
  let nl_msg := 0 in
  msg <- store32 msg (nl_msg + off_nlmsg_len) (NLMSG_LENGTH sizeof_rtmsg) ;;
  msg <- store16 msg (nl_msg + off_nlmsg_type) RTM_GETROUTE ;;
  msg <- store16 msg (nl_msg + off_nlmsg_flags)
                 (Z.lor NLM_F_DUMP NLM_F_REQUEST) ;;
  msg <- store32 msg (nl_msg + off_nlmsg_seq) seq ;;
  store32 msg (nl_msg + off_nlmsg_pid) (to_uint32 pid).

Definition DefaultRoute (os : kernel) : run route_result :=
  let sd := socket_ret os in
  if sd <? 0 then Ok (mkRoute false None false (recv_rets os))
  else
    let nl_msg := 0 in
    msg <- request_msg (getpid_ret os) ;;
    if send_ret os <? 0 then Ok (mkRoute false None true (recv_rets os))
    else
      nlmsg_seq <- load32 msg (nl_msg + off_nlmsg_seq) ;;
      nlmsg_pid <- load32 msg (nl_msg + off_nlmsg_pid) ;;
      r <- ReadNetlinkSocket (recv_rets os) msg nl_msg BUFSIZE
                             (to_int32 nlmsg_seq) (to_int32 nlmsg_pid) ;;
      let len := read_ret r in
      let msg := read_buf r in
      if len <? 0 then Ok (mkRoute false None true (read_pending r))
      else
        st <- scan_msgs (S (length msg)) msg nl_msg len
                        (mkScan 0 false NewInAddr) ;;
        res <- select_route msg st ;;
        Ok (mkRoute (fst res) (snd res) true (read_pending r)).

End Netlink.

(** ** Responses of the kernel, as the wire format lays them out

    The vocabulary in which the properties of the scan are stated: route
    entries with their attribute records, and the bytes that carry them in
    a dump of the routing table. *)

Record rtattr : Type := mkAttr {
  rta_type : Z;
  rta_data : list Z
}.

Record route_entry : Type := mkEntry {
  nlmsg_type : Z;
  nlmsg_flags : Z;
  nlmsg_seq : Z;
  nlmsg_pid : Z;
  rtm_family : Z;
  rtm_dst_len : Z;
  rtm_src_len : Z;
  rtm_tos : Z;
  rtm_table : Z;
  rtm_protocol : Z;
  rtm_scope : Z;
  rtm_type : Z;
  rtm_flags : Z;
  rtm_attrs : list rtattr
}.

Definition is_oif (a : rtattr) : bool := rta_type a =? RTA_OIF.
Definition is_gateway (a : rtattr) : bool := rta_type a =? RTA_GATEWAY.
Definition is_dst (a : rtattr) : bool := rta_type a =? RTA_DST.

(** The entry passes the family and table checks of the scan. *)
Definition in_main_table (e : route_entry) : bool :=
  (rtm_family e =? AF_INET) && (rtm_table e =? RT_TABLE_MAIN).

(** [rta_len]: the header and the payload, without the padding. *)
Definition rta_len (a : rtattr) : Z := 4 + Z.of_nat (length (rta_data a)).

(** The type fits its field, the length fits its field, and the three
    attributes the scan inspects carry at least the four bytes of an
    interface index or an IPv4 address. *)
Definition wf_rtattr (a : rtattr) : Prop :=
  is_uint16 (rta_type a) /\ is_uint16 (rta_len a) /\
  (is_oif a || is_gateway a || is_dst a = true ->
   (4 <= length (rta_data a))%nat).

Section Responses.

Variable IsBigEndian : bool.

Definition encode_rtattr (a : rtattr) : list Z :=
  bytes_of_u16 IsBigEndian (rta_len a)
  ++ bytes_of_u16 IsBigEndian (rta_type a)
  ++ rta_data a
  ++ repeat 0 (Z.to_nat ((- Z.of_nat (length (rta_data a))) mod 4)).

Definition encode_rtattrs (attrs : list rtattr) : list Z :=
  flat_map encode_rtattr attrs.

Definition nlmsg_len (e : route_entry) : Z :=
  28 + Z.of_nat (length (encode_rtattrs (rtm_attrs e))).

Definition encode_entry (e : route_entry) : list Z :=
  bytes_of_u32 IsBigEndian (nlmsg_len e)
  ++ bytes_of_u16 IsBigEndian (nlmsg_type e)
  ++ bytes_of_u16 IsBigEndian (nlmsg_flags e)
  ++ bytes_of_u32 IsBigEndian (nlmsg_seq e)
  ++ bytes_of_u32 IsBigEndian (nlmsg_pid e)
  ++ [rtm_family e; rtm_dst_len e; rtm_src_len e; rtm_tos e;
      rtm_table e; rtm_protocol e; rtm_scope e; rtm_type e]
  ++ bytes_of_u32 IsBigEndian (rtm_flags e)
  ++ encode_rtattrs (rtm_attrs e).

Definition encode_entries (es : list route_entry) : list Z :=
  flat_map encode_entry es.

(** [msg] as [request_msg] leaves it. *)
Definition request_image (pid : Z) : buffer :=
  bytes_of_u32 IsBigEndian 28
  ++ bytes_of_u16 IsBigEndian RTM_GETROUTE
  ++ bytes_of_u16 IsBigEndian 769
  ++ bytes_of_u32 IsBigEndian 0
  ++ bytes_of_u32 IsBigEndian (to_uint32 pid)
  ++ repeat 0 (Z.to_nat (BUFSIZE - 16)).

(** The call of [ReadNetlinkSocket] that [DefaultRoute] makes. *)
Definition receive (os : kernel) : run read_result :=
  ReadNetlinkSocket IsBigEndian (recv_rets os)
                    (request_image (getpid_ret os)) 0 BUFSIZE
                    0 (to_int32 (to_uint32 (getpid_ret os))).

End Responses.

(** The buffer that [r] describes begins with [bytes], and [bytes] is all
    that the call has accumulated. *)
Definition response (r : read_result) (bytes : list Z) : Prop :=
  read_ret r = Z.of_nat (length bytes) /\
  firstn (length bytes) (read_buf r) = bytes.

(** *** What the scan makes of the entries *)

(** The effect of one attribute record found at offset [p]. *)
Definition attr_effect (p : Z) (a : rtattr) (st : scan_state) : scan_state :=
  if is_oif a then
    mkScan (to_uint32 (routeCount st + 1)) (foundDefaultRoute st)
           (defaultRouteIp st)
  else if is_gateway a then mkScan (routeCount st) true (InBuffer (p + 4))
  else st.

(** The effect of the attribute records of one entry, the first of them
    at offset [p]. *)
Fixpoint attrs_effect (be : bool) (p : Z) (attrs : list rtattr)
         (st : scan_state) : scan_state :=
  match attrs with
  | [] => st
  | a :: attrs' =>
      attrs_effect be (p + Z.of_nat (length (encode_rtattr be a))) attrs'
                   (attr_effect p a st)
  end.

(** The effect of the entries of a response, the first of them at offset
    [p]: the scan stops behind the first entry of the main table that
    carries a gateway. *)
Fixpoint entries_effect (be : bool) (p : Z) (es : list route_entry)
         (st : scan_state) : scan_state :=
  match es with
  | [] => st
  | e :: es' =>
      let st0 := mkScan (routeCount st) false (defaultRouteIp st) in
      let st1 := if in_main_table e
                 then attrs_effect be (p + 28) (rtm_attrs e) st0
                 else st0 in
      if in_main_table e && foundDefaultRoute st1 then st1
      else entries_effect be (p + Z.of_nat (length (encode_entry be e))) es' st1
  end.

(** The number of interface attributes in the entries of the main table. *)
Definition count_oif (es : list route_entry) : nat :=
  length (filter is_oif (flat_map rtm_attrs (filter in_main_table es))).

(** No entry of the main table carries a gateway attribute. *)
Definition no_gateway (es : list route_entry) : Prop :=
  forall e a, In e es -> in_main_table e = true -> In a (rtm_attrs e) ->
              is_gateway a = false.

(** An entry the scan inspects has well-formed attribute records. *)
Definition wf_entry (e : route_entry) : Prop :=
  in_main_table e = true -> Forall wf_rtattr (rtm_attrs e).

(** *** The route the specification selects

    Section 4.3 of the specification, over the entries themselves: the
    first entry of the main table that carries a gateway decides, and its
    last gateway attribute is the default route; without such an entry the
    zero address is returned when an interface attribute was counted, and
    nothing otherwise. *)

Definition has_gateway (e : route_entry) : bool :=
  in_main_table e && existsb is_gateway (rtm_attrs e).

Fixpoint last_gateway (attrs : list rtattr) : option rtattr :=
  match attrs with
  | [] => None
  | a :: attrs' =>
      match last_gateway attrs' with
      | Some g => Some g
      | None => if is_gateway a then Some a else None
      end
  end.

(** The [s_addr] that the first four bytes of the payload hold. *)
Definition address_of (be : bool) (a : rtattr) : option Z :=
  match rta_data a with
  | b0 :: b1 :: b2 :: b3 :: _ => Some (u32_of_bytes be b0 b1 b2 b3)
  | _ => None
  end.

Definition route_of (be : bool) (es : list route_entry) : bool * option Z :=
  match find has_gateway es with
  | Some e =>
      (true, match last_gateway (rtm_attrs e) with
             | Some g => address_of be g
             | None => None
             end)
  | None => if (0 <? count_oif es)%nat then (true, Some 0) else (false, None)
  end.

Definition not_dst (a : rtattr) : bool := negb (is_dst a).

(** An entry with its destination attributes taken out. *)
Definition without_dst (e : route_entry) : route_entry :=
  mkEntry (nlmsg_type e) (nlmsg_flags e) (nlmsg_seq e) (nlmsg_pid e)
          (rtm_family e) (rtm_dst_len e) (rtm_src_len e) (rtm_tos e)
          (rtm_table e) (rtm_protocol e) (rtm_scope e) (rtm_type e)
          (rtm_flags e)
          (filter not_dst (rtm_attrs e)).

(** *** Fragments as the receive loop meets them *)

(** The part of the datagram [d] that a [recv] with room for [room] bytes
    copies. *)
Definition received (d : list Z) (room : Z) : list Z :=
  firstn (Z.to_nat room) d.

(** The buffer after [got] was copied to offset [buf]. *)
Definition after_recv (m : buffer) (buf : Z) (got : list Z) : buffer :=
  firstn (Z.to_nat buf) m ++ got ++ skipn (Z.to_nat buf + length got) m.

(** The envelope a fragment begins with. *)
Record nlmsghdr : Type := mkHdr {
  hdr_len : Z;
  hdr_type : Z;
  hdr_flags : Z;
  hdr_seq : Z;
  hdr_pid : Z
}.

Definition header_of (be : bool) (frag : list Z) : run nlmsghdr :=
  len <- load32 be frag off_nlmsg_len ;;
  type <- load16 be frag off_nlmsg_type ;;
  flags <- load16 be frag off_nlmsg_flags ;;
  seq <- load32 be frag off_nlmsg_seq ;;
  pid <- load32 be frag off_nlmsg_pid ;;
  Ok (mkHdr len type flags seq pid).

(** The length consistency that [NLMSG_OK] asks of a fragment of
    [readlen] bytes. *)
Definition envelope_ok (h : nlmsghdr) (readlen : Z) : bool :=
  (16 <=? readlen) && (16 <=? hdr_len h) && (hdr_len h <=? readlen).

(** The states in which the loop of [ReadNetlinkSocket] runs: [msglen] of
    the [bufsize] bytes are taken, and the rest lies inside the buffer
    from [buf] on. *)
Definition loop_ready (m : buffer) (buf bufsize msglen : Z) : Prop :=
  0 <= buf /\ 0 <= msglen <= bufsize /\ bufsize < 2 ^ 31 /\
  buf + (bufsize - msglen) <= Z.of_nat (length m).

(** A fragment that the loop takes into the buffer and goes on from: a
    valid envelope, neither an error nor the end of the dump, the
    multi-part flag set, and a sequence number or process identifier that
    is not the one asked for. *)
Definition continues (be : bool) (seq pid : Z) (frag : list Z) : Prop :=
  exists h,
    header_of be frag = Ok h /\
    envelope_ok h (Z.of_nat (length frag)) = true /\
    hdr_type h <> NLMSG_ERROR /\ hdr_type h <> NLMSG_DONE /\
    Z.land (hdr_flags h) NLM_F_MULTI <> 0 /\
    (to_int32 (hdr_seq h) <> seq \/ to_int32 (hdr_pid h) <> pid).

(** A fragment with a valid envelope of the end-of-dump type. *)
Definition ends_dump (be : bool) (frag : list Z) : Prop :=
  exists h,
    header_of be frag = Ok h /\
    envelope_ok h (Z.of_nat (length frag)) = true /\
    hdr_type h = NLMSG_DONE.

(** A fragment with a valid envelope that ends the loop and is counted: a
    message without the multi-part flag, or one that carries the sequence
    number and the process identifier asked for. *)
Definition answers (be : bool) (seq pid : Z) (frag : list Z) : Prop :=
  exists h,
    header_of be frag = Ok h /\
    envelope_ok h (Z.of_nat (length frag)) = true /\
    hdr_type h <> NLMSG_ERROR /\ hdr_type h <> NLMSG_DONE /\
    (Z.land (hdr_flags h) NLM_F_MULTI = 0 \/
     to_int32 (hdr_seq h) = seq /\ to_int32 (hdr_pid h) = pid).

(** The number of bytes in a sequence of fragments. *)
Definition total_length (frags : list (list Z)) : Z :=
  Z.of_nat (length (concat frags)).

(** The number of interface attributes among [attrs], and in an entry
    that the scan inspects. *)
Definition oifs (attrs : list rtattr) : Z :=
  Z.of_nat (length (filter is_oif attrs)).

Definition oifs_of (e : route_entry) : Z :=
  if in_main_table e then oifs (rtm_attrs e) else 0.

(** ** The name of the host *)

(** [gethostname(hostname, sizeof(hostname))] as [FQDN] meets it: the
    value returned and the array [hostname] as the call leaves it. *)
Record host : Type := mkHost {
  gethostname_ret : Z;
  hostname : list ascii
}.

(** The [std::string] made of a [char] array: the characters in front of
    the first NUL.  An array without a NUL is read past its end. *)
Fixpoint string_of_chars (chars : list ascii) : run string :=
  match chars with
  | [] => Fault Undefined
  | c :: chars' =>
      if Ascii.eqb c zero then Ok EmptyString
      else s <- string_of_chars chars' ;; Ok (String c s)
  end.

(** A value of [gethostname] other than 0 is answered by the empty
    string; otherwise the array is returned as a string. *)
Definition FQDN (os : host) : run string :=
  let ret := gethostname_ret os in
  if negb (ret =? 0) then Ok EmptyString
  else string_of_chars (hostname os).

Definition FullHostname (os : host) : run string := FQDN os.

Definition Hostname (os : host) : run (option string) :=
  fqdn <- FQDN os ;; Ok (HostnameFromFQDN fqdn).

Definition DomainName (os : host) : run (option string) :=
  fqdn <- FQDN os ;; Ok (DomainNameFromFQDN fqdn).

(** ** Name servers *)

(** The resolver state [_res] after [res_init()]: the value the call
    returned, [nscount], and the [sin_addr.s_addr] of the entries of the
    array [nsaddr_list].  An [IPV4Address] made of an [in_addr] is the
    [s_addr] it holds. *)
Record resolver : Type := mkResolver {
  res_init_ret : Z;
  nscount : Z;
  nsaddr_list : list Z
}.

(** [_res.nsaddr_list[i].sin_addr]. *)
Definition nsaddr (res : resolver) (i : Z) : run Z :=
  if i <? 0 then Fault Undefined
  else match nth_error (nsaddr_list res) (Z.to_nat i) with
       | Some a => Ok a
       | None => Fault Undefined
       end.

(** [for (int32_t i = 0; i < _res.nscount; i++)], entered at [i]. *)
Fixpoint NameServers_loop (fuel : nat) (res : resolver) (i : Z)
         (name_servers : list Z) : run (list Z) :=
  if i <? nscount res then
    match fuel with
    | O => Fault OutOfFuel
    | S fuel' =>
        addr <- nsaddr res i ;;
        NameServers_loop fuel' res (i + 1) (name_servers ++ [addr])
    end
  else Ok name_servers.

(** The value returned and the vector [*name_servers] as the call leaves
    it. *)
Definition NameServers (res : resolver) (name_servers : list Z)
  : run (bool * list Z) :=
  if negb (res_init_ret res =? 0) then Ok (false, name_servers)
  else
    name_servers <- NameServers_loop (Z.to_nat (nscount res)) res 0
                                     name_servers ;;
    Ok (true, name_servers).

(** ** Sample responses

    A little-endian host, process 77, socket 3.  The entries are those of
    a dump that answers the request (sequence number 0, process 77). *)

Definition gateway_entry : route_entry :=
  mkEntry RTM_NEWROUTE NLM_F_MULTI 0 77 AF_INET 0 0 0 RT_TABLE_MAIN 3 0 1 0
          [mkAttr RTA_GATEWAY [192; 168; 1; 1]; mkAttr RTA_OIF [2; 0; 0; 0]].

Definition gateway_kernel : kernel :=
  mkKernel 3 77 28 [RecvDatagram (encode_entries false [gateway_entry])].

Definition interface_entry : route_entry :=
  mkEntry RTM_NEWROUTE NLM_F_MULTI 0 77 AF_INET 24 0 0 RT_TABLE_MAIN 2 253 1 0
          [mkAttr RTA_DST [10; 0; 0; 0]; mkAttr RTA_OIF [2; 0; 0; 0]].

Definition interface_kernel : kernel :=
  mkKernel 3 77 28 [RecvDatagram (encode_entries false [interface_entry])].

Definition local_table_entry : route_entry :=
  mkEntry RTM_NEWROUTE NLM_F_MULTI 0 77 AF_INET 32 0 0 255 2 254 2 0
          [mkAttr RTA_GATEWAY [192; 168; 1; 1]; mkAttr RTA_OIF [1; 0; 0; 0]].

Definition local_table_kernel : kernel :=
  mkKernel 3 77 28 [RecvDatagram (encode_entries false [local_table_entry])].

Definition default_destination_entry : route_entry :=
  mkEntry RTM_NEWROUTE NLM_F_MULTI 0 77 AF_INET 0 0 0 RT_TABLE_MAIN 2 253 1 0
          [mkAttr RTA_DST [0; 0; 0; 0]; mkAttr RTA_OIF [2; 0; 0; 0]].

Definition no_destination_entry : route_entry :=
  mkEntry RTM_NEWROUTE NLM_F_MULTI 0 77 AF_INET 0 0 0 RT_TABLE_MAIN 2 253 1 0
          [mkAttr RTA_OIF [2; 0; 0; 0]].

Definition no_destination_kernel : kernel :=
  mkKernel 3 77 28 [RecvDatagram (encode_entries false [no_destination_entry])].

Definition default_destination_kernel : kernel :=
  mkKernel 3 77 28 [RecvDatagram (encode_entries false [default_destination_entry])].

Definition error_fragment : list Z :=
  bytes_of_u32 false 36 ++ bytes_of_u16 false NLMSG_ERROR
  ++ bytes_of_u16 false 0 ++ bytes_of_u32 false 0 ++ bytes_of_u32 false 77
  ++ repeat 0 20.

Definition error_kernel : kernel :=
  mkKernel 3 77 28 [RecvDatagram error_fragment;
                    RecvDatagram (encode_entries false [gateway_entry])].

Definition done_fragment : list Z :=
  bytes_of_u32 false 20 ++ bytes_of_u16 false NLMSG_DONE
  ++ bytes_of_u16 false NLM_F_MULTI ++ bytes_of_u32 false 0
  ++ bytes_of_u32 false 77 ++ [0; 0; 0; 0].

Definition foreign_fragment : list Z :=
  encode_entries false
    [mkEntry RTM_NEWROUTE NLM_F_MULTI 9 77 AF_INET 0 0 0 RT_TABLE_MAIN 3 0 1 0
             [mkAttr RTA_OIF [2; 0; 0; 0]]].

(** An entry with two gateway attributes, the second with a payload of
    five bytes, between an entry without gateway and one with. *)
Definition two_gateways_entry : route_entry :=
  mkEntry RTM_NEWROUTE NLM_F_MULTI 0 77 AF_INET 0 0 0 RT_TABLE_MAIN 3 0 1 0
          [mkAttr RTA_GATEWAY [10; 0; 0; 1];
           mkAttr RTA_GATEWAY [10; 0; 0; 254; 9];
           mkAttr RTA_OIF [2; 0; 0; 0]].

Definition two_gateways_kernel : kernel :=
  mkKernel 3 77 28
    [RecvDatagram (encode_entries false
                     [interface_entry; two_gateways_entry; gateway_entry])].

(** A host whose name has a domain part, and a resolver with two name
    servers in an array of three. *)
Definition sample_host : host :=
  mkHost 0 (list_ascii_of_string "foo.example.com" ++ zero
            :: repeat "x"%char 8).

Definition sample_resolver : resolver :=
  mkResolver 0 2 [16885952; 134744072; 0].

(** * Properties *)

(** ** Arithmetic of the fixed-width integers *)

Ltac dlia := Z.div_mod_to_equations; lia.

Lemma to_uint32_small z : 0 <= z < 2 ^ 32 -> to_uint32 z = z.
Proof. intros H. unfold to_uint32, to_unsigned. apply Z.mod_small. exact H. Qed.

Lemma to_int32_small z : - 2 ^ 31 <= z < 2 ^ 31 -> to_int32 z = z.
Proof.
  intros H. unfold to_int32, to_signed.
  change (32 - 1) with 31. rewrite Z.mod_small; lia.
Qed.

Lemma to_int32_to_uint32 z : to_int32 (to_uint32 z) = to_int32 z.
Proof.
  unfold to_int32, to_uint32, to_signed, to_unsigned.
  rewrite Zplus_mod_idemp_l. reflexivity.
Qed.

Lemma to_int32_range z : - 2 ^ 31 <= to_int32 z < 2 ^ 31.
Proof. unfold to_int32, to_signed. change (32 - 1) with 31. dlia. Qed.

Lemma to_uint32_range z : 0 <= to_uint32 z < 2 ^ 32.
Proof. unfold to_uint32, to_unsigned. dlia. Qed.

Lemma to_uint16_small z : is_uint16 z -> to_uint16 z = z.
Proof. intros H. unfold to_uint16, to_unsigned. apply Z.mod_small. exact H. Qed.

Lemma to_int16_small z : is_int16 z -> to_int16 z = z.
Proof.
  unfold is_int16. intros H. unfold to_int16, to_signed.
  change (16 - 1) with 15. rewrite Z.mod_small; lia.
Qed.

Lemma to_uint16_to_int16 z : to_uint16 (to_int16 z) = to_uint16 z.
Proof.
  unfold to_uint16, to_int16, to_unsigned, to_signed.
  change (16 - 1) with 15. change (2 ^ 16) with 65536. change (2 ^ 15) with 32768.
  dlia.
Qed.

Lemma to_int16_to_uint16 z : is_int16 z -> to_int16 (to_uint16 z) = z.
Proof.
  unfold is_int16, to_uint16, to_int16, to_unsigned, to_signed.
  change (16 - 1) with 15. change (2 ^ 16) with 65536. change (2 ^ 15) with 32768.
  intros H. dlia.
Qed.

Lemma to_uint32_to_int32 z : to_uint32 (to_int32 z) = to_uint32 z.
Proof.
  unfold to_uint32, to_int32, to_unsigned, to_signed.
  change (32 - 1) with 31. change (2 ^ 32) with 4294967296.
  change (2 ^ 31) with 2147483648. dlia.
Qed.

Lemma to_int32_of_uint32 z : is_int32 z -> to_int32 (to_uint32 z) = z.
Proof.
  intros H. rewrite to_int32_to_uint32. apply to_int32_small. exact H.
Qed.

Lemma to_uint16_range z : is_uint16 (to_uint16 z).
Proof. unfold is_uint16, to_uint16, to_unsigned. dlia. Qed.

Lemma land_255 x : Z.land x 255 = x mod 256.
Proof. change 255 with (Z.ones 8). rewrite Z.land_ones by lia. reflexivity. Qed.

Lemma testbit_small b n i : 0 <= b < 2 ^ n -> n <= i -> Z.testbit b i = false.
Proof.
  intros Hb Hi.
  destruct (Z.eq_dec b 0) as [->|Hz]; [apply Z.bits_0|].
  apply Z.bits_above_log2; [lia|].
  assert (Z.log2 b < n) by (apply Z.log2_lt_pow2; lia).
  lia.
Qed.

Lemma land_shifted_mask v m n :
  0 <= n -> Z.land v (Z.shiftl m n) = Z.shiftl (Z.land (Z.shiftr v n) m) n.
Proof.
  intros Hn. apply Z.bits_inj'. intros i Hi.
  rewrite Z.land_spec, !Z.shiftl_spec by lia.
  destruct (Z.ltb_spec i n).
  - rewrite !(Z.testbit_neg_r _ (i - n)) by lia. apply andb_false_r.
  - rewrite Z.land_spec, Z.shiftr_spec by lia. f_equal. f_equal. lia.
Qed.

(** Rounding up to a multiple of four, as [NLMSG_ALIGN] and [RTA_ALIGN] do. *)
Lemma align4 x :
  0 <= x < 2 ^ 32 - 3 ->
  Z.land (to_uint32 (x + 4 - 1)) (to_uint32 (Z.lnot (4 - 1))) = 4 * ((x + 3) / 4).
Proof.
  intros H. rewrite to_uint32_small by lia.
  change (to_uint32 (Z.lnot (4 - 1))) with (Z.shiftl (Z.ones 30) 2).
  rewrite land_shifted_mask by lia.
  rewrite Z.land_ones by lia.
  rewrite Z.shiftr_div_pow2, Z.shiftl_mul_pow2 by lia.
  change (2 ^ 2) with 4. change (2 ^ 30) with 1073741824.
  replace (x + 4 - 1) with (x + 3) by lia.
  rewrite Z.mod_small by dlia. lia.
Qed.

Lemma NLMSG_ALIGN_eq x : 0 <= x < 2 ^ 32 - 3 -> NLMSG_ALIGN x = 4 * ((x + 3) / 4).
Proof. apply align4. Qed.

Lemma RTA_ALIGN_eq x : 0 <= x < 2 ^ 32 - 3 -> RTA_ALIGN x = 4 * ((x + 3) / 4).
Proof. apply align4. Qed.

(** ** Reading the buffer *)

Lemma load8_nth m p :
  0 <= p -> load8 m p = match nth_error m (Z.to_nat p) with
                        | Some b => Ok b
                        | None => Fault Undefined
                        end.
Proof. intros H. unfold load8. destruct (Z.ltb_spec p 0); [lia|reflexivity]. Qed.

Lemma load8_skipn m p k :
  0 <= p -> 0 <= k -> load8 m (p + k) = load8 (skipn (Z.to_nat p) m) k.
Proof.
  intros Hp Hk. rewrite !load8_nth by lia.
  rewrite nth_error_skipn. rewrite Z2Nat.inj_add by lia. reflexivity.
Qed.

Lemma load8_skip pre l k n :
  Z.of_nat (length pre) = n -> n <= k -> load8 (pre ++ l) k = load8 l (k - n).
Proof.
  intros Hn Hk. rewrite !load8_nth by lia.
  rewrite nth_error_app2 by lia.
  replace (Z.to_nat k - length pre)%nat with (Z.to_nat (k - n)) by lia.
  reflexivity.
Qed.

Lemma load8_readable m p :
  0 <= p < Z.of_nat (length m) -> exists b, load8 m p = Ok b.
Proof.
  intros H. rewrite load8_nth by lia.
  destruct (nth_error m (Z.to_nat p)) eqn:E; [eauto|].
  apply nth_error_None in E. lia.
Qed.

Section Loads.
Variable be : bool.

Lemma load16_skipn m p k :
  0 <= p -> 0 <= k -> load16 be m (p + k) = load16 be (skipn (Z.to_nat p) m) k.
Proof.
  intros Hp Hk. unfold load16.
  rewrite <- !Z.add_assoc, !load8_skipn by lia. reflexivity.
Qed.

Lemma load32_skipn m p k :
  0 <= p -> 0 <= k -> load32 be m (p + k) = load32 be (skipn (Z.to_nat p) m) k.
Proof.
  intros Hp Hk. unfold load32.
  rewrite <- !Z.add_assoc, !load8_skipn by lia. reflexivity.
Qed.

Lemma load16_skip pre l k n :
  Z.of_nat (length pre) = n -> n <= k ->
  load16 be (pre ++ l) k = load16 be l (k - n).
Proof.
  intros Hn Hk. unfold load16.
  rewrite !(load8_skip pre l _ n) by lia.
  replace (k + 1 - n) with (k - n + 1) by lia. reflexivity.
Qed.

Lemma load32_skip pre l k n :
  Z.of_nat (length pre) = n -> n <= k ->
  load32 be (pre ++ l) k = load32 be l (k - n).
Proof.
  intros Hn Hk. unfold load32.
  rewrite !(load8_skip pre l _ n) by lia.
  replace (k + 1 - n) with (k - n + 1) by lia.
  replace (k + 2 - n) with (k - n + 2) by lia.
  replace (k + 3 - n) with (k - n + 3) by lia. reflexivity.
Qed.

Lemma length_bytes_of_u16 v : length (bytes_of_u16 be v) = 2%nat.
Proof. unfold bytes_of_u16. destruct be; reflexivity. Qed.

Lemma length_bytes_of_u32 v : length (bytes_of_u32 be v) = 4%nat.
Proof. unfold bytes_of_u32. destruct be; reflexivity. Qed.

Lemma load16_two b0 b1 rest :
  load16 be (b0 :: b1 :: rest) 0 = Ok (u16_of_bytes be b0 b1).
Proof. reflexivity. Qed.

Lemma u16_of_bytes_of_u16 v rest :
  is_uint16 v ->
  exists b0 b1, bytes_of_u16 be v ++ rest = b0 :: b1 :: rest /\
                u16_of_bytes be b0 b1 = v.
Proof.
  unfold is_uint16, bytes_of_u16, u16_of_bytes. intros Hv.
  destruct be; do 2 eexists; (split; [reflexivity|dlia]).
Qed.

Lemma u32_of_bytes_of_u32 v rest :
  is_uint32 v ->
  exists b0 b1 b2 b3,
    bytes_of_u32 be v ++ rest = b0 :: b1 :: b2 :: b3 :: rest /\
    u32_of_bytes be b0 b1 b2 b3 = v.
Proof.
  unfold is_uint32, bytes_of_u32, u32_of_bytes. intros Hv.
  destruct be; do 4 eexists; (split; [reflexivity|dlia]).
Qed.

Lemma load16_bytes_of_u16 v rest :
  is_uint16 v -> load16 be (bytes_of_u16 be v ++ rest) 0 = Ok v.
Proof.
  intros Hv. destruct (u16_of_bytes_of_u16 v rest Hv) as (b0 & b1 & -> & <-).
  reflexivity.
Qed.

Lemma load32_bytes_of_u32 v rest :
  is_uint32 v -> load32 be (bytes_of_u32 be v ++ rest) 0 = Ok v.
Proof.
  intros Hv.
  destruct (u32_of_bytes_of_u32 v rest Hv) as (b0 & b1 & b2 & b3 & -> & <-).
  reflexivity.
Qed.

Lemma load32_four b0 b1 b2 b3 rest :
  load32 be (b0 :: b1 :: b2 :: b3 :: rest) 0 = Ok (u32_of_bytes be b0 b1 b2 b3).
Proof. reflexivity. Qed.

Lemma load32_readable m p :
  0 <= p -> p + 4 <= Z.of_nat (length m) -> exists v, load32 be m p = Ok v.
Proof.
  intros Hp Hl. unfold load32.
  destruct (load8_readable m p) as [b0 ->]; [lia|].
  destruct (load8_readable m (p + 1)) as [b1 ->]; [lia|].
  destruct (load8_readable m (p + 2)) as [b2 ->]; [lia|].
  destruct (load8_readable m (p + 3)) as [b3 ->]; [lia|].
  cbn [bind]. eauto.
Qed.
End Loads.

(** ** The layout of the encoded records *)

Lemma skipn_advance (m : list Z) p A B :
  0 <= p -> skipn (Z.to_nat p) m = A ++ B ->
  skipn (Z.to_nat (p + Z.of_nat (length A))) m = B.
Proof.
  intros Hp H.
  replace (Z.to_nat (p + Z.of_nat (length A))) with (length A + Z.to_nat p)%nat by lia.
  rewrite <- skipn_skipn, H, skipn_app, skipn_all, Nat.sub_diag.
  reflexivity.
Qed.

Lemma skipn_length_le (m : list Z) n L :
  skipn n m = L -> L <> [] -> (n + length L <= length m)%nat.
Proof.
  intros H Hne. assert (Hl : length (skipn n m) = length L) by (rewrite H; reflexivity).
  rewrite length_skipn in Hl. destruct L; [congruence|]. simpl in *. lia.
Qed.

Section Layout.
Variable be : bool.

Lemma length_encode_rtattr a :
  Z.of_nat (length (encode_rtattr be a)) = 4 * ((rta_len a + 3) / 4).
Proof.
  unfold encode_rtattr, rta_len.
  rewrite !length_app, !length_bytes_of_u16, repeat_length.
  set (d := Z.of_nat (length (rta_data a))).
  assert (0 <= d) by lia.
  rewrite !Nat2Z.inj_add, Z2Nat.id by dlia.
  fold d. change (Z.of_nat 2) with 2. dlia.
Qed.

Lemma length_encode_rtattr_ge a :
  rta_len a <= Z.of_nat (length (encode_rtattr be a)).
Proof. rewrite length_encode_rtattr. dlia. Qed.

Lemma length_encode_rtattrs_cons a attrs :
  Z.of_nat (length (encode_rtattrs be (a :: attrs))) =
  Z.of_nat (length (encode_rtattr be a)) + Z.of_nat (length (encode_rtattrs be attrs)).
Proof. unfold encode_rtattrs. simpl. rewrite length_app. lia. Qed.

Lemma length_encode_rtattrs_mod4 attrs :
  Z.of_nat (length (encode_rtattrs be attrs)) mod 4 = 0.
Proof.
  induction attrs as [|a attrs IH]; [reflexivity|].
  rewrite length_encode_rtattrs_cons, length_encode_rtattr. dlia.
Qed.

Lemma length_encode_rtattrs_ge attrs :
  4 * Z.of_nat (length attrs) <= Z.of_nat (length (encode_rtattrs be attrs)).
Proof.
  induction attrs as [|a attrs IH]; [simpl; lia|].
  rewrite length_encode_rtattrs_cons.
  pose proof (length_encode_rtattr_ge a). unfold rta_len in *.
  simpl length. lia.
Qed.

Lemma length_encode_entry e :
  Z.of_nat (length (encode_entry be e)) = nlmsg_len be e.
Proof.
  unfold encode_entry, nlmsg_len.
  rewrite !length_app, !length_bytes_of_u16, !length_bytes_of_u32.
  simpl length. lia.
Qed.

Lemma length_encode_entries_cons e es :
  Z.of_nat (length (encode_entries be (e :: es))) =
  nlmsg_len be e + Z.of_nat (length (encode_entries be es)).
Proof.
  unfold encode_entries. simpl. rewrite length_app, Nat2Z.inj_add.
  rewrite length_encode_entry. reflexivity.
Qed.

Lemma nlmsg_len_aligned e : nlmsg_len be e mod 4 = 0 /\ 28 <= nlmsg_len be e.
Proof.
  unfold nlmsg_len. pose proof (length_encode_rtattrs_mod4 (rtm_attrs e)).
  split; [dlia | lia].
Qed.

(** *** Decoding the records from the buffer *)

Lemma rtattr_header m p a tail :
  0 <= p -> skipn (Z.to_nat p) m = encode_rtattr be a ++ tail ->
  wf_rtattr a ->
  load16 be m (p + off_rta_len) = Ok (rta_len a) /\
  load16 be m (p + off_rta_type) = Ok (rta_type a).
Proof.
  intros Hp H (Ht & Hl & _).
  rewrite !load16_skipn, H by (unfold off_rta_len, off_rta_type; lia).
  unfold encode_rtattr. rewrite <- !app_assoc. split.
  - apply load16_bytes_of_u16. exact Hl.
  - rewrite (load16_skip be _ _ _ 2) by
      (rewrite ?length_bytes_of_u16; unfold off_rta_type; lia).
    apply load16_bytes_of_u16. exact Ht.
Qed.

Lemma rtattr_payload m p a tail :
  0 <= p -> skipn (Z.to_nat p) m = encode_rtattr be a ++ tail ->
  (4 <= length (rta_data a))%nat ->
  exists v, load32 be m (RTA_DATA p) = Ok v.
Proof.
  intros Hp H Hd. apply load32_readable.
  - unfold RTA_DATA. change (RTA_LENGTH 0) with 4. lia.
  - unfold RTA_DATA. change (RTA_LENGTH 0) with 4.
    apply skipn_length_le in H.
    + rewrite length_app in H. pose proof (length_encode_rtattr_ge a).
      unfold rta_len in *. lia.
    + unfold encode_rtattr, bytes_of_u16. destruct be; discriminate.
Qed.

Lemma scan_attr_encoded m p a tail st :
  0 <= p -> skipn (Z.to_nat p) m = encode_rtattr be a ++ tail ->
  wf_rtattr a ->
  scan_attr be m p st = Ok (attr_effect p a st).
Proof.
  intros Hp H Hwf.
  destruct (rtattr_header m p a tail Hp H Hwf) as [_ Hty].
  destruct Hwf as (_ & _ & Hpay).
  unfold scan_attr, attr_effect, is_oif, is_gateway, is_dst in *.
  rewrite Hty. cbn [bind].
  destruct (rta_type a =? RTA_OIF) eqn:Eo.
  { destruct (rtattr_payload m p a tail Hp H) as [v ->]; [auto|]. reflexivity. }
  destruct (rta_type a =? RTA_GATEWAY) eqn:Eg.
  { destruct (rtattr_payload m p a tail Hp H) as [v ->]; [auto|].
    cbn [bind]. unfold RTA_DATA. change (RTA_LENGTH 0) with 4. reflexivity. }
  destruct (rta_type a =? RTA_DST) eqn:Ed.
  { destruct (rtattr_payload m p a tail Hp H) as [v ->]; [|reflexivity].
    apply Hpay. reflexivity. }
  reflexivity.
Qed.

Lemma scan_attrs_eq fuel m p len st :
  scan_attrs be fuel m p len st =
  (ok <- RTA_OK be m p len ;;
   if negb ok then Ok st
   else
     match fuel with
     | O => Fault OutOfFuel
     | S fuel' =>
         st <- scan_attr be m p st ;;
         rta_len <- load16 be m (p + off_rta_len) ;;
         scan_attrs be fuel' m (p + RTA_ALIGN rta_len)
                    (to_int32 (to_uint32 len - RTA_ALIGN rta_len)) st
     end).
Proof. destruct fuel; reflexivity. Qed.

Lemma scan_attrs_encoded attrs : forall fuel m p tail st,
  0 <= p ->
  skipn (Z.to_nat p) m = encode_rtattrs be attrs ++ tail ->
  Forall wf_rtattr attrs ->
  Z.of_nat (length (encode_rtattrs be attrs)) < 2 ^ 31 ->
  (length attrs <= fuel)%nat ->
  scan_attrs be fuel m p (Z.of_nat (length (encode_rtattrs be attrs))) st
  = Ok (attrs_effect be p attrs st).
Proof.
  induction attrs as [|a attrs IH]; intros fuel m p tail st Hp H Hwf Hlen Hfuel.
  - rewrite scan_attrs_eq. reflexivity.
  - inversion Hwf as [|? ? Ha Hattrs]; subst.
    rewrite length_encode_rtattrs_cons in *.
    unfold encode_rtattrs in H. simpl flat_map in H. rewrite <- app_assoc in H.
    fold (encode_rtattrs be attrs) in H.
    destruct (rtattr_header m p a _ Hp H Ha) as [Hl Hty].
    pose proof (length_encode_rtattr a) as Hea.
    pose proof (length_encode_rtattr_ge a) as Hge.
    assert (Hrl : 4 <= rta_len a < 2 ^ 16)
      by (destruct Ha as (_ & Hr & _); unfold is_uint16, rta_len in *; lia).
    assert (Hal : RTA_ALIGN (rta_len a) = Z.of_nat (length (encode_rtattr be a)))
      by (rewrite RTA_ALIGN_eq, Hea; lia).
    rewrite scan_attrs_eq. unfold RTA_OK.
    destruct (Z.ltb_spec (Z.of_nat (length (encode_rtattr be a))
                          + Z.of_nat (length (encode_rtattrs be attrs)))
                         sizeof_rtattr) as [Hlt|_];
      [unfold sizeof_rtattr in Hlt; lia|].
    rewrite Hl. cbn [bind].
    replace (sizeof_rtattr <=? rta_len a) with true
      by (symmetry; apply Z.leb_le; unfold sizeof_rtattr; lia).
    replace (rta_len a <=? _) with true by (symmetry; apply Z.leb_le; lia).
    cbn [andb negb].
    destruct fuel as [|fuel]; [simpl in Hfuel; lia|].
    rewrite (scan_attr_encoded m p a _ st Hp H Ha). cbn [bind].
    cbn [bind]. rewrite Hal.
    rewrite to_uint32_small by lia.
    rewrite to_int32_small by lia.
    replace (Z.of_nat (length (encode_rtattr be a))
             + Z.of_nat (length (encode_rtattrs be attrs))
             - Z.of_nat (length (encode_rtattr be a)))
      with (Z.of_nat (length (encode_rtattrs be attrs))) by lia.
    simpl attrs_effect.
    apply IH with (tail := tail); try assumption; try lia.
    + apply skipn_advance; assumption.
    + simpl in Hfuel. lia.
Qed.
End Layout.

(** ** The scan of the messages, on an encoded response *)

Section Entries.
Variable be : bool.

Lemma entry_header m p e tail :
  0 <= p -> skipn (Z.to_nat p) m = encode_entry be e ++ tail ->
  is_uint32 (nlmsg_len be e) ->
  load32 be m (p + off_nlmsg_len) = Ok (nlmsg_len be e) /\
  load8 m (NLMSG_DATA p + off_rtm_family) = Ok (rtm_family e) /\
  load8 m (NLMSG_DATA p + off_rtm_table) = Ok (rtm_table e).
Proof.
  intros Hp H Hl. unfold NLMSG_DATA. change NLMSG_HDRLEN with 16.
  unfold off_nlmsg_len, off_rtm_family, off_rtm_table.
  rewrite <- !Z.add_assoc.
  rewrite load32_skipn by lia.
  rewrite (load8_skipn m p (16 + 0)), (load8_skipn m p (16 + 4)) by lia.
  rewrite H. unfold encode_entry. rewrite <- !app_assoc.
  split; [apply load32_bytes_of_u32; exact Hl|].
  split.
  - rewrite (load8_skip _ _ _ 4) by (rewrite ?length_bytes_of_u32; lia).
    rewrite (load8_skip _ _ _ 2) by (rewrite ?length_bytes_of_u16; lia).
    rewrite (load8_skip _ _ _ 2) by (rewrite ?length_bytes_of_u16; lia).
    rewrite (load8_skip _ _ _ 4) by (rewrite ?length_bytes_of_u32; lia).
    rewrite (load8_skip _ _ _ 4) by (rewrite ?length_bytes_of_u32; lia).
    reflexivity.
  - rewrite (load8_skip _ _ _ 4) by (rewrite ?length_bytes_of_u32; lia).
    rewrite (load8_skip _ _ _ 2) by (rewrite ?length_bytes_of_u16; lia).
    rewrite (load8_skip _ _ _ 2) by (rewrite ?length_bytes_of_u16; lia).
    rewrite (load8_skip _ _ _ 4) by (rewrite ?length_bytes_of_u32; lia).
    rewrite (load8_skip _ _ _ 4) by (rewrite ?length_bytes_of_u32; lia).
    reflexivity.
Qed.

Lemma entry_attrs_at m p e tail :
  0 <= p -> skipn (Z.to_nat p) m = encode_entry be e ++ tail ->
  skipn (Z.to_nat (p + 28)) m = encode_rtattrs be (rtm_attrs e) ++ tail.
Proof.
  intros Hp H. unfold encode_entry in H.
  rewrite !app_assoc in H. rewrite <- app_assoc in H.
  apply skipn_advance in H; [|exact Hp].
  rewrite !length_app, !length_bytes_of_u16, !length_bytes_of_u32 in H.
  exact H.
Qed.

Lemma scan_msgs_eq fuel m p len st :
  scan_msgs be fuel m p len st =
  (ok <- NLMSG_OK be m p (to_uint32 len) ;;
   if negb ok then Ok st
   else
     match fuel with
     | O => Fault OutOfFuel
     | S fuel' =>
         let rt_msg := NLMSG_DATA p in
         let st := mkScan (routeCount st) false (defaultRouteIp st) in
         rtm_family <- load8 m (rt_msg + off_rtm_family) ;;
         in_main <- (if rtm_family =? AF_INET then
                       rtm_table <- load8 m (rt_msg + off_rtm_table) ;;
                       Ok (rtm_table =? RT_TABLE_MAIN)
                     else Ok false) ;;
         st <- (if in_main then
                  nlmsg_len <- load32 be m (p + off_nlmsg_len) ;;
                  let rt_len := RTM_PAYLOAD nlmsg_len in
                  scan_attrs be (S (Z.to_nat rt_len)) m (RTM_RTA rt_msg) rt_len st
                else Ok st) ;;
         if in_main && foundDefaultRoute st then Ok st
         else
           nlmsg_len <- load32 be m (p + off_nlmsg_len) ;;
           scan_msgs be fuel' m (p + NLMSG_ALIGN nlmsg_len)
                     (to_int32 (to_uint32 len - NLMSG_ALIGN nlmsg_len)) st
     end).
Proof. destruct fuel; reflexivity. Qed.

Lemma scan_msgs_encoded es : forall fuel m p tail st,
  0 <= p ->
  skipn (Z.to_nat p) m = encode_entries be es ++ tail ->
  Forall wf_entry es ->
  Z.of_nat (length (encode_entries be es)) < 2 ^ 31 ->
  (length es <= fuel)%nat ->
  scan_msgs be fuel m p (Z.of_nat (length (encode_entries be es))) st
  = Ok (entries_effect be p es st).
Proof.
  induction es as [|e es IH]; intros fuel m p tail st Hp H Hwf Hlen Hfuel.
  - rewrite scan_msgs_eq. reflexivity.
  - inversion Hwf as [|? ? He Hes]; subst.
    rewrite length_encode_entries_cons in *.
    unfold encode_entries in H. simpl flat_map in H. rewrite <- app_assoc in H.
    fold (encode_entries be es) in H.
    destruct (nlmsg_len_aligned be e) as [Hmod Hmin].
    assert (Hu : is_uint32 (nlmsg_len be e)) by (unfold is_uint32; lia).
    destruct (entry_header m p e _ Hp H Hu) as (Hl & Hfam & Htab).
    assert (Hal : NLMSG_ALIGN (nlmsg_len be e) = nlmsg_len be e)
      by (rewrite NLMSG_ALIGN_eq by lia; dlia).
    rewrite scan_msgs_eq. unfold NLMSG_OK.
    rewrite to_uint32_small by lia.
    destruct (Z.ltb_spec (nlmsg_len be e + Z.of_nat (length (encode_entries be es)))
                         sizeof_nlmsghdr) as [Hlt|_];
      [unfold sizeof_nlmsghdr in Hlt; lia|].
    rewrite Hl. cbn [bind].
    replace (sizeof_nlmsghdr <=? nlmsg_len be e) with true
      by (symmetry; apply Z.leb_le; unfold sizeof_nlmsghdr; lia).
    replace (nlmsg_len be e <=? _) with true by (symmetry; apply Z.leb_le; lia).
    cbn [andb negb].
    destruct fuel as [|fuel]; [simpl in Hfuel; lia|].
    cbn zeta. rewrite Hfam. cbn [bind].
    assert (Hmain :
      (if rtm_family e =? AF_INET
       then rtm_table <- load8 m (NLMSG_DATA p + off_rtm_table) ;;
            Ok (rtm_table =? RT_TABLE_MAIN)
       else Ok false) = Ok (in_main_table e)).
    { unfold in_main_table. destruct (rtm_family e =? AF_INET); [|reflexivity].
      rewrite Htab. reflexivity. }
    rewrite Hmain. cbn [bind].
    rewrite Hal, to_int32_small by lia.
    replace (nlmsg_len be e + Z.of_nat (length (encode_entries be es))
             - nlmsg_len be e)
      with (Z.of_nat (length (encode_entries be es))) by lia.
    assert (Hnext : skipn (Z.to_nat (p + nlmsg_len be e)) m
                    = encode_entries be es ++ tail).
    { rewrite <- (length_encode_entry be e). apply skipn_advance; assumption. }
    simpl entries_effect. rewrite length_encode_entry.
    destruct (in_main_table e) eqn:Em.
    + assert (Hpl : RTM_PAYLOAD (nlmsg_len be e)
                    = Z.of_nat (length (encode_rtattrs be (rtm_attrs e)))).
      { unfold RTM_PAYLOAD, NLMSG_PAYLOAD.
        change (NLMSG_SPACE sizeof_rtmsg) with 28.
        rewrite to_int32_small; unfold nlmsg_len in *; lia. }
      rewrite Hpl.
      replace (RTM_RTA (NLMSG_DATA p)) with (p + 28)
        by (unfold RTM_RTA, NLMSG_DATA;
            change NLMSG_HDRLEN with 16;
            change (NLMSG_ALIGN sizeof_rtmsg) with 12; lia).
      rewrite (scan_attrs_encoded be (rtm_attrs e) _ m (p + 28)
                 (encode_entries be es ++ tail));
        [ | lia | apply entry_attrs_at; assumption | apply He; exact Em
          | unfold nlmsg_len in *; lia
          | pose proof (length_encode_rtattrs_ge be (rtm_attrs e)); lia ].
      cbn [bind andb].
      destruct (foundDefaultRoute _) eqn:Ef; [reflexivity|].
      apply IH with (tail := tail); try assumption; try lia.
      simpl in Hfuel. lia.
    + cbn [bind andb].
      apply IH with (tail := tail); try assumption; try lia.
      simpl in Hfuel. lia.
Qed.
End Entries.

(** ** What the scan makes of the entries *)

Lemma oifs_cons a attrs :
  oifs (a :: attrs) = (if is_oif a then 1 else 0) + oifs attrs.
Proof. unfold oifs. simpl. destruct (is_oif a); simpl length; lia. Qed.

Lemma oifs_app l1 l2 : oifs (l1 ++ l2) = oifs l1 + oifs l2.
Proof. unfold oifs. rewrite filter_app, length_app. lia. Qed.

Lemma oifs_nonneg attrs : 0 <= oifs attrs.
Proof. unfold oifs. lia. Qed.

Lemma gateway_not_oif a : is_gateway a = true -> is_oif a = false.
Proof.
  unfold is_gateway, is_oif. intros H. apply Z.eqb_eq in H. rewrite H. reflexivity.
Qed.

Section Effects.
Variable be : bool.

Lemma attrs_effect_count attrs : forall p st,
  0 <= routeCount st -> routeCount st + oifs attrs < 2 ^ 32 ->
  routeCount (attrs_effect be p attrs st) = routeCount st + oifs attrs.
Proof.
  induction attrs as [|a attrs IH]; intros p st H0 Hb.
  - unfold oifs. simpl. lia.
  - rewrite oifs_cons in *. pose proof (oifs_nonneg attrs).
    simpl attrs_effect. unfold attr_effect.
    destruct (is_oif a).
    + rewrite IH; cbn [routeCount]; rewrite to_uint32_small; lia.
    + destruct (is_gateway a); rewrite IH; cbn [routeCount]; lia.
Qed.

Lemma attrs_effect_no_gateway attrs : forall p st,
  (forall a, In a attrs -> is_gateway a = false) ->
  0 <= routeCount st -> routeCount st + oifs attrs < 2 ^ 32 ->
  attrs_effect be p attrs st =
  mkScan (routeCount st + oifs attrs) (foundDefaultRoute st) (defaultRouteIp st).
Proof.
  induction attrs as [|a attrs IH]; intros p st Hg H0 Hb.
  - unfold oifs. simpl. rewrite Z.add_0_r. destruct st; reflexivity.
  - rewrite oifs_cons in *. pose proof (oifs_nonneg attrs).
    simpl attrs_effect. unfold attr_effect.
    rewrite (Hg a) by (left; reflexivity).
    destruct (is_oif a).
    + rewrite IH; cbn [routeCount foundDefaultRoute defaultRouteIp];
        rewrite ?to_uint32_small; try lia.
      * f_equal; lia.
      * intros b Hb'. apply Hg. right. exact Hb'.
    + rewrite IH; try lia.
      * f_equal.
      * intros b Hb'. apply Hg. right. exact Hb'.
Qed.

Lemma length_encode_rtattrs_app l1 l2 :
  Z.of_nat (length (encode_rtattrs be (l1 ++ l2))) =
  Z.of_nat (length (encode_rtattrs be l1)) + Z.of_nat (length (encode_rtattrs be l2)).
Proof.
  unfold encode_rtattrs. rewrite flat_map_app, length_app. lia.
Qed.

Lemma attrs_effect_app l1 : forall l2 p st,
  attrs_effect be p (l1 ++ l2) st =
  attrs_effect be (p + Z.of_nat (length (encode_rtattrs be l1))) l2
               (attrs_effect be p l1 st).
Proof.
  induction l1 as [|a l1 IH]; intros l2 p st.
  - simpl. rewrite Z.add_0_r. reflexivity.
  - cbn [app attrs_effect]. rewrite IH. f_equal.
    rewrite length_encode_rtattrs_cons. lia.
Qed.

Lemma attrs_effect_gateway pre g post p st :
  is_gateway g = true ->
  (forall a, In a post -> is_gateway a = false) ->
  0 <= routeCount st ->
  routeCount st + oifs (pre ++ g :: post) < 2 ^ 32 ->
  attrs_effect be p (pre ++ g :: post) st =
  mkScan (routeCount st + oifs (pre ++ g :: post)) true
         (InBuffer (p + Z.of_nat (length (encode_rtattrs be pre)) + 4)).
Proof.
  intros Hg Hpost H0 Hb.
  rewrite oifs_app, oifs_cons, (gateway_not_oif g Hg) in *.
  pose proof (oifs_nonneg pre). pose proof (oifs_nonneg post).
  rewrite attrs_effect_app. simpl attrs_effect. unfold attr_effect.
  rewrite (gateway_not_oif g Hg), Hg.
  rewrite attrs_effect_no_gateway; cbn [routeCount foundDefaultRoute defaultRouteIp];
    rewrite ?attrs_effect_count; try lia; try assumption.
  f_equal. lia.
Qed.

Lemma count_oif_cons e es :
  Z.of_nat (count_oif (e :: es)) = oifs_of e + Z.of_nat (count_oif es).
Proof.
  unfold count_oif, oifs_of, oifs. simpl filter.
  destruct (in_main_table e); [|lia].
  simpl flat_map. rewrite filter_app, length_app. lia.
Qed.

Lemma count_oif_app l1 l2 :
  Z.of_nat (count_oif (l1 ++ l2)) = Z.of_nat (count_oif l1) + Z.of_nat (count_oif l2).
Proof.
  induction l1 as [|e l1 IH]; [reflexivity|].
  simpl app. rewrite !count_oif_cons, IH. lia.
Qed.

Lemma oifs_le_encoded attrs :
  oifs attrs <= Z.of_nat (length (encode_rtattrs be attrs)).
Proof.
  pose proof (length_encode_rtattrs_ge be attrs).
  pose proof (filter_length_le is_oif attrs). unfold oifs. lia.
Qed.

Lemma oifs_of_le_encoded e : 0 <= oifs_of e <= nlmsg_len be e.
Proof.
  unfold oifs_of, nlmsg_len. pose proof (oifs_le_encoded (rtm_attrs e)).
  pose proof (oifs_nonneg (rtm_attrs e)).
  destruct (in_main_table e); lia.
Qed.

Lemma count_oif_le_encoded es :
  Z.of_nat (count_oif es) <= Z.of_nat (length (encode_entries be es)).
Proof.
  induction es as [|e es IH]; [simpl; lia|].
  rewrite count_oif_cons, length_encode_entries_cons.
  pose proof (oifs_of_le_encoded e). lia.
Qed.

Lemma length_encode_entries_app l1 l2 :
  Z.of_nat (length (encode_entries be (l1 ++ l2))) =
  Z.of_nat (length (encode_entries be l1)) + Z.of_nat (length (encode_entries be l2)).
Proof.
  unfold encode_entries. rewrite flat_map_app, length_app. lia.
Qed.

Lemma no_gateway_cons e es :
  no_gateway (e :: es) ->
  (in_main_table e = true -> forall a, In a (rtm_attrs e) -> is_gateway a = false)
  /\ no_gateway es.
Proof.
  intros H. split.
  - intros Hm a Ha. apply (H e a); [left; reflexivity|assumption|assumption].
  - intros e' a He'. apply (H e' a). right. exact He'.
Qed.

Lemma entries_effect_no_gateway es : forall p st,
  no_gateway es -> foundDefaultRoute st = false ->
  0 <= routeCount st -> routeCount st + Z.of_nat (count_oif es) < 2 ^ 32 ->
  entries_effect be p es st =
  mkScan (routeCount st + Z.of_nat (count_oif es)) false (defaultRouteIp st).
Proof.
  induction es as [|e es IH]; intros p st Hng Hf H0 Hb.
  - simpl. rewrite Z.add_0_r. destruct st; simpl in *; subst; reflexivity.
  - rewrite count_oif_cons in *. unfold oifs_of in *.
    apply no_gateway_cons in Hng. destruct Hng as [Hge Hng].
    pose proof (oifs_nonneg (rtm_attrs e)).
    simpl entries_effect.
    destruct (in_main_table e) eqn:Em.
    + rewrite attrs_effect_no_gateway; cbn [routeCount foundDefaultRoute defaultRouteIp];
        [ | apply Hge; reflexivity | lia | lia ].
      cbn [andb foundDefaultRoute].
      rewrite IH; cbn [routeCount foundDefaultRoute defaultRouteIp];
        try assumption; try reflexivity; try lia.
      f_equal; lia.
    + cbn [andb].
      rewrite IH; cbn [routeCount foundDefaultRoute defaultRouteIp];
        try assumption; try reflexivity; try lia.
Qed.

Lemma entries_effect_gateway before : forall e after pre g post p st,
  no_gateway before ->
  in_main_table e = true ->
  rtm_attrs e = pre ++ g :: post ->
  is_gateway g = true ->
  (forall a, In a post -> is_gateway a = false) ->
  0 <= routeCount st ->
  routeCount st + Z.of_nat (count_oif (before ++ [e])) < 2 ^ 32 ->
  entries_effect be p (before ++ e :: after) st =
  mkScan (routeCount st + Z.of_nat (count_oif (before ++ [e]))) true
         (InBuffer (p + Z.of_nat (length (encode_entries be before)) + 28
                    + Z.of_nat (length (encode_rtattrs be pre)) + 4)).
Proof.
  induction before as [|b before IH];
    intros e after pre g post p st Hng Hm Hattrs Hg Hpost H0 Hb.
  - simpl app in *. rewrite count_oif_cons in *. unfold oifs_of in *.
    rewrite Hm in *. simpl entries_effect. rewrite Hm, Hattrs in *.
    change (Z.of_nat (count_oif [])) with 0 in *.
    rewrite attrs_effect_gateway; cbn [routeCount foundDefaultRoute defaultRouteIp];
      try assumption; try lia.
    cbn [andb]. change (Z.of_nat (length (encode_entries be []))) with 0.
    repeat (f_equal; try lia).
  - simpl app in *. rewrite count_oif_cons in *. unfold oifs_of in *.
    apply no_gateway_cons in Hng. destruct Hng as [Hgb Hng].
    pose proof (oifs_nonneg (rtm_attrs b)).
    assert (0 <= Z.of_nat (count_oif (before ++ [e]))) by lia.
    simpl entries_effect. rewrite length_encode_entries_cons, length_encode_entry.
    destruct (in_main_table b) eqn:Emb.
    + rewrite attrs_effect_no_gateway; cbn [routeCount foundDefaultRoute defaultRouteIp];
        [ | apply Hgb; reflexivity | lia | lia ].
      cbn [andb].
      rewrite (IH e after pre g post); cbn [routeCount foundDefaultRoute defaultRouteIp];
        try assumption; try lia.
      repeat (f_equal; try lia).
    + cbn [andb].
      rewrite (IH e after pre g post); cbn [routeCount foundDefaultRoute defaultRouteIp];
        try assumption; try lia.
      repeat (f_equal; try lia).
Qed.
End Effects.

(** ** The route selected *)

Lemma find_has_gateway_none es :
  find has_gateway es = None -> no_gateway es.
Proof.
  intros H e a He Hm Ha.
  pose proof (find_none _ _ H e He) as Hn. unfold has_gateway in Hn.
  rewrite Hm in Hn. cbn [andb] in Hn.
  destruct (is_gateway a) eqn:Eg; [|reflexivity].
  assert (existsb is_gateway (rtm_attrs e) = true)
    by (apply existsb_exists; exists a; split; assumption).
  congruence.
Qed.

Lemma no_gateway_has_gateway es :
  no_gateway es -> forall e, In e es -> has_gateway e = false.
Proof.
  intros H e He. unfold has_gateway.
  destruct (in_main_table e) eqn:Em; [|reflexivity]. cbn [andb].
  destruct (existsb is_gateway (rtm_attrs e)) eqn:Ex; [|reflexivity].
  apply existsb_exists in Ex. destruct Ex as (a & Ha & Hg).
  rewrite (H e a He Em Ha) in Hg. discriminate.
Qed.

Lemma find_has_gateway_some es : forall e,
  find has_gateway es = Some e ->
  exists before after,
    es = before ++ e :: after /\ no_gateway before /\ has_gateway e = true.
Proof.
  induction es as [|x es IH]; intros e H; [discriminate|].
  simpl in H. destruct (has_gateway x) eqn:Ex.
  - inversion H; subst. exists [], es. repeat split; [|exact Ex].
    intros e' a He'. destruct He'.
  - destruct (IH e H) as (before & after & -> & Hng & He).
    exists (x :: before), after. repeat split; [|exact He].
    intros e' a [<-|He'] Hm Ha.
    + unfold has_gateway in Ex. rewrite Hm in Ex. cbn [andb] in Ex.
      destruct (is_gateway a) eqn:Eg; [|reflexivity].
      assert (existsb is_gateway (rtm_attrs x) = true)
        by (apply existsb_exists; exists a; split; assumption).
      congruence.
    + apply (Hng e' a He' Hm Ha).
Qed.

Lemma find_has_gateway_first before e after :
  no_gateway before -> has_gateway e = true ->
  find has_gateway (before ++ e :: after) = Some e.
Proof.
  intros Hng He. induction before as [|b before IH].
  - simpl. rewrite He. reflexivity.
  - simpl. rewrite (no_gateway_has_gateway _ Hng b) by (left; reflexivity).
    apply IH. intros e' a He'. apply Hng. right. exact He'.
Qed.

Lemma last_gateway_none attrs :
  (forall a, In a attrs -> is_gateway a = false) -> last_gateway attrs = None.
Proof.
  induction attrs as [|a attrs IH]; intros H; [reflexivity|].
  simpl. rewrite IH by (intros b Hb; apply H; right; exact Hb).
  rewrite (H a) by (left; reflexivity). reflexivity.
Qed.

Lemma last_gateway_last pre g post :
  is_gateway g = true -> (forall a, In a post -> is_gateway a = false) ->
  last_gateway (pre ++ g :: post) = Some g.
Proof.
  intros Hg Hpost. induction pre as [|a pre IH].
  - simpl. rewrite (last_gateway_none post Hpost), Hg. reflexivity.
  - simpl. rewrite IH. reflexivity.
Qed.

Lemma last_gateway_split attrs :
  existsb is_gateway attrs = true ->
  exists pre g post,
    attrs = pre ++ g :: post /\ is_gateway g = true /\
    (forall a, In a post -> is_gateway a = false).
Proof.
  induction attrs as [|a attrs IH]; intros H; [discriminate|].
  simpl in H. destruct (existsb is_gateway attrs) eqn:Ex.
  - destruct (IH eq_refl) as (pre & g & post & -> & Hg & Hpost).
    exists (a :: pre), g, post. repeat split; assumption.
  - rewrite orb_false_r in H. exists [], a, attrs. repeat split; [exact H|].
    intros b Hb. destruct (is_gateway b) eqn:Eb; [|reflexivity].
    assert (existsb is_gateway attrs = true)
      by (apply existsb_exists; exists b; split; assumption).
    congruence.
Qed.

Section Selection.
Variable be : bool.

Lemma gateway_payload_at m p before e after pre g post tail :
  0 <= p ->
  skipn (Z.to_nat p) m = encode_entries be (before ++ e :: after) ++ tail ->
  rtm_attrs e = pre ++ g :: post ->
  exists rest,
    skipn (Z.to_nat (p + Z.of_nat (length (encode_entries be before)) + 28
                     + Z.of_nat (length (encode_rtattrs be pre)) + 4)) m
    = rta_data g ++ rest.
Proof.
  intros Hp H Hattrs.
  unfold encode_entries in H. rewrite flat_map_app in H. simpl flat_map in H.
  rewrite <- !app_assoc in H.
  apply skipn_advance in H; [|exact Hp].
  fold (encode_entries be before) in H.
  apply entry_attrs_at in H; [|lia].
  rewrite Hattrs in H. unfold encode_rtattrs in H.
  rewrite flat_map_app in H. simpl flat_map in H. rewrite <- !app_assoc in H.
  apply skipn_advance in H; [|lia].
  fold (encode_rtattrs be pre) in H.
  unfold encode_rtattr in H. rewrite !app_assoc in H.
  rewrite <- (app_assoc (bytes_of_u16 be (rta_len g))) in H.
  rewrite <- !app_assoc in H.
  rewrite (app_assoc (bytes_of_u16 be (rta_len g))) in H.
  apply skipn_advance in H; [|lia].
  rewrite length_app, !length_bytes_of_u16 in H.
  eexists. exact H.
Qed.

Lemma load32_payload m q a rest :
  0 <= q -> skipn (Z.to_nat q) m = rta_data a ++ rest ->
  (4 <= length (rta_data a))%nat ->
  exists v, address_of be a = Some v /\ load32 be m q = Ok v.
Proof.
  intros Hq H Hl. unfold address_of.
  destruct (rta_data a) as [|b0 [|b1 [|b2 [|b3 d]]]]; simpl in Hl; try lia.
  eexists. split; [reflexivity|].
  rewrite <- (Z.add_0_r q), load32_skipn, H by lia. reflexivity.
Qed.

Lemma select_route_spec m es tail fuel :
  m = encode_entries be es ++ tail ->
  Forall wf_entry es ->
  Z.of_nat (length (encode_entries be es)) < 2 ^ 31 ->
  (length es <= fuel)%nat ->
  (st <- scan_msgs be fuel m 0 (Z.of_nat (length (encode_entries be es)))
                   (mkScan 0 false NewInAddr) ;;
   select_route be m st) = Ok (route_of be es).
Proof.
  intros Hm Hwf Hlen Hfuel.
  assert (Hs : skipn (Z.to_nat 0) m = encode_entries be es ++ tail) by (subst; reflexivity).
  rewrite (scan_msgs_encoded be es fuel m 0 tail) by (assumption || lia).
  cbn [bind]. unfold route_of.
  pose proof (count_oif_le_encoded be es) as Hc.
  destruct (find has_gateway es) as [e|] eqn:Ef.
  - destruct (find_has_gateway_some es e Ef) as (before & after & Hes & Hng & He).
    unfold has_gateway in He. apply andb_true_iff in He. destruct He as [Hmain Hex].
    destruct (last_gateway_split _ Hex) as (pre & g & post & Hattrs & Hg & Hpost).
    assert (Hwe : wf_rtattr g).
    { rewrite Forall_forall in Hwf.
      assert (Hin : In e es) by (rewrite Hes; apply in_or_app; right; left; reflexivity).
      specialize (Hwf e Hin Hmain). rewrite Forall_forall in Hwf.
      apply Hwf. rewrite Hattrs. apply in_or_app. right. left. reflexivity. }
    assert (Hcb : Z.of_nat (count_oif (before ++ [e])) <= Z.of_nat (count_oif es)).
    { rewrite Hes. replace (before ++ e :: after) with ((before ++ [e]) ++ after)
        by (rewrite <- app_assoc; reflexivity).
      rewrite (count_oif_app (before ++ [e]) after). lia. }
    rewrite Hes in Hs |- *.
    rewrite (entries_effect_gateway be before e after pre g post 0);
      cbn [routeCount]; try assumption; try lia.
    rewrite Hattrs, (last_gateway_last pre g post Hg Hpost).
    destruct (gateway_payload_at m 0 before e after pre g post tail) as [rest Hrest];
      [lia|exact Hs|exact Hattrs|].
    edestruct (load32_payload m) as (v & Hv & Hload);
      [ | exact Hrest | | ].
    + lia.
    + destruct Hwe as (_ & _ & Hpay). apply Hpay.
      rewrite Hg. rewrite orb_true_r. reflexivity.
    + unfold select_route. cbn [foundDefaultRoute negb defaultRouteIp].
      rewrite Hload, Hv. reflexivity.
  - rewrite entries_effect_no_gateway; cbn [routeCount foundDefaultRoute];
      [ | apply find_has_gateway_none; exact Ef | reflexivity | lia | lia ].
    unfold select_route. cbn [foundDefaultRoute negb routeCount defaultRouteIp].
    rewrite Z.add_0_l.
    destruct (Nat.ltb_spec 0 (count_oif es)) as [Hpos|Hz].
    + replace (Z.of_nat (count_oif es) >? 0) with true
        by (symmetry; apply Z.gtb_lt; lia).
      reflexivity.
    + replace (Z.of_nat (count_oif es) >? 0) with false
        by (symmetry; rewrite Z.gtb_ltb; apply Z.ltb_ge; lia).
      reflexivity.
Qed.
End Selection.

(** ** DefaultRoute, from the request to the result *)

Lemma bind_Ok {A B} (c : run A) (k : A -> run B) b :
  bind c k = Ok b -> exists a, c = Ok a /\ k a = Ok b.
Proof. destruct c as [a|f]; simpl; intros H; [eauto|discriminate]. Qed.

Section Request.
Variable be : bool.

Lemma request_msg_image pid : request_msg be pid = Ok (request_image be pid).
Proof.
  unfold request_msg, request_image, store32, store16.
  generalize (to_uint32 pid). intros x.
  unfold bytes_of_u32, bytes_of_u16.
  destruct be.
  - generalize (x / 16777216 mod 256) (x / 65536 mod 256) (x / 256 mod 256) (x mod 256).
    intros b0 b1 b2 b3. vm_compute. reflexivity.
  - generalize (x / 16777216 mod 256) (x / 65536 mod 256) (x / 256 mod 256) (x mod 256).
    intros b0 b1 b2 b3. vm_compute. reflexivity.
Qed.

Lemma request_image_seq pid :
  load32 be (request_image be pid) (0 + off_nlmsg_seq) = Ok 0.
Proof.
  unfold request_image, off_nlmsg_seq.
  rewrite (load32_skip be _ _ _ 4) by (rewrite ?length_bytes_of_u32; lia).
  rewrite (load32_skip be _ _ _ 2) by (rewrite ?length_bytes_of_u16; lia).
  rewrite (load32_skip be _ _ _ 2) by (rewrite ?length_bytes_of_u16; lia).
  apply load32_bytes_of_u32. unfold is_uint32. lia.
Qed.

Lemma request_image_pid pid :
  load32 be (request_image be pid) (0 + off_nlmsg_pid) = Ok (to_uint32 pid).
Proof.
  unfold request_image, off_nlmsg_pid.
  rewrite (load32_skip be _ _ _ 4) by (rewrite ?length_bytes_of_u32; lia).
  rewrite (load32_skip be _ _ _ 2) by (rewrite ?length_bytes_of_u16; lia).
  rewrite (load32_skip be _ _ _ 2) by (rewrite ?length_bytes_of_u16; lia).
  rewrite (load32_skip be _ _ _ 4) by (rewrite ?length_bytes_of_u32; lia).
  apply load32_bytes_of_u32. apply to_uint32_range.
Qed.

Lemma DefaultRoute_received os :
  0 <= socket_ret os -> 0 <= send_ret os ->
  DefaultRoute be os =
  (r <- receive be os ;;
   if read_ret r <? 0 then Ok (mkRoute false None true (read_pending r))
   else
     st <- scan_msgs be (S (length (read_buf r))) (read_buf r) 0 (read_ret r)
                     (mkScan 0 false NewInAddr) ;;
     res <- select_route be (read_buf r) st ;;
     Ok (mkRoute (fst res) (snd res) true (read_pending r))).
Proof.
  intros Hs Hsend. unfold DefaultRoute.
  destruct (Z.ltb_spec (socket_ret os) 0); [lia|].
  rewrite request_msg_image. cbn [bind].
  destruct (Z.ltb_spec (send_ret os) 0); [lia|].
  rewrite request_image_seq, request_image_pid. cbn [bind].
  change (to_int32 0) with 0.
  reflexivity.
Qed.

Lemma ReadNetlinkLoop_ret_range script : forall m buf bufsize seq pid msglen r,
  ReadNetlinkLoop be script m buf bufsize seq pid msglen = Ok r ->
  - 2 ^ 31 <= read_ret r < 2 ^ 31.
Proof.
  induction script as [|x script IH]; intros m buf bufsize seq pid msglen r H;
    [discriminate|].
  simpl in H.
  apply bind_Ok in H. destruct H as ([readlen m1] & _ & H). cbn [fst snd] in H.
  destruct (readlen <? 0); [inversion H; subst; simpl; lia|].
  apply bind_Ok in H. destruct H as (ok & _ & H).
  destruct ok; cbn [negb] in H; [|inversion H; subst; simpl; lia].
  apply bind_Ok in H. destruct H as (ty & _ & H).
  destruct (ty =? NLMSG_ERROR); [inversion H; subst; simpl; lia|].
  destruct (ty =? NLMSG_DONE);
    [inversion H; subst; simpl; apply to_int32_range|].
  apply bind_Ok in H. destruct H as (fl & _ & H).
  destruct (Z.land fl NLM_F_MULTI =? 0);
    [inversion H; subst; simpl; apply to_int32_range|].
  apply bind_Ok in H. destruct H as (sq & _ & H).
  apply bind_Ok in H. destruct H as (again & _ & H).
  destruct again; [eapply IH; exact H|].
  inversion H; subst; simpl; apply to_int32_range.
Qed.

Lemma DefaultRoute_route_of os r es :
  0 <= socket_ret os -> 0 <= send_ret os ->
  receive be os = Ok r ->
  response r (encode_entries be es) ->
  Forall wf_entry es ->
  DefaultRoute be os =
  Ok (mkRoute (fst (route_of be es)) (snd (route_of be es)) true (read_pending r)).
Proof.
  intros Hs Hsend Hr [Hret Hbuf] Hwf.
  rewrite DefaultRoute_received, Hr by assumption. cbn [bind].
  destruct (Z.ltb_spec (read_ret r) 0); [lia|].
  assert (Hrange : - 2 ^ 31 <= read_ret r < 2 ^ 31)
    by (eapply ReadNetlinkLoop_ret_range; exact Hr).
  assert (Hm : read_buf r = encode_entries be es
                            ++ skipn (length (encode_entries be es)) (read_buf r)).
  { pose proof (firstn_skipn (length (encode_entries be es)) (read_buf r)) as Hfs.
    rewrite Hbuf in Hfs. symmetry. exact Hfs. }
  assert (Hle : (length (encode_entries be es) <= length (read_buf r))%nat).
  { rewrite <- Hbuf. rewrite length_firstn. lia. }
  pose proof (select_route_spec be (read_buf r) es _ (S (length (read_buf r))) Hm Hwf)
    as Hsel.
  rewrite Hret.
  assert (Hn : (length es <= S (length (read_buf r)))%nat).
  { pose proof (count_oif_le_encoded be es).
    assert (Z.of_nat (length es) <= Z.of_nat (length (encode_entries be es))).
    { clear. induction es as [|e es IH]; [simpl; lia|].
      rewrite length_encode_entries_cons.
      destruct (nlmsg_len_aligned be e). simpl length. lia. }
    lia. }
  specialize (Hsel ltac:(lia) Hn).
  apply bind_Ok in Hsel. destruct Hsel as (st & Hscan & Hsel).
  rewrite Hscan. cbn [bind]. rewrite Hsel. reflexivity.
Qed.
End Request.

(** ** One iteration of the receive loop *)

Lemma load8_app_l l rest k :
  0 <= k < Z.of_nat (length l) -> load8 (l ++ rest) k = load8 l k.
Proof.
  intros H. rewrite !load8_nth by lia. rewrite nth_error_app1 by lia. reflexivity.
Qed.

Section Receive.
Variable be : bool.

Lemma load16_app_l l rest k :
  0 <= k -> k + 2 <= Z.of_nat (length l) ->
  load16 be (l ++ rest) k = load16 be l k.
Proof. intros. unfold load16. rewrite !load8_app_l by lia. reflexivity. Qed.

Lemma load32_app_l l rest k :
  0 <= k -> k + 4 <= Z.of_nat (length l) ->
  load32 be (l ++ rest) k = load32 be l k.
Proof. intros. unfold load32. rewrite !load8_app_l by lia. reflexivity. Qed.

Lemma load16_readable m p :
  0 <= p -> p + 2 <= Z.of_nat (length m) -> exists v, load16 be m p = Ok v.
Proof.
  intros Hp Hl. unfold load16.
  destruct (load8_readable m p) as [b0 ->]; [lia|].
  destruct (load8_readable m (p + 1)) as [b1 ->]; [lia|].
  cbn [bind]. eauto.
Qed.

Lemma header_of_readable frag :
  16 <= Z.of_nat (length frag) -> exists h, header_of be frag = Ok h.
Proof.
  intros H. unfold header_of.
  destruct (load32_readable be frag off_nlmsg_len) as [v0 ->];
    [unfold off_nlmsg_len; lia..|].
  destruct (load16_readable frag off_nlmsg_type) as [v1 ->];
    [unfold off_nlmsg_type; lia..|].
  destruct (load16_readable frag off_nlmsg_flags) as [v2 ->];
    [unfold off_nlmsg_flags; lia..|].
  destruct (load32_readable be frag off_nlmsg_seq) as [v3 ->];
    [unfold off_nlmsg_seq; lia..|].
  destruct (load32_readable be frag off_nlmsg_pid) as [v4 ->];
    [unfold off_nlmsg_pid; lia..|].
  cbn [bind]. eauto.
Qed.

Lemma header_of_fields frag h :
  header_of be frag = Ok h ->
  load32 be frag off_nlmsg_len = Ok (hdr_len h) /\
  load16 be frag off_nlmsg_type = Ok (hdr_type h) /\
  load16 be frag off_nlmsg_flags = Ok (hdr_flags h) /\
  load32 be frag off_nlmsg_seq = Ok (hdr_seq h) /\
  load32 be frag off_nlmsg_pid = Ok (hdr_pid h).
Proof.
  unfold header_of. intros H.
  apply bind_Ok in H. destruct H as (v0 & -> & H).
  apply bind_Ok in H. destruct H as (v1 & -> & H).
  apply bind_Ok in H. destruct H as (v2 & -> & H).
  apply bind_Ok in H. destruct H as (v3 & -> & H).
  apply bind_Ok in H. destruct H as (v4 & -> & H).
  inversion H; subst. simpl. repeat split.
Qed.

Lemma length_received d room :
  0 <= room ->
  Z.of_nat (length (received d room)) = Z.min (Z.of_nat (length d)) room.
Proof. intros H. unfold received. rewrite length_firstn. lia. Qed.

Lemma recv_datagram m buf bufsize msglen d :
  loop_ready m buf bufsize msglen ->
  let got := received d (bufsize - msglen) in
  recv (RecvDatagram d) m buf (to_uint32 (bufsize - msglen))
  = Ok (Z.of_nat (length got), after_recv m buf got).
Proof.
  intros (Hb & Hm & Hs & Hl) got. unfold recv.
  rewrite to_uint32_small by lia. fold (received d (bufsize - msglen)). fold got.
  pose proof (length_received d (bufsize - msglen) ltac:(lia)) as Hg. fold got in Hg.
  unfold store_bytes.
  destruct (Z.ltb_spec buf 0); [lia|].
  destruct (Z.ltb_spec (Z.of_nat (length m)) (buf + Z.of_nat (length got))); [lia|].
  reflexivity.
Qed.

Lemma skipn_after_recv m buf got :
  0 <= buf -> buf + Z.of_nat (length got) <= Z.of_nat (length m) ->
  skipn (Z.to_nat buf) (after_recv m buf got)
  = got ++ skipn (Z.to_nat buf + length got) m.
Proof.
  intros Hb Hl. unfold after_recv.
  rewrite skipn_app, length_firstn.
  replace (Nat.min (Z.to_nat buf) (length m)) with (Z.to_nat buf) by lia.
  rewrite Nat.sub_diag, skipn_all2 by (rewrite length_firstn; lia).
  reflexivity.
Qed.

Lemma length_after_recv m buf got :
  0 <= buf -> buf + Z.of_nat (length got) <= Z.of_nat (length m) ->
  length (after_recv m buf got) = length m.
Proof.
  intros Hb Hl. unfold after_recv.
  rewrite !length_app, length_firstn, length_skipn. lia.
Qed.

(** One iteration of the receive loop, in terms of the fragment it takes. *)
Lemma ReadNetlinkLoop_step d script m buf bufsize seq pid msglen h :
  loop_ready m buf bufsize msglen ->
  let got := received d (bufsize - msglen) in
  let readlen := Z.of_nat (length got) in
  let m' := after_recv m buf got in
  (16 <= readlen -> header_of be got = Ok h) ->
  ReadNetlinkLoop be (RecvDatagram d :: script) m buf bufsize seq pid msglen =
  if negb (envelope_ok h readlen) then Ok (mkRead (-1) m' script)
  else if hdr_type h =? NLMSG_ERROR then Ok (mkRead (-1) m' script)
  else if hdr_type h =? NLMSG_DONE then Ok (mkRead msglen m' script)
  else if Z.land (hdr_flags h) NLM_F_MULTI =? 0
  then Ok (mkRead (msglen + readlen) m' script)
  else if (to_int32 (hdr_seq h) =? seq) && (to_int32 (hdr_pid h) =? pid)
  then Ok (mkRead (msglen + readlen) m' script)
  else ReadNetlinkLoop be script m' (buf + readlen) bufsize seq pid
                       (msglen + readlen).
Proof.
  intros Hready got readlen m' Hh.
  pose proof Hready as (Hb & Hm & Hs & Hl).
  pose proof (length_received d (bufsize - msglen) ltac:(lia)) as Hg.
  fold got in Hg. fold readlen in Hg.
  cbn [ReadNetlinkLoop]. rewrite recv_datagram by exact Hready.
  fold got. fold readlen. fold m'. cbn [bind fst snd].
  destruct (Z.ltb_spec readlen 0); [lia|].
  unfold NLMSG_OK, envelope_ok. rewrite to_uint32_small by lia.
  unfold sizeof_nlmsghdr.
  destruct (Z.ltb_spec readlen 16) as [Hshort|Hlong].
  { cbn [bind negb]. replace (16 <=? readlen) with false
      by (symmetry; apply Z.leb_gt; lia). reflexivity. }
  replace (16 <=? readlen) with true by (symmetry; apply Z.leb_le; lia).
  cbn [andb].
  destruct (header_of_fields got h (Hh Hlong)) as (Hlen & Hty & Hfl & Hsq & Hpd).
  assert (Hsk : skipn (Z.to_nat buf) m' = got ++ skipn (Z.to_nat buf + length got) m)
    by (apply skipn_after_recv; lia).
  rewrite load32_skipn, Hsk, load32_app_l, Hlen by (unfold off_nlmsg_len; lia).
  cbn [bind].
  destruct ((16 <=? hdr_len h) && (hdr_len h <=? readlen)); cbn [negb];
    [|reflexivity].
  rewrite load16_skipn, Hsk, load16_app_l, Hty by (unfold off_nlmsg_type; lia).
  cbn [bind].
  destruct (hdr_type h =? NLMSG_ERROR); [reflexivity|].
  rewrite to_uint32_small, to_int32_small by lia.
  destruct (hdr_type h =? NLMSG_DONE); [reflexivity|].
  rewrite load16_skipn, Hsk, load16_app_l, Hfl by (unfold off_nlmsg_flags; lia).
  cbn [bind].
  rewrite to_int32_small by lia.
  destruct (Z.land (hdr_flags h) NLM_F_MULTI =? 0); [reflexivity|].
  rewrite load32_skipn, Hsk, load32_app_l, Hsq by (unfold off_nlmsg_seq; lia).
  cbn [bind].
  destruct (to_int32 (hdr_seq h) =? seq); cbn [negb andb bind]; [|reflexivity].
  rewrite load32_skipn, Hsk, load32_app_l, Hpd by (unfold off_nlmsg_pid; lia).
  cbn [bind].
  destruct (to_int32 (hdr_pid h) =? pid); reflexivity.
Qed.

Lemma loop_ready_step m buf bufsize msglen got :
  loop_ready m buf bufsize msglen ->
  Z.of_nat (length got) <= bufsize - msglen ->
  loop_ready (after_recv m buf got) (buf + Z.of_nat (length got)) bufsize
             (msglen + Z.of_nat (length got)).
Proof.
  intros (Hb & Hm & Hs & Hl) Hg. unfold loop_ready.
  rewrite length_after_recv by lia. lia.
Qed.
End Receive.

(** ** The iterations granted to the scans *)

Lemma load8_fault m p f : load8 m p = Fault f -> f = Undefined.
Proof.
  unfold load8. destruct (p <? 0); [congruence|].
  destruct (nth_error m (Z.to_nat p)); congruence.
Qed.

Lemma bind_fault {A B} (c : run A) (k : A -> run B) f :
  bind c k = Fault f ->
  c = Fault f \/ exists a, c = Ok a /\ k a = Fault f.
Proof. destruct c as [a|g]; simpl; intros H; [eauto|left; congruence]. Qed.

Section Fuel.
Variable be : bool.

Lemma load16_fault m p f : load16 be m p = Fault f -> f = Undefined.
Proof.
  unfold load16. intros H.
  apply bind_fault in H. destruct H as [H|(b0 & _ & H)]; [eapply load8_fault; eauto|].
  apply bind_fault in H. destruct H as [H|(b1 & _ & H)]; [eapply load8_fault; eauto|].
  discriminate.
Qed.

Lemma load32_fault m p f : load32 be m p = Fault f -> f = Undefined.
Proof.
  unfold load32. intros H.
  apply bind_fault in H. destruct H as [H|(b0 & _ & H)]; [eapply load8_fault; eauto|].
  apply bind_fault in H. destruct H as [H|(b1 & _ & H)]; [eapply load8_fault; eauto|].
  apply bind_fault in H. destruct H as [H|(b2 & _ & H)]; [eapply load8_fault; eauto|].
  apply bind_fault in H. destruct H as [H|(b3 & _ & H)]; [eapply load8_fault; eauto|].
  discriminate.
Qed.

Lemma scan_attr_fault m p st f : scan_attr be m p st = Fault f -> f = Undefined.
Proof.
  unfold scan_attr. intros H.
  apply bind_fault in H. destruct H as [H|(ty & _ & H)]; [eapply load16_fault; eauto|].
  destruct (ty =? RTA_OIF).
  { apply bind_fault in H. destruct H as [H|(? & _ & H)];
      [eapply load32_fault; eauto|discriminate]. }
  destruct (ty =? RTA_GATEWAY).
  { apply bind_fault in H. destruct H as [H|(? & _ & H)];
      [eapply load32_fault; eauto|discriminate]. }
  destruct (ty =? RTA_DST); [|discriminate].
  apply bind_fault in H. destruct H as [H|(? & _ & H)];
    [eapply load32_fault; eauto|discriminate].
Qed.

Lemma RTA_OK_fault m p len f : RTA_OK be m p len = Fault f -> f = Undefined.
Proof.
  unfold RTA_OK. destruct (len <? sizeof_rtattr); [discriminate|]. intros H.
  apply bind_fault in H. destruct H as [H|(? & _ & H)];
    [eapply load16_fault; eauto|discriminate].
Qed.

Lemma NLMSG_OK_fault m p len f : NLMSG_OK be m p len = Fault f -> f = Undefined.
Proof.
  unfold NLMSG_OK. destruct (len <? sizeof_nlmsghdr); [discriminate|]. intros H.
  apply bind_fault in H. destruct H as [H|(? & _ & H)];
    [eapply load32_fault; eauto|discriminate].
Qed.

(** The attribute loop takes at least four bytes off [rt_len] in each
    iteration, so the iterations it is granted always suffice. *)
Lemma scan_attrs_terminates fuel : forall m p rt_len st,
  rt_len < 2 ^ 31 -> (Z.to_nat rt_len < fuel)%nat ->
  scan_attrs be fuel m p rt_len st <> Fault OutOfFuel.
Proof.
  induction fuel as [|fuel IH]; intros m p rt_len st Hr Hf; [lia|].
  rewrite scan_attrs_eq. intros H.
  apply bind_fault in H. destruct H as [H|(ok & Hok & H)];
    [apply RTA_OK_fault in H; discriminate|].
  destruct ok; cbn [negb] in H; [|discriminate].
  unfold RTA_OK, sizeof_rtattr in Hok.
  destruct (Z.ltb_spec rt_len 4) as [Hs|Hl]; [discriminate|].
  apply bind_Ok in Hok. destruct Hok as (rta_len & El & Hok).
  injection Hok as Hin. apply andb_true_iff in Hin.
  destruct Hin as [H4 Hle]. apply Z.leb_le in H4. apply Z.leb_le in Hle.
  apply bind_fault in H. destruct H as [H|(st' & _ & H)];
    [apply scan_attr_fault in H; discriminate|].
  rewrite El in H. cbn [bind] in H.
  assert (Ha : RTA_ALIGN rta_len = 4 * ((rta_len + 3) / 4))
    by (apply RTA_ALIGN_eq; lia).
  rewrite Ha, to_uint32_small in H by lia.
  rewrite to_int32_small in H by (Z.div_mod_to_equations; lia).
  revert H. apply IH; Z.div_mod_to_equations; lia.
Qed.

(** Fuel beyond what a run needs does not change its outcome. *)
Lemma scan_msgs_more_fuel fuel : forall k m p len st,
  scan_msgs be fuel m p len st <> Fault OutOfFuel ->
  scan_msgs be (fuel + k) m p len st = scan_msgs be fuel m p len st.
Proof.
  induction fuel as [|fuel IH]; intros k m p len st H.
  - rewrite scan_msgs_eq in H. rewrite (scan_msgs_eq be 0%nat), (scan_msgs_eq be (0 + k)%nat).
    destruct (NLMSG_OK be m p (to_uint32 len)) as [ok|f]; cbn [bind] in *;
      [|reflexivity].
    destruct ok; cbn [negb] in *; [congruence|reflexivity].
  - rewrite scan_msgs_eq in H.
    rewrite (scan_msgs_eq be (S fuel)), (scan_msgs_eq be (S fuel + k)%nat).
    destruct (NLMSG_OK be m p (to_uint32 len)) as [ok|f]; cbn [bind] in *;
      [|reflexivity].
    destruct ok; cbn [negb] in *; [|reflexivity].
    cbn [Nat.add]. cbv zeta in *.
    destruct (load8 m (NLMSG_DATA p + off_rtm_family)) as [fam|f];
      cbn [bind] in *; [|reflexivity].
    match goal with
    | |- bind ?c _ = _ => destruct c as [in_main|f]; cbn [bind] in *; [|reflexivity]
    end.
    match goal with
    | |- bind ?c _ = _ => destruct c as [st'|f]; cbn [bind] in *; [|reflexivity]
    end.
    destruct (in_main && foundDefaultRoute st'); [reflexivity|].
    destruct (load32 be m (p + off_nlmsg_len)) as [nlmsg_len|f];
      cbn [bind] in *; [|reflexivity].
    apply IH. exact H.
Qed.

(** The scan of the messages moves at least sixteen bytes ahead in each
    iteration unless [NLMSG_ALIGN] wraps around to zero, and then the C
    loop stands still for ever.  So when the iterations that
    [DefaultRoute] grants run out, no number of iterations would do. *)
Lemma scan_msgs_stands_still m p n : forall fuel len st,
  NLMSG_OK be m p (to_uint32 len) = Ok true ->
  load32 be m (p + off_nlmsg_len) = Ok n ->
  NLMSG_ALIGN n = 0 -> 2 ^ 32 - 3 <= n < 2 ^ 32 ->
  (exists fam, load8 m (NLMSG_DATA p + off_rtm_family) = Ok fam /\
     (fam = AF_INET ->
      exists tab, load8 m (NLMSG_DATA p + off_rtm_table) = Ok tab)) ->
  scan_msgs be fuel m p len st = Fault OutOfFuel.
Proof.
  induction fuel as [|fuel IH]; intros len st Hok Hn Ha Hr Hfam;
    rewrite scan_msgs_eq, Hok; cbn [bind negb]; [reflexivity|].
  cbv zeta. destruct Hfam as (fam & Hf & Htab). rewrite Hf. cbn [bind].
  assert (Hpay : forall st0,
             scan_attrs be (S (Z.to_nat (RTM_PAYLOAD n))) m
                        (RTM_RTA (NLMSG_DATA p)) (RTM_PAYLOAD n) st0 = Ok st0).
  { intros st0. rewrite scan_attrs_eq. unfold RTA_OK, RTM_PAYLOAD, NLMSG_PAYLOAD.
    change (NLMSG_SPACE sizeof_rtmsg) with 28.
    assert (Hneg : to_int32 (n - 28) < sizeof_rtattr).
    { unfold to_int32, to_signed, sizeof_rtattr. change (32 - 1) with 31.
      change (2 ^ 32) with 4294967296 in *. change (2 ^ 31) with 2147483648.
      Z.div_mod_to_equations. lia. }
    destruct (Z.ltb_spec (to_int32 (n - 28)) sizeof_rtattr); [reflexivity|lia]. }
  assert (Hnext : forall st0 : scan_state,
             scan_msgs be fuel m (p + NLMSG_ALIGN n)
                       (to_int32 (to_uint32 len - NLMSG_ALIGN n)) st0
             = Fault OutOfFuel).
  { intros st0. rewrite Ha, Z.add_0_r, Z.sub_0_r.
    apply IH; try assumption.
    - rewrite to_uint32_to_int32.
      unfold to_uint32, to_unsigned. rewrite Z.mod_mod by lia. exact Hok.
    - exists fam. split; assumption. }
  destruct (fam =? AF_INET) eqn:Efam.
  - apply Z.eqb_eq in Efam. destruct (Htab Efam) as (tab & Ht). rewrite Ht.
    cbn [bind]. destruct (tab =? RT_TABLE_MAIN); cbn [bind andb].
    + rewrite Hn. cbn [bind]. rewrite Hpay. cbn [bind andb foundDefaultRoute].
      apply Hnext.
    + rewrite Hn. cbn [bind]. apply Hnext.
  - cbn [bind andb]. rewrite Hn. cbn [bind]. apply Hnext.
Qed.

Lemma load8_in_bounds m p b :
  0 <= p -> load8 m p = Ok b -> p < Z.of_nat (length m).
Proof.
  intros Hp H. rewrite load8_nth in H by exact Hp.
  destruct (nth_error m (Z.to_nat p)) eqn:E; [|discriminate].
  assert (Z.to_nat p < length m)%nat by (apply nth_error_Some; congruence).
  lia.
Qed.

Lemma load32_in_bounds m p v :
  0 <= p -> load32 be m p = Ok v -> p < Z.of_nat (length m).
Proof.
  intros Hp H. unfold load32 in H.
  apply bind_Ok in H. destruct H as (b0 & H0 & _).
  eapply load8_in_bounds; eauto.
Qed.

Lemma NLMSG_ALIGN_wraps n : 2 ^ 32 - 3 <= n < 2 ^ 32 -> NLMSG_ALIGN n = 0.
Proof.
  intros H.
  assert (n = 4294967293 \/ n = 4294967294 \/ n = 4294967295) as [->|[->| ->]]
    by lia; reflexivity.
Qed.

Ltac not_out_of_fuel H E lem :=
  apply lem in E; rewrite E in H; discriminate H.

Lemma scan_msgs_out_of_fuel fuel : forall m p len st,
  0 <= p -> Z.of_nat (length m) - p < 16 * Z.of_nat fuel ->
  scan_msgs be fuel m p len st = Fault OutOfFuel ->
  forall fuel', scan_msgs be fuel' m p len st = Fault OutOfFuel.
Proof.
  induction fuel as [|fuel IH]; intros m p len st Hp Hroom H fuel';
    rewrite scan_msgs_eq in H;
    destruct (NLMSG_OK be m p (to_uint32 len)) as [ok|f] eqn:Eok;
    cbn [bind] in H; try (not_out_of_fuel H Eok NLMSG_OK_fault);
    (destruct ok; cbn [negb] in H; [|discriminate]);
    pose proof Eok as Hhdr; unfold NLMSG_OK in Hhdr;
    (destruct (to_uint32 len <? sizeof_nlmsghdr); [discriminate|]);
    apply bind_Ok in Hhdr; destruct Hhdr as (n & En & Hn);
    injection Hn as Hn; apply andb_true_iff in Hn; destruct Hn as [Hn16 Hnlen];
    apply Z.leb_le in Hn16; apply Z.leb_le in Hnlen; unfold sizeof_nlmsghdr in Hn16.
  - apply load32_in_bounds in En; unfold off_nlmsg_len in *; lia.
  - cbv zeta in H.
    destruct (load8 m (NLMSG_DATA p + off_rtm_family)) as [fam|f] eqn:Efam;
      cbn [bind] in H; [|not_out_of_fuel H Efam load8_fault].
    assert (Htab : fam = AF_INET ->
                   exists tab, load8 m (NLMSG_DATA p + off_rtm_table) = Ok tab).
    { intros ->. change (AF_INET =? AF_INET) with true in H. cbv iota in H.
      destruct (load8 m (NLMSG_DATA p + off_rtm_table)) as [tab|f] eqn:Et;
        [eauto|]. cbn [bind] in H. not_out_of_fuel H Et load8_fault. }
    pose proof (to_uint32_range len) as Hlen.
    destruct (Z_lt_le_dec (n + 3) (2 ^ 32)) as [Hsmall|Hwrap].
    + (* the scan moves ahead *)
      assert (Ha : NLMSG_ALIGN n = 4 * ((n + 3) / 4))
        by (apply NLMSG_ALIGN_eq; lia).
      assert (Hrest : forall st1,
                 scan_msgs be fuel m (p + NLMSG_ALIGN n)
                           (to_int32 (to_uint32 len - NLMSG_ALIGN n)) st1
                 = Fault OutOfFuel ->
                 forall fuel'',
                   scan_msgs be fuel'' m (p + NLMSG_ALIGN n)
                             (to_int32 (to_uint32 len - NLMSG_ALIGN n)) st1
                   = Fault OutOfFuel).
      { intros st1. apply IH; rewrite Ha; Z.div_mod_to_equations; lia. }
      rewrite scan_msgs_eq, Eok. cbn [bind negb].
      destruct fuel' as [|fuel']; [reflexivity|].
      cbv zeta. rewrite Efam. cbn [bind].
      match type of H with
      | bind ?c _ = _ => destruct c as [in_main|f] eqn:Emain
      end; cbn [bind] in H |- *; [|exact H].
      match type of H with
      | bind ?c _ = _ => destruct c as [st1|f] eqn:Est
      end; cbn [bind] in H |- *; [|exact H].
      destruct (in_main && foundDefaultRoute st1); [discriminate|].
      rewrite En in H |- *. cbn [bind] in H |- *.
      apply Hrest. exact H.
    + (* the scan stands still *)
      apply (scan_msgs_stands_still m p n); try assumption.
      * apply NLMSG_ALIGN_wraps. lia.
      * lia.
      * exists fam. split; assumption.
Qed.

(** The iterations that [DefaultRoute] grants to the scan decide its
    outcome: no other number from there on gives a different one. *)
Lemma scan_msgs_fuel_suffices m len st fuel' :
  (S (length m) <= fuel')%nat ->
  scan_msgs be fuel' m 0 len st = scan_msgs be (S (length m)) m 0 len st.
Proof.
  intros Hf.
  destruct (scan_msgs be (S (length m)) m 0 len st) as [st'|f] eqn:E.
  - replace fuel' with (S (length m) + (fuel' - S (length m)))%nat by lia.
    rewrite scan_msgs_more_fuel; [exact E|]. rewrite E. discriminate.
  - destruct f.
    + replace fuel' with (S (length m) + (fuel' - S (length m)))%nat by lia.
      rewrite scan_msgs_more_fuel; [exact E|]. rewrite E. discriminate.
    + replace fuel' with (S (length m) + (fuel' - S (length m)))%nat by lia.
      rewrite scan_msgs_more_fuel; [exact E|]. rewrite E. discriminate.
    + apply (scan_msgs_out_of_fuel (S (length m))); [lia|lia|exact E].
Qed.
End Fuel.

(** ** Byte order: the round trips *)

Lemma bytes_sum_16 b0 b1 :
  0 <= b0 < 256 -> 0 <= b1 < 256 ->
  (b0 * 256 + b1) mod 256 = b1 /\ (b0 * 256 + b1) / 256 mod 256 = b0.
Proof. intros. split; dlia. Qed.

Lemma split_bytes_16 x :
  0 <= x < 65536 -> x = (x / 256 mod 256) * 256 + x mod 256.
Proof. intros. dlia. Qed.

Lemma bytes_sum_32 b0 b1 b2 b3 :
  0 <= b0 < 256 -> 0 <= b1 < 256 -> 0 <= b2 < 256 -> 0 <= b3 < 256 ->
  let y := b0 * 16777216 + b1 * 65536 + b2 * 256 + b3 in
  y mod 256 = b3 /\ y / 256 mod 256 = b2 /\
  y / 65536 mod 256 = b1 /\ y / 16777216 mod 256 = b0.
Proof. intros. subst y. repeat split; dlia. Qed.

Lemma split_bytes_32 x :
  0 <= x < 4294967296 ->
  x = (x / 16777216 mod 256) * 16777216 + (x / 65536 mod 256) * 65536
      + (x / 256 mod 256) * 256 + x mod 256.
Proof. intros. dlia. Qed.

Lemma byte_range x k : 0 <= x / k mod 256 < 256.
Proof. apply Z.mod_pos_bound. lia. Qed.

Lemma byte_range_0 x : 0 <= x mod 256 < 256.
Proof. apply Z.mod_pos_bound. lia. Qed.

Lemma lor_scaled a b k n :
  k = 2 ^ n -> 0 <= n -> 0 <= b < k -> Z.lor (a * k) b = a * k + b.
Proof.
  intros -> Hn Hb.
  assert (Hd : Z.land (a * 2 ^ n) b = 0).
  { apply Z.bits_inj'. intros i Hi. rewrite Z.land_spec, Z.bits_0.
    destruct (Z.ltb_spec i n).
    - rewrite Z.mul_pow2_bits_low by lia. reflexivity.
    - rewrite (testbit_small b n i) by lia. apply andb_false_r. }
  rewrite <- Z.lxor_lor by exact Hd.
  symmetry. apply Z.add_nocarry_lxor. exact Hd.
Qed.

Lemma shiftr_8 x : Z.shiftr x 8 = x / 256.
Proof. rewrite Z.shiftr_div_pow2 by lia. reflexivity. Qed.

Lemma shiftl_8 x : Z.shiftl x 8 = x * 256.
Proof. rewrite Z.shiftl_mul_pow2 by lia. reflexivity. Qed.

Lemma bswap_16_eq x : bswap_16 x = x mod 256 * 256 + x / 256 mod 256.
Proof.
  unfold bswap_16. rewrite !land_255, shiftr_8, shiftl_8.
  apply (lor_scaled _ _ 256 8); [reflexivity|lia|dlia].
Qed.

Lemma bswap_16_involutive x : is_uint16 x -> bswap_16 (bswap_16 x) = x.
Proof.
  unfold is_uint16. change (2 ^ 16) with 65536. intros H.
  rewrite (bswap_16_eq x).
  pose proof (byte_range_0 x) as H0. pose proof (byte_range x 256) as H1.
  destruct (bytes_sum_16 _ _ H0 H1) as [Hlo Hhi].
  rewrite bswap_16_eq, Hlo, Hhi. symmetry. apply split_bytes_16. exact H.
Qed.

Lemma bswap_16_range x : is_uint16 (bswap_16 x).
Proof.
  unfold is_uint16. rewrite bswap_16_eq.
  pose proof (byte_range_0 x). pose proof (byte_range x 256).
  change (2 ^ 16) with 65536. lia.
Qed.

Lemma lor_disjoint hi lo k n :
  k = 2 ^ n -> 0 <= n -> 0 <= lo < k -> hi mod k = 0 -> Z.lor hi lo = hi + lo.
Proof.
  intros Hk Hn Hlo Hhi.
  replace hi with (hi / k * k) by dlia.
  apply (lor_scaled _ _ k n); assumption.
Qed.

Lemma bswap_32_eq x :
  bswap_32 x = x mod 256 * 16777216 + x / 256 mod 256 * 65536
               + x / 65536 mod 256 * 256 + x / 16777216 mod 256.
Proof.
  unfold bswap_32. rewrite !land_255.
  rewrite !Z.shiftr_div_pow2, !Z.shiftl_mul_pow2 by lia.
  change (2 ^ 8) with 256. change (2 ^ 16) with 65536.
  change (2 ^ 24) with 16777216.
  set (b0 := x mod 256). set (b1 := x / 256 mod 256).
  set (b2 := x / 65536 mod 256). set (b3 := x / 16777216 mod 256).
  assert (H0 : 0 <= b0 < 256) by (subst b0; dlia).
  assert (H1 : 0 <= b1 < 256) by (subst b1; dlia).
  assert (H2 : 0 <= b2 < 256) by (subst b2; dlia).
  assert (H3 : 0 <= b3 < 256) by (subst b3; dlia).
  clearbody b0 b1 b2 b3.
  rewrite (lor_disjoint (b2 * 256) b3 256 8) by (reflexivity || dlia).
  rewrite (lor_disjoint (b0 * 16777216) (b1 * 65536) 16777216 24)
    by (reflexivity || dlia).
  rewrite (lor_disjoint _ (b2 * 256 + b3) 65536 16) by (reflexivity || dlia).
  lia.
Qed.

Lemma bswap_32_involutive x : is_uint32 x -> bswap_32 (bswap_32 x) = x.
Proof.
  unfold is_uint32. change (2 ^ 32) with 4294967296. intros H.
  rewrite (bswap_32_eq x).
  pose proof (byte_range_0 x) as H0. pose proof (byte_range x 256) as H1.
  pose proof (byte_range x 65536) as H2. pose proof (byte_range x 16777216) as H3.
  destruct (bytes_sum_32 _ _ _ _ H0 H1 H2 H3) as (E3 & E2 & E1 & E0).
  rewrite bswap_32_eq, E3, E2, E1, E0. symmetry. apply split_bytes_32. exact H.
Qed.

Lemma bswap_32_range x : is_uint32 (bswap_32 x).
Proof.
  unfold is_uint32. rewrite bswap_32_eq.
  pose proof (byte_range_0 x). pose proof (byte_range x 256).
  pose proof (byte_range x 65536). pose proof (byte_range x 16777216).
  change (2 ^ 32) with 4294967296. lia.
Qed.

Lemma swap16_expr_nonneg v :
  is_uint16 v -> swap16_expr v = v mod 256 * 256 + v / 256.
Proof.
  unfold is_uint16. intros H. unfold swap16_expr.
  rewrite land_255, shiftr_8, shiftl_8.
  apply (lor_scaled _ _ 256 8); [reflexivity|lia|dlia].
Qed.

(** For a negative [int16_t] the sign bits of [value >> 8] cover the byte
    that [(value & 0xff) << 8] contributes. *)
Lemma swap16_expr_negative v :
  is_int16 v -> v < 0 -> swap16_expr v = v / 256.
Proof.
  unfold is_int16. intros H Hneg. unfold swap16_expr. rewrite <- shiftr_8.
  apply Z.bits_inj'. intros i Hi.
  rewrite Z.lor_spec, Z.shiftl_spec, Z.shiftr_spec by lia.
  destruct (Z.ltb_spec i 8) as [Hlow|Hhigh].
  - rewrite (Z.testbit_neg_r _ (i - 8)) by lia. reflexivity.
  - rewrite (Z.bits_above_log2_neg v (i + 8)); [apply orb_true_r|lia|].
    destruct (Z.eq_dec (Z.pred (- v)) 0) as [->|Hnz]; [simpl; lia|].
    assert (Z.log2 (Z.pred (- v)) < 15) by (apply Z.log2_lt_pow2; lia).
    lia.
Qed.

Lemma _ByteSwap_eq v : is_uint32 v -> _ByteSwap v = bswap_32 v.
Proof.
  unfold is_uint32. intros H. unfold _ByteSwap. rewrite bswap_32_eq.
  change 65280 with (Z.shiftl 255 8).
  change 16711680 with (Z.shiftl 255 16).
  change 4278190080 with (Z.shiftl 255 24).
  rewrite !land_shifted_mask by lia. rewrite !land_255.
  rewrite !Z.shiftr_shiftl_l by lia. cbn [Z.sub Z.add Z.opp Z.pos_sub Pos.add Pos.succ Pos.pred_double Z.double Z.succ_double Z.pred_double].
  rewrite !Z.shiftr_div_pow2, !Z.shiftl_mul_pow2 by lia.
  change (2 ^ 8) with 256. change (2 ^ 16) with 65536.
  change (2 ^ 24) with 16777216. change (2 ^ 0) with 1.
  set (b0 := v mod 256). set (b1 := v / 256 mod 256).
  set (b2 := v / 65536 mod 256). set (b3 := v / 16777216 mod 256).
  assert (H0 : 0 <= b0 < 256) by (subst b0; dlia).
  assert (H1 : 0 <= b1 < 256) by (subst b1; dlia).
  assert (H2 : 0 <= b2 < 256) by (subst b2; dlia).
  assert (H3 : 0 <= b3 < 256) by (subst b3; dlia).
  clearbody b0 b1 b2 b3.
  rewrite !to_uint32_small by (change (2 ^ 32) with 4294967296; lia).
  rewrite (lor_disjoint (b0 * 16777216) _ 16777216 24) by (reflexivity || dlia).
  rewrite (lor_disjoint _ (b2 * 256) 65536 16) by (reflexivity || dlia).
  rewrite (lor_disjoint _ (b3 * 1) 256 8) by (reflexivity || dlia).
  lia.
Qed.

(** ** Host names *)

Lemma find_first_of_no_dot s :
  (forall i, String.get i s <> Some "."%char) -> find_first_of s "." = None.
Proof.
  induction s as [|c s IH]; intros H; [reflexivity|].
  cbn [find_first_of mem_ascii].
  destruct (Ascii.eqb_spec c "."%char) as [->|Hne].
  - exfalso. apply (H O). reflexivity.
  - rewrite IH; [reflexivity|]. intros i. apply (H (S i)).
Qed.

(** Claim C9.  [HostnameFromFQDN("foo.bar.example.com")] is ["foo"] and
    [DomainNameFromFQDN("foo.bar.example.com")] is ["bar.example.com"]; for
    every string without a dot [HostnameFromFQDN] returns the whole string
    and [DomainNameFromFQDN] the empty string.  Neither call throws. *)
Theorem FQDN_decomposition :
  HostnameFromFQDN "foo.bar.example.com" = Some "foo"%string /\
  DomainNameFromFQDN "foo.bar.example.com" = Some "bar.example.com"%string /\
  (forall s : string,
      (forall i, String.get i s <> Some "."%char) ->
      HostnameFromFQDN s = Some s /\ DomainNameFromFQDN s = Some ""%string).
Proof.
  split; [reflexivity|]. split; [reflexivity|].
  intros s Hs. unfold HostnameFromFQDN, DomainNameFromFQDN.
  rewrite (find_first_of_no_dot s Hs). split; reflexivity.
Qed.

(** Claim C9 at the name ["localhost"]. *)
Lemma FQDN_decomposition_witness :
  HostnameFromFQDN "localhost" = Some "localhost"%string /\
  DomainNameFromFQDN "localhost" = Some ""%string.
Proof.
  destruct FQDN_decomposition as (_ & _ & Hplain).
  apply (Hplain "localhost"%string).
  intros i. do 9 (destruct i as [|i]; [discriminate|]). discriminate.
Defined.

Lemma find_first_of_dot h d :
  (forall i, String.get i h <> Some "."%char) ->
  find_first_of (h ++ String "." d) "." = Some (String.length h).
Proof.
  induction h as [|c h IH]; intros H; [reflexivity|].
  cbn [String.append find_first_of mem_ascii String.length].
  destruct (Ascii.eqb_spec c "."%char) as [->|Hne].
  - exfalso. apply (H O). reflexivity.
  - rewrite IH; [reflexivity|]. intros i. apply (H (S i)).
Qed.

Lemma length_append_dot h d :
  String.length (h ++ String "." d) = (String.length h + S (String.length d))%nat.
Proof. induction h as [|c h IH]; simpl; [reflexivity|]. rewrite IH. reflexivity. Qed.

Lemma substring_all s : substring 0 (String.length s) s = s.
Proof. induction s as [|c s IH]; simpl; [reflexivity|]. rewrite IH. reflexivity. Qed.

Lemma substring_prefix h s : substring 0 (String.length h) (h ++ s) = h.
Proof.
  induction h as [|c h IH]; simpl.
  - destruct s; reflexivity.
  - rewrite IH. reflexivity.
Qed.

Lemma substring_suffix h s n :
  substring (String.length h) n (h ++ s) = substring 0 n s.
Proof. induction h as [|c h IH]; simpl; [reflexivity|exact IH]. Qed.

(** The two functions on a name with a dot: the part before the first dot
    and the part behind it. *)
Theorem FQDN_split (h d : string) :
  (forall i, String.get i h <> Some "."%char) ->
  HostnameFromFQDN (h ++ String "." d) = Some h /\
  DomainNameFromFQDN (h ++ String "." d) = Some d.
Proof.
  intros Hh. unfold HostnameFromFQDN, DomainNameFromFQDN.
  rewrite (find_first_of_dot h d Hh). unfold substr.
  rewrite length_append_dot. split.
  - cbn [Nat.ltb Nat.leb]. rewrite Nat.sub_0_r.
    replace (Nat.min (String.length h) (String.length h + S (String.length d)))
      with (String.length h) by lia.
    rewrite substring_prefix. reflexivity.
  - destruct (Nat.ltb_spec (String.length h + S (String.length d))
                           (String.length h + 1)); [lia|].
    replace (String.length h + S (String.length d) - (String.length h + 1))%nat
      with (String.length d) by lia.
    replace (String.length h + 1)%nat with (String.length (h ++ ".")).
    + replace (h ++ String "." d)%string with ((h ++ ".") ++ d)%string.
      * rewrite substring_suffix, substring_all. reflexivity.
      * clear. induction h as [|c h IH]; simpl; [reflexivity|]. rewrite IH. reflexivity.
    + clear. induction h as [|c h IH]; simpl; [reflexivity|]. rewrite IH. reflexivity.
Qed.

(** The split at the name of the specification. *)
Lemma FQDN_split_witness :
  HostnameFromFQDN "foo.bar.example.com" = Some "foo"%string /\
  DomainNameFromFQDN "foo.bar.example.com" = Some "bar.example.com"%string.
Proof.
  apply (FQDN_split "foo" "bar.example.com").
  intros i. do 3 (destruct i as [|i]; [discriminate|]). discriminate.
Defined.

(** *** Round trips *)

(** Claim C5, where the code departs from it.  On a big-endian host the
    [int16_t] overload of [HostToLittleEndian] turns every negative [v]
    into [v >> 8], the sign bits of the promoted operand having covered the
    swapped low byte, and [LittleEndianToHost] then yields [-1]: the round
    trip returns [v] for no negative [v] but [-1] itself. *)
Theorem LittleEndian_int16_round_trip_breaks (v : Z) :
  is_int16 v -> v < 0 ->
  HostToLittleEndian_i16 true v = v / 256 /\
  LittleEndianToHost_i16 true (HostToLittleEndian_i16 true v) = -1.
Proof.
  intros Hv Hneg. pose proof Hv as Hr. unfold is_int16 in Hr.
  change (2 ^ 15) with 32768 in Hr.
  assert (Hq : is_int16 (v / 256))
    by (unfold is_int16; change (2 ^ 15) with 32768; dlia).
  assert (H1 : HostToLittleEndian_i16 true v = v / 256).
  { unfold HostToLittleEndian_i16. rewrite swap16_expr_negative by assumption.
    apply to_int16_small. exact Hq. }
  split; [exact H1|]. rewrite H1.
  unfold LittleEndianToHost_i16.
  assert (Hqneg : v / 256 < 0) by dlia.
  rewrite (swap16_expr_negative _ Hq Hqneg).
  replace (v / 256 / 256) with (-1) by dlia. reflexivity.
Qed.

(** Claim C5 at [v = -2] ([0xFFFE]): the conversion returns [-1]
    ([0xFFFF]) where the swapped bytes are [0xFEFF], and the way back
    returns [-1]. *)
Lemma LittleEndian_int16_round_trip_breaks_witness :
  HostToLittleEndian_i16 true (-2) = -1 /\
  LittleEndianToHost_i16 true (HostToLittleEndian_i16 true (-2)) = -1.
Proof.
  apply (LittleEndian_int16_round_trip_breaks (-2)).
  - vm_compute. split; [discriminate|reflexivity].
  - reflexivity.
Defined.

(** The round trips of claim C5 that the code keeps, on either byte order:
    network order for the four 16- and 32-bit types, little-endian order
    for [uint16_t], [uint32_t] and [int32_t], and little-endian order for
    [int16_t] on a little-endian host. *)
Theorem byte_order_round_trips (be : bool) (v : Z) :
  (is_uint16 v ->
   NetworkToHost_u16 be (HostToNetwork_u16 be v) = v /\
   LittleEndianToHost_u16 be (HostToLittleEndian_u16 be v) = v) /\
  (is_int16 v ->
   NetworkToHost_i16 be (HostToNetwork_i16 be v) = v /\
   (be = false -> LittleEndianToHost_i16 be (HostToLittleEndian_i16 be v) = v)) /\
  (is_uint32 v ->
   NetworkToHost_u32 be (HostToNetwork_u32 be v) = v /\
   LittleEndianToHost_u32 be (HostToLittleEndian_u32 be v) = v) /\
  (is_int32 v ->
   NetworkToHost_i32 be (HostToNetwork_i32 be v) = v /\
   LittleEndianToHost_i32 be (HostToLittleEndian_i32 be v) = v).
Proof.
  split; [|split; [|split]].
  - intros Hv. split.
    + unfold NetworkToHost_u16, HostToNetwork_u16, ntohs, htons.
      destruct be; [reflexivity|]. apply bswap_16_involutive. exact Hv.
    + unfold LittleEndianToHost_u16, HostToLittleEndian_u16.
      destruct be; [|reflexivity].
      pose proof Hv as Hr. unfold is_uint16 in Hr. change (2 ^ 16) with 65536 in Hr.
      rewrite (swap16_expr_nonneg v Hv).
      pose proof (byte_range_0 v) as H0.
      assert (H1 : 0 <= v / 256 < 256) by dlia.
      assert (Hs : is_uint16 (v mod 256 * 256 + v / 256))
        by (unfold is_uint16; change (2 ^ 16) with 65536; lia).
      rewrite (to_uint16_small _ Hs), (swap16_expr_nonneg _ Hs).
      destruct (bytes_sum_16 _ _ H0 H1) as [Hlo Hhi].
      rewrite Hlo. rewrite to_uint16_small
        by (unfold is_uint16; change (2 ^ 16) with 65536; dlia).
      dlia.
  - intros Hv. split.
    + unfold NetworkToHost_i16, HostToNetwork_i16, ntohs, htons.
      rewrite to_uint16_to_int16.
      destruct be.
      * rewrite (to_uint16_small (to_uint16 v)) by apply to_uint16_range.
        apply to_int16_to_uint16. exact Hv.
      * rewrite (to_uint16_small (bswap_16 _)) by apply bswap_16_range.
        rewrite bswap_16_involutive by apply to_uint16_range.
        apply to_int16_to_uint16. exact Hv.
    + intros ->. reflexivity.
  - intros Hv. split.
    + unfold NetworkToHost_u32, HostToNetwork_u32, ntohl, htonl.
      destruct be; [reflexivity|]. apply bswap_32_involutive. exact Hv.
    + unfold LittleEndianToHost_u32, HostToLittleEndian_u32.
      destruct be; [|reflexivity].
      rewrite (_ByteSwap_eq v Hv), _ByteSwap_eq by apply bswap_32_range.
      apply bswap_32_involutive. exact Hv.
  - intros Hv.
    assert (Hu : is_uint32 (to_uint32 v)) by apply to_uint32_range.
    split.
    + unfold NetworkToHost_i32, HostToNetwork_i32, ntohl, htonl.
      rewrite to_uint32_to_int32.
      destruct be.
      * rewrite (to_uint32_small (to_uint32 v)) by exact Hu.
        apply to_int32_of_uint32. exact Hv.
      * rewrite (to_uint32_small (bswap_32 _)) by apply bswap_32_range.
        rewrite bswap_32_involutive by exact Hu.
        apply to_int32_of_uint32. exact Hv.
    + unfold LittleEndianToHost_i32, HostToLittleEndian_i32.
      destruct be; [|reflexivity].
      rewrite to_uint32_to_int32.
      rewrite (_ByteSwap_eq _ Hu).
      rewrite (to_uint32_small (bswap_32 _)) by apply bswap_32_range.
      rewrite _ByteSwap_eq by apply bswap_32_range.
      rewrite bswap_32_involutive by exact Hu.
      apply to_int32_of_uint32. exact Hv.
Qed.

(** Two of the round trips, at [-2] and at [0xC0A80101]. *)
Lemma byte_order_round_trips_witness :
  NetworkToHost_i16 false (HostToNetwork_i16 false (-2)) = -2 /\
  LittleEndianToHost_u32 true (HostToLittleEndian_u32 true 3232235777)
  = 3232235777.
Proof.
  destruct (byte_order_round_trips false (-2)) as (_ & H16 & _).
  destruct (byte_order_round_trips true 3232235777) as (_ & _ & H32 & _).
  assert (Hs : is_int16 (-2)) by (vm_compute; split; [discriminate|reflexivity]).
  assert (Hu : is_uint32 3232235777)
    by (vm_compute; split; [discriminate|reflexivity]).
  split.
  - exact (proj1 (H16 Hs)).
  - exact (proj2 (H32 Hu)).
Defined.

(** ** The routing-table scan *)

Lemma HostToNetwork_address be :
  u32_of_bytes be 192 168 1 1 = HostToNetwork_u32 be 3232235777.
Proof. destruct be; reflexivity. Qed.

(** Claim C1.  When the response holds an entry of family IPv4 in the
    main table whose gateway attribute carries 192.168.1.1, [DefaultRoute]
    returns [true], closes the socket and stores that address in the
    output slot: [HostToNetwork(0xC0A80101)], the [s_addr] whose bytes in
    memory are 192, 168, 1, 1.  The entry may be preceded by entries that
    leave the scan running (outside the main table, or without gateway)
    and followed by any entries; of several gateway attributes in the
    entry the last one is the one returned. *)
Theorem DefaultRoute_returns_gateway
    (be : bool) (os : kernel) (r : read_result)
    (before after : list route_entry) (e : route_entry)
    (pre post : list rtattr) :
  0 <= socket_ret os -> 0 <= send_ret os ->
  receive be os = Ok r ->
  response r (encode_entries be (before ++ e :: after)) ->
  Forall wf_entry (before ++ e :: after) ->
  no_gateway before ->
  in_main_table e = true ->
  rtm_attrs e = pre ++ mkAttr RTA_GATEWAY [192; 168; 1; 1] :: post ->
  (forall a, In a post -> is_gateway a = false) ->
  DefaultRoute be os =
  Ok (mkRoute true (Some (HostToNetwork_u32 be 3232235777)) true
              (read_pending r)).
Proof.
  intros Hsock Hsend Hrecv Hresp Hwf Hbefore Hmain Hattrs Hpost.
  rewrite (DefaultRoute_route_of be os r _ Hsock Hsend Hrecv Hresp Hwf).
  unfold route_of.
  assert (Hgw : has_gateway e = true).
  { unfold has_gateway. rewrite Hmain, Hattrs, existsb_app. simpl.
    apply orb_true_r. }
  rewrite (find_has_gateway_first before e after Hbefore Hgw).
  rewrite Hattrs, last_gateway_last by (reflexivity || assumption).
  cbn [fst snd address_of rta_data]. rewrite HostToNetwork_address.
  reflexivity.
Qed.

(** Claim C1 on a response of one entry with a gateway and an interface
    attribute. *)
Lemma DefaultRoute_returns_gateway_witness :
  DefaultRoute false gateway_kernel = Ok (mkRoute true (Some 16885952) true []).
Proof.
  apply (DefaultRoute_returns_gateway false gateway_kernel
           (mkRead 44 (encode_entries false [gateway_entry]
                       ++ repeat 0 (Z.to_nat (BUFSIZE - 44))) [])
           [] [] gateway_entry [] [mkAttr RTA_OIF [2; 0; 0; 0]]).
  - vm_compute. discriminate.
  - vm_compute. discriminate.
  - vm_compute. reflexivity.
  - split; vm_compute; reflexivity.
  - constructor; [|constructor]. intros _. 
    repeat constructor; vm_compute; try discriminate; try reflexivity; try lia.
  - intros e a [].
  - reflexivity.
  - reflexivity.
  - intros a [<-|[]]. reflexivity.
Defined.

(** Claim C2.  When no entry of the main table carries a gateway
    attribute and at least one of them carries an interface attribute
    ([routeCount > 0]), [DefaultRoute] returns [true] with the address
    0.0.0.0 in the output slot. *)
Theorem DefaultRoute_zero_address_fallback
    (be : bool) (os : kernel) (r : read_result) (es : list route_entry) :
  0 <= socket_ret os -> 0 <= send_ret os ->
  receive be os = Ok r ->
  response r (encode_entries be es) ->
  Forall wf_entry es ->
  no_gateway es ->
  (0 < count_oif es)%nat ->
  DefaultRoute be os = Ok (mkRoute true (Some 0) true (read_pending r)).
Proof.
  intros Hsock Hsend Hrecv Hresp Hwf Hng Hcount.
  rewrite (DefaultRoute_route_of be os r es Hsock Hsend Hrecv Hresp Hwf).
  unfold route_of.
  destruct (find has_gateway es) as [e|] eqn:Ef.
  - apply find_some in Ef. destruct Ef as [Hin Hgw].
    rewrite (no_gateway_has_gateway es Hng e Hin) in Hgw. discriminate.
  - destruct (Nat.ltb_spec 0 (count_oif es)); [reflexivity|lia].
Qed.

(** Claim C2 on a response of one entry with a destination and an
    interface attribute. *)
Lemma DefaultRoute_zero_address_fallback_witness :
  DefaultRoute false interface_kernel = Ok (mkRoute true (Some 0) true []).
Proof.
  apply (DefaultRoute_zero_address_fallback false interface_kernel
           (mkRead 44 (encode_entries false [interface_entry]
                       ++ repeat 0 (Z.to_nat (BUFSIZE - 44))) [])
           [interface_entry]).
  - vm_compute. discriminate.
  - vm_compute. discriminate.
  - vm_compute. reflexivity.
  - split; vm_compute; reflexivity.
  - constructor; [|constructor]. intros _.
    repeat constructor; vm_compute; try discriminate; try reflexivity; try lia.
  - intros e a [<-|[]] _ [<-|[<-|[]]]; reflexivity.
  - vm_compute. lia.
Defined.

Lemma count_oif_outside es :
  (forall e, In e es -> in_main_table e = false) -> count_oif es = 0%nat.
Proof.
  intros H. unfold count_oif.
  replace (filter in_main_table es) with (@nil route_entry); [reflexivity|].
  symmetry. induction es as [|e es IH]; [reflexivity|].
  simpl. rewrite (H e) by (left; reflexivity).
  apply IH. intros e' He'. apply H. right. exact He'.
Qed.

(** Claim C3.  When the response is empty, or every entry in it fails the
    family check or the table check, [DefaultRoute] returns [false] and
    leaves the output slot untouched. *)
Theorem DefaultRoute_no_route_found
    (be : bool) (os : kernel) (r : read_result) (es : list route_entry) :
  0 <= socket_ret os -> 0 <= send_ret os ->
  receive be os = Ok r ->
  response r (encode_entries be es) ->
  (forall e, In e es -> in_main_table e = false) ->
  DefaultRoute be os = Ok (mkRoute false None true (read_pending r)).
Proof.
  intros Hsock Hsend Hrecv Hresp Hout.
  assert (Hwf : Forall wf_entry es).
  { apply Forall_forall. intros e He Hm. rewrite (Hout e He) in Hm. discriminate. }
  rewrite (DefaultRoute_route_of be os r es Hsock Hsend Hrecv Hresp Hwf).
  unfold route_of.
  destruct (find has_gateway es) as [e|] eqn:Ef.
  - apply find_some in Ef. destruct Ef as [Hin Hgw].
    unfold has_gateway in Hgw. rewrite (Hout e Hin) in Hgw. discriminate.
  - rewrite (count_oif_outside es Hout). reflexivity.
Qed.

(** Claim C3 on a response whose only entry belongs to table 255, though it
    carries a gateway and an interface attribute, and on the empty response
    that a dump ending at once leaves. *)
Lemma DefaultRoute_no_route_found_witness :
  DefaultRoute false local_table_kernel = Ok (mkRoute false None true []) /\
  DefaultRoute false (mkKernel 3 77 28 [RecvDatagram done_fragment])
  = Ok (mkRoute false None true []).
Proof.
  split.
  - apply (DefaultRoute_no_route_found false local_table_kernel
             (mkRead 44 (encode_entries false [local_table_entry]
                         ++ repeat 0 (Z.to_nat (BUFSIZE - 44))) [])
             [local_table_entry]).
    + vm_compute. discriminate.
    + vm_compute. discriminate.
    + vm_compute. reflexivity.
    + split; vm_compute; reflexivity.
    + intros e [<-|[]]. reflexivity.
  - apply (DefaultRoute_no_route_found false
             (mkKernel 3 77 28 [RecvDatagram done_fragment])
             (mkRead 0 (after_recv (request_image false 77) 0 done_fragment) [])
             []).
    + vm_compute. discriminate.
    + vm_compute. discriminate.
    + vm_compute. reflexivity.
    + split; vm_compute; reflexivity.
    + intros e [].
Defined.

(** ** Destination attributes *)

Lemma dst_not_gateway a : is_dst a = true -> is_gateway a = false.
Proof.
  unfold is_dst, is_gateway. intros H. apply Z.eqb_eq in H. rewrite H. reflexivity.
Qed.

Lemma dst_not_oif a : is_dst a = true -> is_oif a = false.
Proof.
  unfold is_dst, is_oif. intros H. apply Z.eqb_eq in H. rewrite H. reflexivity.
Qed.

Lemma existsb_gateway_not_dst attrs :
  existsb is_gateway (filter not_dst attrs) = existsb is_gateway attrs.
Proof.
  induction attrs as [|a attrs IH]; [reflexivity|].
  simpl. unfold not_dst at 1. destruct (is_dst a) eqn:Ed; simpl.
  - rewrite (dst_not_gateway a Ed). exact IH.
  - rewrite IH. reflexivity.
Qed.

Lemma last_gateway_not_dst attrs :
  last_gateway (filter not_dst attrs) = last_gateway attrs.
Proof.
  induction attrs as [|a attrs IH]; [reflexivity|].
  simpl. unfold not_dst at 1. destruct (is_dst a) eqn:Ed; simpl.
  - rewrite (dst_not_gateway a Ed), IH. destruct (last_gateway attrs); reflexivity.
  - rewrite IH. reflexivity.
Qed.

Lemma filter_oif_not_dst attrs :
  filter is_oif (filter not_dst attrs) = filter is_oif attrs.
Proof.
  induction attrs as [|a attrs IH]; [reflexivity|].
  simpl. unfold not_dst at 1. destruct (is_dst a) eqn:Ed; simpl.
  - rewrite (dst_not_oif a Ed). exact IH.
  - rewrite IH. reflexivity.
Qed.

Lemma has_gateway_without_dst e : has_gateway (without_dst e) = has_gateway e.
Proof.
  unfold has_gateway, in_main_table, without_dst. cbn [rtm_family rtm_table rtm_attrs].
  rewrite existsb_gateway_not_dst. reflexivity.
Qed.

Lemma find_has_gateway_without_dst es :
  find has_gateway (map without_dst es)
  = option_map without_dst (find has_gateway es).
Proof.
  induction es as [|e es IH]; [reflexivity|].
  simpl. rewrite has_gateway_without_dst.
  destruct (has_gateway e); [reflexivity|exact IH].
Qed.

Lemma count_oif_without_dst es :
  count_oif (map without_dst es) = count_oif es.
Proof.
  apply Nat2Z.inj.
  induction es as [|e es IH]; [reflexivity|].
  cbn [map]. rewrite !count_oif_cons, IH. f_equal.
  unfold oifs_of, oifs, in_main_table, without_dst.
  cbn [rtm_family rtm_table rtm_attrs].
  rewrite filter_oif_not_dst. reflexivity.
Qed.

Lemma route_of_without_dst be es :
  route_of be (map without_dst es) = route_of be es.
Proof.
  unfold route_of.
  rewrite find_has_gateway_without_dst, count_oif_without_dst.
  destruct (find has_gateway es) as [e|]; [|reflexivity].
  cbn [option_map]. unfold without_dst at 1. cbn [rtm_attrs].
  rewrite last_gateway_not_dst. reflexivity.
Qed.

Lemma wf_entry_without_dst e : wf_entry e -> wf_entry (without_dst e).
Proof.
  unfold wf_entry, in_main_table, without_dst. cbn [rtm_family rtm_table rtm_attrs].
  intros H Hm. specialize (H Hm).
  rewrite Forall_forall in *. intros a Ha. apply filter_In in Ha. apply H, Ha.
Qed.

Lemma attrs_effect_found be attrs : forall p st,
  foundDefaultRoute (attrs_effect be p attrs st)
  = foundDefaultRoute st || existsb is_gateway attrs.
Proof.
  induction attrs as [|a attrs IH]; intros p st.
  - simpl. rewrite orb_false_r. reflexivity.
  - cbn [attrs_effect existsb]. rewrite IH. unfold attr_effect.
    destruct (is_oif a) eqn:Eo.
    + assert (is_gateway a = false) as ->.
      { unfold is_oif, is_gateway in *. apply Z.eqb_eq in Eo. rewrite Eo. reflexivity. }
      reflexivity.
    + destruct (is_gateway a); cbn [foundDefaultRoute orb].
      * rewrite orb_true_r. reflexivity.
      * reflexivity.
Qed.

(** Claim C8.  Scanning the attributes of an entry sets the found-default
    flag exactly when one of them is a gateway attribute, whatever the
    destination attributes hold; and two responses that differ only in
    their destination attributes (present or absent, 0.0.0.0 or not) make
    [DefaultRoute] return the same value and the same address. *)
Theorem destination_attribute_is_ignored (be : bool) :
  (forall m p tail attrs st fuel,
      0 <= p ->
      skipn (Z.to_nat p) m = encode_rtattrs be attrs ++ tail ->
      Forall wf_rtattr attrs ->
      Z.of_nat (length (encode_rtattrs be attrs)) < 2 ^ 31 ->
      (length attrs <= fuel)%nat ->
      exists st',
        scan_attrs be fuel m p (Z.of_nat (length (encode_rtattrs be attrs))) st
        = Ok st' /\
        foundDefaultRoute st'
        = foundDefaultRoute st || existsb is_gateway attrs)
  /\
  (forall os os' r r' es es',
      0 <= socket_ret os -> 0 <= send_ret os ->
      0 <= socket_ret os' -> 0 <= send_ret os' ->
      receive be os = Ok r -> receive be os' = Ok r' ->
      response r (encode_entries be es) ->
      response r' (encode_entries be es') ->
      Forall wf_entry es -> Forall wf_entry es' ->
      map without_dst es = map without_dst es' ->
      exists ok route,
        DefaultRoute be os = Ok (mkRoute ok route true (read_pending r)) /\
        DefaultRoute be os' = Ok (mkRoute ok route true (read_pending r'))).
Proof.
  split.
  - intros m p tail attrs st fuel Hp Hm Hwf Hlen Hfuel.
    exists (attrs_effect be p attrs st). split.
    + apply scan_attrs_encoded with (tail := tail); assumption.
    + apply attrs_effect_found.
  - intros os os' r r' es es' Hs1 Hs2 Hs1' Hs2' Hr Hr' Hresp Hresp' Hwf Hwf' Heq.
    exists (fst (route_of be es)), (snd (route_of be es)). split.
    + apply DefaultRoute_route_of; assumption.
    + rewrite <- (route_of_without_dst be es), Heq, route_of_without_dst.
      apply DefaultRoute_route_of; assumption.
Qed.

(** Claim C8 on an entry with destination 0.0.0.0 and no gateway: the flag
    stays clear, and the result is that of the same entry without the
    destination attribute. *)
Lemma destination_attribute_is_ignored_witness :
  (exists st',
      scan_attrs false 2 (encode_entries false [default_destination_entry]) 28 16
                 (mkScan 0 false NewInAddr) = Ok st' /\
      foundDefaultRoute st' = false) /\
  (exists ok route,
      DefaultRoute false default_destination_kernel
      = Ok (mkRoute ok route true []) /\
      DefaultRoute false no_destination_kernel = Ok (mkRoute ok route true [])).
Proof.
  destruct (destination_attribute_is_ignored false) as [Hflag Hresult].
  split.
  - apply (Hflag (encode_entries false [default_destination_entry]) 28 []
                 (rtm_attrs default_destination_entry)
                 (mkScan 0 false NewInAddr) 2%nat).
    + lia.
    + vm_compute. reflexivity.
    + repeat constructor; vm_compute; try discriminate; try reflexivity; try lia.
    + vm_compute. reflexivity.
    + simpl. lia.
  - apply (Hresult default_destination_kernel no_destination_kernel
             (mkRead 44 (encode_entries false [default_destination_entry]
                         ++ repeat 0 (Z.to_nat (BUFSIZE - 44))) [])
             (mkRead 36 (encode_entries false [no_destination_entry]
                         ++ repeat 0 (Z.to_nat (BUFSIZE - 36))) [])
             [default_destination_entry] [no_destination_entry]).
    + vm_compute. discriminate.
    + vm_compute. discriminate.
    + vm_compute. discriminate.
    + vm_compute. discriminate.
    + vm_compute. reflexivity.
    + vm_compute. reflexivity.
    + split; vm_compute; reflexivity.
    + split; vm_compute; reflexivity.
    + constructor; [|constructor]. intros _.
      repeat constructor; vm_compute; try discriminate; try reflexivity; try lia.
    + constructor; [|constructor]. intros _.
      repeat constructor; vm_compute; try discriminate; try reflexivity; try lia.
    + vm_compute. reflexivity.
Defined.

(** ** Sending the request *)

(** Claim C6 as stated fails: a [send] that reports 10 of the 28 bytes of
    the request is not taken for an error, and the call goes on to return
    the gateway. *)
Lemma DefaultRoute_short_send_succeeds :
  0 <= 10 < NLMSG_LENGTH sizeof_rtmsg /\
  DefaultRoute false
    (mkKernel 3 77 10 [RecvDatagram (encode_entries false [gateway_entry])])
  = Ok (mkRoute true (Some (HostToNetwork_u32 false 3232235777)) true []).
Proof. split; [vm_compute; split; (discriminate || reflexivity)|vm_compute; reflexivity]. Qed.

(** Claim C6, amended.  [DefaultRoute] gives up after [send] exactly when
    [send] returns a negative value: the socket is closed, [false] is
    returned and nothing is received.  On every other return value, a
    short count included, the call proceeds as it does after a complete
    write of the request. *)
Theorem DefaultRoute_send_result (be : bool) (os : kernel) :
  0 <= socket_ret os ->
  (send_ret os < 0 ->
   DefaultRoute be os = Ok (mkRoute false None true (recv_rets os))) /\
  (0 <= send_ret os ->
   DefaultRoute be os =
   DefaultRoute be (mkKernel (socket_ret os) (getpid_ret os)
                             (NLMSG_LENGTH sizeof_rtmsg) (recv_rets os))).
Proof.
  intros Hsock. split; intros Hsend.
  - unfold DefaultRoute.
    destruct (Z.ltb_spec (socket_ret os) 0); [lia|].
    rewrite request_msg_image. cbn [bind].
    destruct (Z.ltb_spec (send_ret os) 0); [reflexivity|lia].
  - rewrite !DefaultRoute_received; cbn [socket_ret send_ret]; try assumption.
    + reflexivity.
    + vm_compute. discriminate.
Qed.

(** Claim C6, amended, at a [send] returning [-1] and at one returning
    [10]. *)
Lemma DefaultRoute_send_result_witness :
  DefaultRoute false
    (mkKernel 3 77 (-1) [RecvDatagram (encode_entries false [gateway_entry])])
  = Ok (mkRoute false None true
                [RecvDatagram (encode_entries false [gateway_entry])]) /\
  DefaultRoute false
    (mkKernel 3 77 10 [RecvDatagram (encode_entries false [gateway_entry])])
  = DefaultRoute false gateway_kernel.
Proof.
  split.
  - apply (DefaultRoute_send_result false
             (mkKernel 3 77 (-1)
                       [RecvDatagram (encode_entries false [gateway_entry])])).
    + vm_compute. discriminate.
    + vm_compute. reflexivity.
  - apply (DefaultRoute_send_result false
             (mkKernel 3 77 10
                       [RecvDatagram (encode_entries false [gateway_entry])])).
    + vm_compute. discriminate.
    + vm_compute. discriminate.
Defined.

(** ** The receive loop *)

Lemma header_of_received be d room :
  16 <= Z.of_nat (length (received d room)) ->
  header_of be (received d room) = header_of be d.
Proof.
  intros H. unfold received in *.
  rewrite <- (firstn_skipn (Z.to_nat room) d) at 2.
  unfold header_of, off_nlmsg_len, off_nlmsg_type, off_nlmsg_flags,
    off_nlmsg_seq, off_nlmsg_pid.
  rewrite !load32_app_l, !load16_app_l by lia. reflexivity.
Qed.

(** Claim C7.  In every state of the receive loop, a fragment whose
    envelope fails the length check (fewer than sixteen bytes received, a
    declared length below sixteen or above the bytes received) or whose
    type is [NLMSG_ERROR] makes [ReadNetlinkSocket] return [-1] with no
    further [recv]; so does, in particular, a fragment whose declared
    length exceeds the room left in the buffer.  [DefaultRoute] answers a
    negative result by closing the socket and returning [false]. *)
Theorem ReadNetlinkSocket_aborts_on_bad_envelope (be : bool) :
  (forall d script m buf bufsize seq pid msglen h,
      loop_ready m buf bufsize msglen ->
      let got := received d (bufsize - msglen) in
      let readlen := Z.of_nat (length got) in
      (16 <= readlen -> header_of be got = Ok h) ->
      envelope_ok h readlen = false \/ hdr_type h = NLMSG_ERROR ->
      ReadNetlinkLoop be (RecvDatagram d :: script) m buf bufsize seq pid msglen
      = Ok (mkRead (-1) (after_recv m buf got) script))
  /\
  (forall d script m buf bufsize seq pid msglen h,
      loop_ready m buf bufsize msglen ->
      header_of be d = Ok h ->
      bufsize - msglen < hdr_len h ->
      ReadNetlinkLoop be (RecvDatagram d :: script) m buf bufsize seq pid msglen
      = Ok (mkRead (-1) (after_recv m buf (received d (bufsize - msglen)))
                   script))
  /\
  (forall os r,
      0 <= socket_ret os -> 0 <= send_ret os ->
      receive be os = Ok r -> read_ret r < 0 ->
      DefaultRoute be os = Ok (mkRoute false None true (read_pending r))).
Proof.
  assert (Hbad : forall d script m buf bufsize seq pid msglen h,
      loop_ready m buf bufsize msglen ->
      let got := received d (bufsize - msglen) in
      let readlen := Z.of_nat (length got) in
      (16 <= readlen -> header_of be got = Ok h) ->
      envelope_ok h readlen = false \/ hdr_type h = NLMSG_ERROR ->
      ReadNetlinkLoop be (RecvDatagram d :: script) m buf bufsize seq pid msglen
      = Ok (mkRead (-1) (after_recv m buf got) script)).
  { intros d script m buf bufsize seq pid msglen h Hready got readlen Hh Hbad.
    rewrite (ReadNetlinkLoop_step be d script m buf bufsize seq pid msglen h Hready Hh).
    fold got. fold readlen.
    destruct (envelope_ok h readlen); cbn [negb]; [|reflexivity].
    destruct Hbad as [Hbad| ->]; [discriminate|reflexivity]. }
  split; [exact Hbad|]. split.
  - intros d script m buf bufsize seq pid msglen h Hready Hh Hlong.
    apply Hbad with (h := h); [exact Hready| |].
    + intros H16. rewrite header_of_received by exact H16. exact Hh.
    + left. pose proof Hready as (_ & ? & ? & _).
      rewrite length_received by lia. unfold envelope_ok.
      replace (hdr_len h <=? Z.min (Z.of_nat (length d)) (bufsize - msglen))
        with false by (symmetry; apply Z.leb_gt; lia).
      apply andb_false_r.
  - intros os r Hsock Hsend Hr Hneg.
    rewrite DefaultRoute_received, Hr by assumption. cbn [bind].
    destruct (Z.ltb_spec (read_ret r) 0); [reflexivity|lia].
Qed.

(** Claim C7 at a fragment of type [NLMSG_ERROR], at a fragment of 44
    bytes met with 32 bytes of room, and in [DefaultRoute]. *)
Lemma ReadNetlinkSocket_aborts_on_bad_envelope_witness :
  (exists m',
      ReadNetlinkLoop false [RecvDatagram error_fragment]
                      (request_image false 77) 0 BUFSIZE 0 77 0
      = Ok (mkRead (-1) m' [])) /\
  (exists m',
      ReadNetlinkLoop false
                      [RecvDatagram (encode_entries false [gateway_entry])]
                      (request_image false 77) 8160 BUFSIZE 0 77 8160
      = Ok (mkRead (-1) m' [])) /\
  DefaultRoute false error_kernel
  = Ok (mkRoute false None true
                [RecvDatagram (encode_entries false [gateway_entry])]).
Proof.
  destruct (ReadNetlinkSocket_aborts_on_bad_envelope false) as (Hbad & Hcap & Hroute).
  split; [|split].
  - eexists.
    apply (Hbad error_fragment [] (request_image false 77) 0 BUFSIZE 0 77 0
                (mkHdr 36 NLMSG_ERROR 0 0 77)).
    + vm_compute. repeat split; discriminate.
    + intros _. vm_compute. reflexivity.
    + right. reflexivity.
  - eexists.
    apply (Hcap (encode_entries false [gateway_entry]) []
                (request_image false 77) 8160 BUFSIZE 0 77 8160
                (mkHdr 44 RTM_NEWROUTE NLM_F_MULTI 0 77)).
    + vm_compute. repeat split; discriminate.
    + vm_compute. reflexivity.
    + vm_compute. reflexivity.
  - apply (Hroute error_kernel
             (mkRead (-1) (after_recv (request_image false 77) 0 error_fragment)
                     [RecvDatagram (encode_entries false [gateway_entry])])).
    + vm_compute. discriminate.
    + vm_compute. discriminate.
    + vm_compute. reflexivity.
    + vm_compute. reflexivity.
Defined.

(** Claim C10.  A fragment with a valid envelope of type [NLMSG_DONE]
    ends the loop with the count accumulated before it, the bytes of the
    fragment not included; when it is the first fragment,
    [ReadNetlinkSocket] returns 0. *)
Theorem ReadNetlinkSocket_excludes_end_of_dump (be : bool) :
  (forall d script m buf bufsize seq pid msglen h,
      loop_ready m buf bufsize msglen ->
      let got := received d (bufsize - msglen) in
      let readlen := Z.of_nat (length got) in
      header_of be got = Ok h ->
      envelope_ok h readlen = true ->
      hdr_type h = NLMSG_DONE ->
      ReadNetlinkLoop be (RecvDatagram d :: script) m buf bufsize seq pid msglen
      = Ok (mkRead msglen (after_recv m buf got) script))
  /\
  (forall d script m buf bufsize seq pid h,
      loop_ready m buf bufsize 0 ->
      let got := received d bufsize in
      let readlen := Z.of_nat (length got) in
      header_of be got = Ok h ->
      envelope_ok h readlen = true ->
      hdr_type h = NLMSG_DONE ->
      ReadNetlinkSocket be (RecvDatagram d :: script) m buf bufsize seq pid
      = Ok (mkRead 0 (after_recv m buf got) script)).
Proof.
  assert (Hdone : forall d script m buf bufsize seq pid msglen h,
      loop_ready m buf bufsize msglen ->
      let got := received d (bufsize - msglen) in
      let readlen := Z.of_nat (length got) in
      header_of be got = Ok h ->
      envelope_ok h readlen = true ->
      hdr_type h = NLMSG_DONE ->
      ReadNetlinkLoop be (RecvDatagram d :: script) m buf bufsize seq pid msglen
      = Ok (mkRead msglen (after_recv m buf got) script)).
  { intros d script m buf bufsize seq pid msglen h Hready got readlen Hh Hok Hty.
    rewrite (ReadNetlinkLoop_step be d script m buf bufsize seq pid msglen h Hready)
      by (intros _; exact Hh).
    fold got. fold readlen. rewrite Hok, Hty. reflexivity. }
  split; [exact Hdone|].
  intros d script m buf bufsize seq pid h Hready got readlen Hh Hok Hty.
  unfold ReadNetlinkSocket. subst got readlen.
  pose proof (Hdone d script m buf bufsize seq pid 0 h Hready) as H.
  cbv zeta in H. rewrite Z.sub_0_r in H. apply H; assumption.
Qed.

(** Claim C10 at an end-of-dump fragment met after 44 bytes, and met
    first. *)
Lemma ReadNetlinkSocket_excludes_end_of_dump_witness :
  (exists m',
      ReadNetlinkLoop false [RecvDatagram done_fragment]
                      (request_image false 77) 44 BUFSIZE 5 77 44
      = Ok (mkRead 44 m' [])) /\
  (exists m',
      ReadNetlinkSocket false [RecvDatagram done_fragment]
                        (request_image false 77) 0 BUFSIZE 0 77
      = Ok (mkRead 0 m' [])).
Proof.
  destruct (ReadNetlinkSocket_excludes_end_of_dump false) as (Hloop & Hfirst).
  split.
  - eexists.
    apply (Hloop done_fragment [] (request_image false 77) 44 BUFSIZE 5 77 44
                 (mkHdr 20 NLMSG_DONE NLM_F_MULTI 0 77)).
    + vm_compute. repeat split; discriminate.
    + vm_compute. reflexivity.
    + vm_compute. reflexivity.
    + reflexivity.
  - eexists.
    apply (Hfirst done_fragment [] (request_image false 77) 0 BUFSIZE 0 77
                  (mkHdr 20 NLMSG_DONE NLM_F_MULTI 0 77)).
    + vm_compute. repeat split; discriminate.
    + vm_compute. reflexivity.
    + vm_compute. reflexivity.
    + reflexivity.
Defined.

(** Claim C4 as stated fails: a fragment that is not of the end-of-dump
    type, carries the multi-part flag and leaves room in the buffer still
    ends the loop, because its sequence number and process identifier are
    those of the request; the fragment that follows is never received. *)
Lemma ReadNetlinkSocket_stops_on_answering_fragment :
  exists h m',
    header_of false (encode_entries false [gateway_entry]) = Ok h /\
    hdr_type h <> NLMSG_DONE /\
    Z.land (hdr_flags h) NLM_F_MULTI <> 0 /\
    Z.of_nat (length (encode_entries false [gateway_entry])) < BUFSIZE /\
    ReadNetlinkSocket false
      [RecvDatagram (encode_entries false [gateway_entry]);
       RecvDatagram done_fragment]
      (request_image false 77) 0 BUFSIZE 0 77
    = Ok (mkRead 44 m' [RecvDatagram done_fragment]).
Proof.
  exists (mkHdr 44 RTM_NEWROUTE NLM_F_MULTI 0 77). eexists.
  split; [vm_compute; reflexivity|].
  split; [vm_compute; discriminate|].
  split; [vm_compute; discriminate|].
  split; [vm_compute; reflexivity|].
  vm_compute. reflexivity.
Qed.

Lemma after_recv_nil m buf : after_recv m buf [] = m.
Proof.
  unfold after_recv. cbn [app length]. rewrite Nat.add_0_r. apply firstn_skipn.
Qed.

(** Claim C4, amended.  An iteration of the receive loop ends the call
    when [recv] fails, when the envelope of the fragment fails the length
    check (as it does once the buffer is full, the datagram being cut to
    no bytes) or is of type [NLMSG_ERROR], all three returning [-1]; when
    the type is [NLMSG_DONE]; when the multi-part flag is absent; and when
    the sequence number and the process identifier of a multi-part
    fragment both equal those of the request.  A multi-part fragment whose
    sequence number or process identifier differs from the request is
    taken into the buffer and the loop goes on to the next [recv]. *)
Theorem ReadNetlinkLoop_termination (be : bool) :
  (forall script m buf bufsize seq pid msglen,
      ReadNetlinkLoop be (RecvError :: script) m buf bufsize seq pid msglen
      = Ok (mkRead (-1) m script))
  /\
  (forall d script m buf bufsize seq pid,
      loop_ready m buf bufsize bufsize ->
      ReadNetlinkLoop be (RecvDatagram d :: script) m buf bufsize seq pid bufsize
      = Ok (mkRead (-1) m script))
  /\
  (forall d script m buf bufsize seq pid msglen h,
      loop_ready m buf bufsize msglen ->
      let got := received d (bufsize - msglen) in
      let readlen := Z.of_nat (length got) in
      let m' := after_recv m buf got in
      let loop := ReadNetlinkLoop be (RecvDatagram d :: script) m buf bufsize
                                  seq pid msglen in
      (16 <= readlen -> header_of be got = Ok h) ->
      (envelope_ok h readlen = false -> loop = Ok (mkRead (-1) m' script)) /\
      (envelope_ok h readlen = true ->
       (hdr_type h = NLMSG_ERROR -> loop = Ok (mkRead (-1) m' script)) /\
       (hdr_type h = NLMSG_DONE -> loop = Ok (mkRead msglen m' script)) /\
       (hdr_type h <> NLMSG_ERROR -> hdr_type h <> NLMSG_DONE ->
        (Z.land (hdr_flags h) NLM_F_MULTI = 0 ->
         loop = Ok (mkRead (msglen + readlen) m' script)) /\
        (Z.land (hdr_flags h) NLM_F_MULTI <> 0 ->
         (to_int32 (hdr_seq h) = seq /\ to_int32 (hdr_pid h) = pid ->
          loop = Ok (mkRead (msglen + readlen) m' script)) /\
         (to_int32 (hdr_seq h) <> seq \/ to_int32 (hdr_pid h) <> pid ->
          loop = ReadNetlinkLoop be script m' (buf + readlen) bufsize seq pid
                                 (msglen + readlen)))))).
Proof.
  split; [reflexivity|]. split.
  - intros d script m buf bufsize seq pid Hready.
    rewrite (ReadNetlinkLoop_step be d script m buf bufsize seq pid bufsize
               (mkHdr 0 0 0 0 0) Hready).
    + rewrite Z.sub_diag. unfold received. cbn [Z.to_nat firstn length].
      rewrite after_recv_nil. reflexivity.
    + rewrite Z.sub_diag. unfold received. cbn [Z.to_nat firstn length]. lia.
  - intros d script m buf bufsize seq pid msglen h Hready got readlen m' loop Hh.
    subst loop.
    rewrite (ReadNetlinkLoop_step be d script m buf bufsize seq pid msglen h Hready Hh).
    fold got. fold readlen. fold m'.
    split; [intros ->; reflexivity|]. intros ->. cbn [negb].
    split; [intros ->; reflexivity|].
    split; [intros ->; reflexivity|].
    intros Herr Hdone.
    apply Z.eqb_neq in Herr. apply Z.eqb_neq in Hdone. rewrite Herr, Hdone.
    split; [intros ->; reflexivity|].
    intros Hmulti. apply Z.eqb_neq in Hmulti. rewrite Hmulti.
    split.
    + intros [Hseq Hpid]. apply Z.eqb_eq in Hseq. apply Z.eqb_eq in Hpid.
      rewrite Hseq, Hpid. reflexivity.
    + intros [Hseq|Hpid].
      * apply Z.eqb_neq in Hseq. rewrite Hseq. reflexivity.
      * apply Z.eqb_neq in Hpid. rewrite Hpid, andb_false_r. reflexivity.
Qed.

(** Claim C4, amended, at a full buffer and at a multi-part fragment with
    sequence number 9 where the request has 0. *)
Lemma ReadNetlinkLoop_termination_witness :
  (exists m',
      ReadNetlinkLoop false [RecvDatagram error_fragment]
                      (request_image false 77) 8192 BUFSIZE 0 77 8192
      = Ok (mkRead (-1) m' [])) /\
  ReadNetlinkLoop false
    [RecvDatagram foreign_fragment; RecvDatagram done_fragment]
    (request_image false 77) 0 BUFSIZE 0 77 0
  = ReadNetlinkLoop false [RecvDatagram done_fragment]
      (after_recv (request_image false 77) 0 foreign_fragment)
      36 BUFSIZE 0 77 36.
Proof.
  destruct (ReadNetlinkLoop_termination false) as (_ & Hfull & Hfrag).
  split.
  - eexists.
    apply (Hfull error_fragment [] (request_image false 77) 8192 BUFSIZE 0 77).
    vm_compute. repeat split; discriminate.
  - apply (Hfrag foreign_fragment [RecvDatagram done_fragment]
                 (request_image false 77) 0 BUFSIZE 0 77 0
                 (mkHdr 36 RTM_NEWROUTE NLM_F_MULTI 9 77)).
    + vm_compute. repeat split; discriminate.
    + intros _. vm_compute. reflexivity.
    + vm_compute. reflexivity.
    + vm_compute. discriminate.
    + vm_compute. discriminate.
    + vm_compute. discriminate.
    + left. vm_compute. discriminate.
Defined.

(** * Further properties of the code *)

(** ** Byte order: the bytes in memory *)

Lemma small_byte x : 0 <= x < 256 -> x mod 256 = x.
Proof. intros. apply Z.mod_small. lia. Qed.

(** The bytes that a converted value occupies in the memory of the host. *)
Theorem conversions_fix_the_bytes_in_memory (be : bool) (v : Z) :
  (is_uint16 v ->
   bytes_of_u16 be (HostToNetwork_u16 be v) = [v / 256; v mod 256] /\
   bytes_of_u16 be (HostToLittleEndian_u16 be v) = [v mod 256; v / 256]) /\
  (is_uint32 v ->
   bytes_of_u32 be (HostToNetwork_u32 be v)
   = [v / 16777216; v / 65536 mod 256; v / 256 mod 256; v mod 256] /\
   bytes_of_u32 be (HostToLittleEndian_u32 be v)
   = [v mod 256; v / 256 mod 256; v / 65536 mod 256; v / 16777216]).
Proof.
  split.
  - unfold is_uint16. change (2 ^ 16) with 65536. intros Hv.
    assert (Hhi : 0 <= v / 256 < 256) by dlia.
    pose proof (byte_range_0 v) as Hlo.
    unfold HostToNetwork_u16, htons, HostToLittleEndian_u16, bytes_of_u16.
    destruct be.
    + rewrite (small_byte (v / 256)) by exact Hhi. split; [reflexivity|].
      rewrite swap16_expr_nonneg by (unfold is_uint16; change (2 ^ 16) with 65536; lia).
      rewrite to_uint16_small
        by (unfold is_uint16; change (2 ^ 16) with 65536; lia).
      destruct (bytes_sum_16 _ _ Hlo Hhi) as [E1 E0]. rewrite E1, E0. reflexivity.
    + rewrite (small_byte (v / 256)) by exact Hhi. split; [|reflexivity].
      rewrite bswap_16_eq. rewrite (small_byte (v / 256)) by exact Hhi.
      destruct (bytes_sum_16 _ _ Hlo Hhi) as [E1 E0]. rewrite E1, E0. reflexivity.
  - unfold is_uint32. change (2 ^ 32) with 4294967296. intros Hv.
    assert (H3 : 0 <= v / 16777216 < 256) by dlia.
    pose proof (byte_range_0 v) as H0.
    pose proof (byte_range v 256) as H1.
    pose proof (byte_range v 65536) as H2.
    unfold HostToNetwork_u32, htonl, HostToLittleEndian_u32, bytes_of_u32.
    destruct be.
    + rewrite (small_byte (v / 16777216)) by exact H3. split; [reflexivity|].
      rewrite _ByteSwap_eq by (unfold is_uint32; change (2 ^ 32) with 4294967296; lia).
      rewrite bswap_32_eq. rewrite (small_byte (v / 16777216)) by exact H3.
      destruct (bytes_sum_32 _ _ _ _ H0 H1 H2 H3) as (E3 & E2 & E1 & E0).
      rewrite E3, E2, E1, E0. reflexivity.
    + rewrite (small_byte (v / 16777216)) by exact H3. split; [|reflexivity].
      rewrite bswap_32_eq. rewrite (small_byte (v / 16777216)) by exact H3.
      destruct (bytes_sum_32 _ _ _ _ H0 H1 H2 H3) as (E3 & E2 & E1 & E0).
      rewrite E3, E2, E1, E0. reflexivity.
Qed.

(** The bytes of port 6454 in network order on a little-endian host, and of
    [0xC0A80101] in little-endian order on a big-endian host. *)
Lemma conversions_fix_the_bytes_in_memory_witness :
  bytes_of_u16 false (HostToNetwork_u16 false 6454) = [25; 54] /\
  bytes_of_u32 true (HostToLittleEndian_u32 true 3232235777) = [1; 1; 168; 192].
Proof.
  destruct (conversions_fix_the_bytes_in_memory false 6454) as (H16 & _).
  destruct (conversions_fix_the_bytes_in_memory true 3232235777) as (_ & H32).
  assert (Hs : is_uint16 6454) by (vm_compute; split; [discriminate|reflexivity]).
  assert (Hu : is_uint32 3232235777)
    by (vm_compute; split; [discriminate|reflexivity]).
  split.
  - exact (proj1 (H16 Hs)).
  - exact (proj2 (H32 Hu)).
Defined.

(** Reading: the value that a conversion makes of the bytes in memory. *)
Theorem conversions_read_the_bytes_in_memory (be : bool) (b0 b1 b2 b3 : Z) :
  is_uint8 b0 -> is_uint8 b1 -> is_uint8 b2 -> is_uint8 b3 ->
  NetworkToHost_u16 be (u16_of_bytes be b0 b1) = 256 * b0 + b1 /\
  LittleEndianToHost_u16 be (u16_of_bytes be b0 b1) = b0 + 256 * b1 /\
  NetworkToHost_u32 be (u32_of_bytes be b0 b1 b2 b3)
  = 16777216 * b0 + 65536 * b1 + 256 * b2 + b3 /\
  LittleEndianToHost_u32 be (u32_of_bytes be b0 b1 b2 b3)
  = b0 + 256 * b1 + 65536 * b2 + 16777216 * b3.
Proof.
  unfold is_uint8. change (2 ^ 8) with 256. intros H0 H1 H2 H3.
  unfold NetworkToHost_u16, NetworkToHost_u32, ntohs, ntohl,
    LittleEndianToHost_u16, LittleEndianToHost_u32, u16_of_bytes, u32_of_bytes.
  destruct be.
  - split; [reflexivity|]. split.
    + rewrite swap16_expr_nonneg
        by (unfold is_uint16; change (2 ^ 16) with 65536; lia).
      replace (256 * b0 + b1) with (b0 * 256 + b1) by lia.
      destruct (bytes_sum_16 _ _ H0 H1) as [E1 E0].
      rewrite E1. replace ((b0 * 256 + b1) / 256) with b0 by dlia.
      rewrite to_uint16_small
        by (unfold is_uint16; change (2 ^ 16) with 65536; lia).
      lia.
    + split; [reflexivity|].
      rewrite _ByteSwap_eq
        by (unfold is_uint32; change (2 ^ 32) with 4294967296; lia).
      rewrite bswap_32_eq.
      replace (16777216 * b0 + 65536 * b1 + 256 * b2 + b3)
        with (b0 * 16777216 + b1 * 65536 + b2 * 256 + b3) by lia.
      destruct (bytes_sum_32 _ _ _ _ H0 H1 H2 H3) as (E3 & E2 & E1 & E0).
      rewrite E3, E2, E1, E0. lia.
  - split.
    + rewrite bswap_16_eq.
      replace (b0 + 256 * b1) with (b1 * 256 + b0) by lia.
      destruct (bytes_sum_16 _ _ H1 H0) as [E1 E0]. rewrite E1, E0. lia.
    + split; [reflexivity|]. split; [|reflexivity].
      rewrite bswap_32_eq.
      replace (b0 + 256 * b1 + 65536 * b2 + 16777216 * b3)
        with (b3 * 16777216 + b2 * 65536 + b1 * 256 + b0) by lia.
      destruct (bytes_sum_32 _ _ _ _ H3 H2 H1 H0) as (E3 & E2 & E1 & E0).
      rewrite E3, E2, E1, E0. lia.
Qed.

(** The address 192.168.1.1 read on a little-endian host, and the bytes
    54, 25 read as a little-endian number on a big-endian host. *)
Lemma conversions_read_the_bytes_in_memory_witness :
  NetworkToHost_u32 false (u32_of_bytes false 192 168 1 1) = 3232235777 /\
  LittleEndianToHost_u16 true (u16_of_bytes true 54 25) = 6454.
Proof.
  assert (Hb : forall b, (0 <=? b) && (b <? 256) = true -> is_uint8 b).
  { intros b H. apply andb_true_iff in H. destruct H as [Hl Hu].
    apply Z.leb_le in Hl. apply Z.ltb_lt in Hu. unfold is_uint8.
    change (2 ^ 8) with 256. lia. }
  destruct (conversions_read_the_bytes_in_memory false 192 168 1 1)
    as (_ & _ & H32 & _); try (apply Hb; reflexivity).
  destruct (conversions_read_the_bytes_in_memory true 54 25 0 0)
    as (_ & H16 & _); try (apply Hb; reflexivity).
  split; [exact H32|exact H16].
Defined.

(** On a big-endian host the [int16_t] round trip through little-endian
    order returns its argument for the values whose two bytes both have
    the top bit clear, and for [-1]; for no other. *)
Theorem LittleEndian_int16_round_trip_iff (v : Z) :
  is_int16 v ->
  (LittleEndianToHost_i16 true (HostToLittleEndian_i16 true v) = v <->
   v = -1 \/ (0 <= v /\ v mod 256 < 128)).
Proof.
  intros Hv. pose proof Hv as Hr. unfold is_int16 in Hr.
  change (2 ^ 15) with 32768 in Hr.
  destruct (Z_lt_le_dec v 0) as [Hneg|Hpos].
  - (* negative: the result is -1 *)
    assert (Hq : is_int16 (v / 256))
      by (unfold is_int16; change (2 ^ 15) with 32768; dlia).
    assert (Hqneg : v / 256 < 0) by dlia.
    assert (E : LittleEndianToHost_i16 true (HostToLittleEndian_i16 true v) = -1).
    { unfold HostToLittleEndian_i16, LittleEndianToHost_i16.
      rewrite (swap16_expr_negative v Hv Hneg), (to_int16_small _ Hq).
      rewrite (swap16_expr_negative _ Hq Hqneg).
      replace (v / 256 / 256) with (-1) by dlia. reflexivity. }
    rewrite E. split; [intros <-; left; reflexivity|].
    intros [->|[H _]]; [reflexivity|lia].
  - assert (Hu : is_uint16 v)
      by (unfold is_uint16; change (2 ^ 16) with 65536; lia).
    pose proof (byte_range_0 v) as Hlo.
    assert (Hhi : 0 <= v / 256 < 128) by dlia.
    set (lo := v mod 256) in *. set (hi := v / 256) in *.
    assert (Ev : v = hi * 256 + lo) by (subst lo hi; dlia).
    unfold HostToLittleEndian_i16.
    rewrite (swap16_expr_nonneg v Hu). fold lo. fold hi.
    clearbody lo hi.
    destruct (Z_lt_le_dec lo 128) as [Hsmall|Hbig].
    + assert (Hw : is_int16 (lo * 256 + hi))
        by (unfold is_int16; change (2 ^ 15) with 32768; lia).
      rewrite (to_int16_small _ Hw). unfold LittleEndianToHost_i16.
      rewrite swap16_expr_nonneg
        by (unfold is_uint16; change (2 ^ 16) with 65536; lia).
      assert (Hhi' : 0 <= hi < 256) by lia.
      destruct (bytes_sum_16 _ _ Hlo Hhi') as [E1 E0]. rewrite E1.
      replace ((lo * 256 + hi) / 256) with lo by (clear - Hlo Hhi'; dlia).
      rewrite to_int16_small
        by (unfold is_int16; change (2 ^ 15) with 32768; lia).
      split; [intros _; right; lia|intros _; lia].
    + assert (Ew : to_int16 (lo * 256 + hi) = lo * 256 + hi - 65536).
      { unfold to_int16, to_signed. change (2 ^ 16) with 65536.
        change (2 ^ (16 - 1)) with 32768. clear - Hlo Hhi Hbig. dlia. }
      rewrite Ew. unfold LittleEndianToHost_i16.
      assert (Hw : is_int16 (lo * 256 + hi - 65536))
        by (unfold is_int16; change (2 ^ 15) with 32768; lia).
      rewrite (swap16_expr_negative _ Hw) by lia.
      replace ((lo * 256 + hi - 65536) / 256) with (lo - 256)
        by (clear - Hlo Hhi; dlia).
      rewrite to_int16_small
        by (unfold is_int16; change (2 ^ 15) with 32768; lia).
      split; [lia|intros [H|[_ H]]; lia].
Qed.

(** At 128 ([0x0080]) the round trip fails although the value is not
    negative: the low byte has its top bit set. *)
Lemma LittleEndian_int16_round_trip_iff_witness :
  LittleEndianToHost_i16 true (HostToLittleEndian_i16 true 128) = 128 <->
  128 = -1 \/ (0 <= 128 /\ 128 mod 256 < 128).
Proof.
  apply (LittleEndian_int16_round_trip_iff 128).
  vm_compute. split; [discriminate|reflexivity].
Defined.

(** ** Host names, for every string *)

Lemma HostnameFromFQDN_dot h d :
  (forall i, String.get i h <> Some "."%char) ->
  HostnameFromFQDN (h ++ String "." d) = Some h.
Proof.
  intros Hh. unfold HostnameFromFQDN.
  rewrite (find_first_of_dot h d Hh). unfold substr.
  rewrite length_append_dot.
  cbn [Nat.ltb Nat.leb]. rewrite Nat.sub_0_r.
  replace (Nat.min (String.length h) (String.length h + S (String.length d)))
    with (String.length h) by lia.
  rewrite substring_prefix. reflexivity.
Qed.

Lemma append_dot_assoc h d : (h ++ String "." d = (h ++ ".") ++ d)%string.
Proof. induction h as [|c h IH]; simpl; [reflexivity|]. rewrite IH. reflexivity. Qed.

Lemma length_append_one h : String.length (h ++ ".") = (String.length h + 1)%nat.
Proof. induction h as [|c h IH]; simpl; [reflexivity|]. rewrite IH. reflexivity. Qed.

Lemma DomainNameFromFQDN_dot h d :
  (forall i, String.get i h <> Some "."%char) ->
  DomainNameFromFQDN (h ++ String "." d) = Some d.
Proof.
  intros Hh. unfold DomainNameFromFQDN.
  rewrite (find_first_of_dot h d Hh). unfold substr.
  rewrite length_append_dot.
  destruct (Nat.ltb_spec (String.length h + S (String.length d))
                         (String.length h + 1)); [lia|].
  replace (String.length h + S (String.length d) - (String.length h + 1))%nat
    with (String.length d) by lia.
  replace (String.length h + 1)%nat with (String.length (h ++ "."))
    by apply length_append_one.
  rewrite (append_dot_assoc h d), substring_suffix, substring_all. reflexivity.
Qed.

(** Every string is free of dots or has a first dot. *)
Lemma first_dot_split s :
  (forall i, String.get i s <> Some "."%char) \/
  exists h d, s = (h ++ String "." d)%string /\
              forall i, String.get i h <> Some "."%char.
Proof.
  induction s as [|c s IH].
  - left. intros i. destruct i; discriminate.
  - destruct (Ascii.eqb_spec c "."%char) as [->|Hne].
    + right. exists EmptyString, s. split; [reflexivity|].
      intros i. destruct i; discriminate.
    + destruct IH as [Hno|(h & d & -> & Hh)].
      * left. intros [|i]; [simpl; congruence|apply Hno].
      * right. exists (String c h), d. split; [reflexivity|].
        intros [|i]; [simpl; congruence|apply Hh].
Qed.

(** [HostnameFromFQDN] and [DomainNameFromFQDN] never throw, whatever the
    string; the host part has no dot in it, and the string is the host
    part alone (the domain part then being empty) or the host part, a dot
    and the domain part. *)
Theorem FQDN_parts (s : string) :
  exists h d,
    HostnameFromFQDN s = Some h /\ DomainNameFromFQDN s = Some d /\
    (forall i, String.get i h <> Some "."%char) /\
    (s = h /\ d = EmptyString \/ s = (h ++ String "." d)%string).
Proof.
  destruct (first_dot_split s) as [Hno|(h & d & -> & Hh)].
  - exists s, EmptyString. unfold HostnameFromFQDN, DomainNameFromFQDN.
    rewrite (find_first_of_no_dot s Hno). repeat split; auto.
  - exists h, d. rewrite HostnameFromFQDN_dot, DomainNameFromFQDN_dot by exact Hh.
    repeat split; auto.
Qed.

Lemma string_of_chars_name name rest :
  (forall i, String.get i name <> Some zero) ->
  string_of_chars (list_ascii_of_string name ++ zero :: rest) = Ok name.
Proof.
  induction name as [|c name IH]; intros H; [reflexivity|].
  cbn [list_ascii_of_string app string_of_chars].
  destruct (Ascii.eqb_spec c zero) as [->|Hne].
  - exfalso. apply (H O). reflexivity.
  - rewrite IH; [reflexivity|]. intros i. apply (H (S i)).
Qed.

Lemma string_of_chars_no_NUL chars :
  ~ In zero chars -> string_of_chars chars = Fault Undefined.
Proof.
  induction chars as [|c chars IH]; intros H; [reflexivity|].
  cbn [string_of_chars].
  destruct (Ascii.eqb_spec c zero) as [->|Hne].
  - exfalso. apply H. left. reflexivity.
  - rewrite IH; [reflexivity|]. intros Hin. apply H. right. exact Hin.
Qed.

(** The four functions that report the name of the host.  When
    [gethostname] fails they all return the empty string.  When it leaves
    a NUL-terminated name in the array, [FQDN] and [FullHostname] return
    that name, [Hostname] its part in front of the first dot and
    [DomainName] its part behind the first dot (the empty string for a
    name without a dot).  An array left without a NUL is read past its
    end. *)
Theorem host_name_functions (os : host) :
  (gethostname_ret os <> 0 ->
   FQDN os = Ok EmptyString /\ FullHostname os = Ok EmptyString /\
   Hostname os = Ok (Some EmptyString) /\
   DomainName os = Ok (Some EmptyString)) /\
  (forall name rest,
      gethostname_ret os = 0 ->
      hostname os = list_ascii_of_string name ++ zero :: rest ->
      (forall i, String.get i name <> Some zero) ->
      FQDN os = Ok name /\ FullHostname os = Ok name /\
      exists h d,
        Hostname os = Ok (Some h) /\ DomainName os = Ok (Some d) /\
        (forall i, String.get i h <> Some "."%char) /\
        (name = h /\ d = EmptyString \/ name = (h ++ String "." d)%string)) /\
  (gethostname_ret os = 0 -> ~ In zero (hostname os) ->
   FQDN os = Fault Undefined).
Proof.
  split; [|split].
  - intros Hret. apply Z.eqb_neq in Hret.
    unfold FullHostname, Hostname, DomainName, FQDN. rewrite Hret.
    repeat split.
  - intros name rest Hret Harr Hname.
    assert (E : FQDN os = Ok name).
    { unfold FQDN. rewrite Hret, Harr. cbn [Z.eqb negb].
      apply string_of_chars_name. exact Hname. }
    unfold FullHostname, Hostname, DomainName. rewrite E. cbn [bind].
    split; [reflexivity|]. split; [reflexivity|].
    destruct (first_dot_split name) as [Hno|(h & d & -> & Hh)].
    + exists name, EmptyString. unfold HostnameFromFQDN, DomainNameFromFQDN.
      rewrite (find_first_of_no_dot name Hno). repeat split; auto.
    + exists h, d.
      rewrite HostnameFromFQDN_dot, DomainNameFromFQDN_dot by exact Hh.
      repeat split; auto.
  - intros Hret Hno. unfold FQDN. rewrite Hret. cbn [Z.eqb negb].
    apply string_of_chars_no_NUL. exact Hno.
Qed.

(** The four functions on the host [foo.example.com]. *)
Lemma host_name_functions_witness :
  FQDN sample_host = Ok "foo.example.com"%string /\
  FullHostname sample_host = Ok "foo.example.com"%string /\
  exists h d,
    Hostname sample_host = Ok (Some h) /\ DomainName sample_host = Ok (Some d) /\
    (forall i, String.get i h <> Some "."%char) /\
    ("foo.example.com"%string = h /\ d = EmptyString \/
     "foo.example.com"%string = (h ++ String "." d)%string).
Proof.
  destruct (host_name_functions sample_host) as (_ & Hname & _).
  apply (Hname "foo.example.com"%string (repeat "x"%char 8)).
  - reflexivity.
  - reflexivity.
  - intros i. do 15 (destruct i as [|i]; [discriminate|]). discriminate.
Defined.

(** ** Name servers *)

Lemma NameServers_loop_appends fuel res : forall i name_servers,
  0 <= i -> nscount res <= Z.of_nat (length (nsaddr_list res)) ->
  (Z.to_nat (nscount res - i) <= fuel)%nat ->
  NameServers_loop fuel res i name_servers
  = Ok (name_servers
        ++ skipn (Z.to_nat i) (firstn (Z.to_nat (nscount res)) (nsaddr_list res))).
Proof.
  induction fuel as [|fuel IH]; intros i v Hi Hn Hf.
  - cbn [NameServers_loop].
    destruct (Z.ltb_spec i (nscount res)); [lia|].
    rewrite skipn_all2 by (rewrite length_firstn; lia).
    rewrite app_nil_r. reflexivity.
  - cbn [NameServers_loop].
    destruct (Z.ltb_spec i (nscount res)) as [Hlt|Hge].
    + unfold nsaddr. destruct (Z.ltb_spec i 0); [lia|].
      destruct (nth_error (nsaddr_list res) (Z.to_nat i)) as [a|] eqn:Ea.
      * cbn [bind]. rewrite IH by lia. rewrite <- app_assoc. f_equal. f_equal.
        replace (Z.to_nat (i + 1)) with (S (Z.to_nat i)) by lia.
        assert (Ef : nth_error (firstn (Z.to_nat (nscount res)) (nsaddr_list res))
                               (Z.to_nat i) = Some a).
        { rewrite nth_error_firstn.
          destruct (Nat.ltb_spec (Z.to_nat i) (Z.to_nat (nscount res))); [exact Ea|lia]. }
        clear - Ef. revert Ef.
        generalize (firstn (Z.to_nat (nscount res)) (nsaddr_list res)) as l.
        generalize (Z.to_nat i) as n.
        induction n as [|n IHn]; intros [|x l] E; try discriminate.
        -- injection E as ->. reflexivity.
        -- simpl in E. cbn [skipn]. rewrite <- (IHn l E). reflexivity.
      * apply nth_error_None in Ea. lia.
    + rewrite skipn_all2 by (rewrite length_firstn; lia).
      rewrite app_nil_r. reflexivity.
Qed.

(** [NameServers] leaves the vector as it is and returns [false] when
    [res_init] fails.  Otherwise it returns [true] and the vector holds
    what it held before, followed by the first [nscount] addresses of the
    resolver in their order: the vector is appended to, not replaced.  A
    count beyond the array is read past its end. *)
Theorem NameServers_appends (res : resolver) (name_servers : list Z) :
  (res_init_ret res <> 0 ->
   NameServers res name_servers = Ok (false, name_servers)) /\
  (res_init_ret res = 0 ->
   nscount res <= Z.of_nat (length (nsaddr_list res)) ->
   NameServers res name_servers
   = Ok (true, name_servers
               ++ firstn (Z.to_nat (nscount res)) (nsaddr_list res))) /\
  (res_init_ret res = 0 ->
   Z.of_nat (length (nsaddr_list res)) < nscount res ->
   NameServers res name_servers = Fault Undefined).
Proof.
  split; [|split].
  - intros H. apply Z.eqb_neq in H. unfold NameServers. rewrite H. reflexivity.
  - intros H Hn. unfold NameServers. rewrite H. cbn [Z.eqb negb].
    rewrite NameServers_loop_appends by lia. reflexivity.
  - intros H Hn. unfold NameServers. rewrite H. cbn [Z.eqb negb].
    assert (Hloop : forall fuel i v,
               0 <= i <= Z.of_nat (length (nsaddr_list res)) ->
               (Z.to_nat (nscount res - i) <= fuel)%nat ->
               NameServers_loop fuel res i v = Fault Undefined).
    { induction fuel as [|fuel IH]; intros i v Hi Hf; [lia|].
      cbn [NameServers_loop].
      destruct (Z.ltb_spec i (nscount res)); [|lia].
      unfold nsaddr. destruct (Z.ltb_spec i 0); [lia|].
      destruct (nth_error (nsaddr_list res) (Z.to_nat i)) as [a|] eqn:Ea;
        [|reflexivity].
      cbn [bind]. apply IH; [|lia].
      assert (Z.to_nat i < length (nsaddr_list res))%nat
        by (apply nth_error_Some; congruence).
      lia. }
    rewrite Hloop by lia. reflexivity.
Qed.

(** A vector that holds 1.1.1.1 is given the two name servers of the
    resolver behind it. *)
Lemma NameServers_appends_witness :
  NameServers sample_resolver [16843009]
  = Ok (true, [16843009; 16885952; 134744072]).
Proof.
  destruct (NameServers_appends sample_resolver [16843009]) as (_ & H & _).
  apply H.
  - reflexivity.
  - vm_compute. discriminate.
Defined.

(** ** The receive loop, from the call to the return *)

Section ReceiveLoop.
Variable be : bool.

Lemma firstn_after_recv m buf got :
  0 <= buf -> buf + Z.of_nat (length got) <= Z.of_nat (length m) ->
  firstn (Z.to_nat buf) (after_recv m buf got) = firstn (Z.to_nat buf) m.
Proof.
  intros Hb Hl. unfold after_recv.
  rewrite firstn_app, length_firstn.
  replace (Z.to_nat buf - Nat.min (Z.to_nat buf) (length m))%nat with 0%nat by lia.
  cbn [firstn]. rewrite app_nil_r.
  apply firstn_all2. rewrite length_firstn. lia.
Qed.

Lemma skipn_behind_after_recv m buf got k :
  0 <= buf -> buf + Z.of_nat (length got) <= k ->
  k <= Z.of_nat (length m) ->
  skipn (Z.to_nat k) (after_recv m buf got) = skipn (Z.to_nat k) m.
Proof.
  intros Hb Hk Hl. unfold after_recv.
  rewrite app_assoc, skipn_app.
  rewrite skipn_all2 by (rewrite length_app, length_firstn; lia).
  rewrite length_app, length_firstn. cbn [app].
  rewrite skipn_skipn. f_equal. lia.
Qed.

Lemma firstn_firstn_le {A} (l l' : list A) (a b : nat) :
  (a <= b)%nat -> firstn b l = firstn b l' -> firstn a l = firstn a l'.
Proof.
  intros Hab H.
  replace a with (Nat.min a b) by lia.
  rewrite <- !firstn_firstn, H. reflexivity.
Qed.

(** What every run of the loop keeps. *)
Lemma ReadNetlinkLoop_frame script : forall m buf bufsize seq pid msglen,
  loop_ready m buf bufsize msglen ->
  match ReadNetlinkLoop be script m buf bufsize seq pid msglen with
  | Ok r =>
      (read_ret r = -1 \/ msglen <= read_ret r <= bufsize) /\
      length (read_buf r) = length m /\
      firstn (Z.to_nat buf) (read_buf r) = firstn (Z.to_nat buf) m /\
      skipn (Z.to_nat (buf + (bufsize - msglen))) (read_buf r)
      = skipn (Z.to_nat (buf + (bufsize - msglen))) m /\
      exists taken, taken <> [] /\ script = taken ++ read_pending r
  | Fault f => f = Blocks
  end.
Proof.
  induction script as [|x script IH]; intros m buf bufsize seq pid msglen Hready;
    [reflexivity|].
  pose proof Hready as (Hb & Hm & Hs & Hl).
  destruct x as [|d].
  - cbn. split; [left; reflexivity|]. do 3 (split; [reflexivity|]).
    exists [RecvError]. split; [discriminate|reflexivity].
  - set (got := received d (bufsize - msglen)).
    pose proof (length_received d (bufsize - msglen) ltac:(lia)) as Hg.
    fold got in Hg.
    assert (Hh : exists h, 16 <= Z.of_nat (length got) -> header_of be got = Ok h).
    { destruct (Z_lt_le_dec (Z.of_nat (length got)) 16) as [Hshort|Hlong].
      - exists (mkHdr 0 0 0 0 0). lia.
      - destruct (header_of_readable be got Hlong) as [h Hh]. exists h. auto. }
    destruct Hh as [h Hh].
    rewrite (ReadNetlinkLoop_step be d script m buf bufsize seq pid msglen h Hready Hh).
    fold got.
    assert (Hlen : length (after_recv m buf got) = length m)
      by (apply length_after_recv; lia).
    assert (Hpre : firstn (Z.to_nat buf) (after_recv m buf got)
                   = firstn (Z.to_nat buf) m)
      by (apply firstn_after_recv; lia).
    assert (Hpost : skipn (Z.to_nat (buf + (bufsize - msglen))) (after_recv m buf got)
                    = skipn (Z.to_nat (buf + (bufsize - msglen))) m)
      by (apply skipn_behind_after_recv; lia).
    assert (Htaken : exists taken : list recv_result,
               taken <> [] /\ RecvDatagram d :: script = taken ++ script)
      by (exists [RecvDatagram d]; split; [discriminate|reflexivity]).
    assert (Hend : forall n,
               n = -1 \/ msglen <= n <= bufsize ->
               (read_ret (mkRead n (after_recv m buf got) script) = -1 \/
                msglen <= read_ret (mkRead n (after_recv m buf got) script)
                       <= bufsize) /\
               length (read_buf (mkRead n (after_recv m buf got) script))
               = length m /\
               firstn (Z.to_nat buf)
                      (read_buf (mkRead n (after_recv m buf got) script))
               = firstn (Z.to_nat buf) m /\
               skipn (Z.to_nat (buf + (bufsize - msglen)))
                     (read_buf (mkRead n (after_recv m buf got) script))
               = skipn (Z.to_nat (buf + (bufsize - msglen))) m /\
               exists taken : list recv_result,
                 taken <> [] /\
                 RecvDatagram d :: script
                 = taken ++ read_pending (mkRead n (after_recv m buf got) script)).
    { intros n Hn. cbn [read_ret read_buf read_pending]. auto. }
    destruct (envelope_ok h (Z.of_nat (length got))); cbn [negb];
      [|apply Hend; left; reflexivity].
    destruct (hdr_type h =? NLMSG_ERROR); [apply Hend; left; reflexivity|].
    destruct (hdr_type h =? NLMSG_DONE); [apply Hend; right; lia|].
    destruct (Z.land (hdr_flags h) NLM_F_MULTI =? 0); [apply Hend; right; lia|].
    destruct ((to_int32 (hdr_seq h) =? seq) && (to_int32 (hdr_pid h) =? pid));
      [apply Hend; right; lia|].
    assert (Hready' : loop_ready (after_recv m buf got)
                                 (buf + Z.of_nat (length got)) bufsize
                                 (msglen + Z.of_nat (length got)))
      by (apply loop_ready_step; [exact Hready|lia]).
    specialize (IH (after_recv m buf got) (buf + Z.of_nat (length got)) bufsize
                   seq pid (msglen + Z.of_nat (length got)) Hready').
    destruct (ReadNetlinkLoop be script (after_recv m buf got)
                (buf + Z.of_nat (length got)) bufsize seq pid
                (msglen + Z.of_nat (length got))) as [r|f]; [|exact IH].
    destruct IH as (Hret & Hlen' & Hpre' & Hpost' & taken & Hne & ->).
    split; [destruct Hret; [left; assumption|right; lia]|].
    split; [congruence|].
    split.
    { rewrite <- Hpre.
      apply (firstn_firstn_le _ _ _ (Z.to_nat (buf + Z.of_nat (length got))));
        [lia|exact Hpre']. }
    split.
    { replace (buf + Z.of_nat (length got)
               + (bufsize - (msglen + Z.of_nat (length got))))
        with (buf + (bufsize - msglen)) in Hpost' by lia.
      rewrite Hpost'. exact Hpost. }
    exists (RecvDatagram d :: taken). split; [discriminate|reflexivity].
Qed.

Lemma after_recv_twice m buf f g :
  0 <= buf ->
  buf + Z.of_nat (length f) + Z.of_nat (length g) <= Z.of_nat (length m) ->
  after_recv (after_recv m buf f) (buf + Z.of_nat (length f)) g
  = after_recv m buf (f ++ g).
Proof.
  intros Hb Hl.
  assert (Hf : firstn (Z.to_nat (buf + Z.of_nat (length f))) (after_recv m buf f)
               = firstn (Z.to_nat buf) m ++ f).
  { unfold after_recv. rewrite app_assoc.
    rewrite firstn_app.
    rewrite firstn_all2 by (rewrite length_app, length_firstn; lia).
    rewrite length_app, length_firstn.
    replace (Z.to_nat (buf + Z.of_nat (length f))
             - (Nat.min (Z.to_nat buf) (length m) + length f))%nat with 0%nat by lia.
    cbn [firstn]. rewrite app_nil_r. reflexivity. }
  assert (Hs : skipn (Z.to_nat (buf + Z.of_nat (length f)) + length g)
                     (after_recv m buf f)
               = skipn (Z.to_nat buf + length (f ++ g)) m).
  { replace (Z.to_nat (buf + Z.of_nat (length f)) + length g)%nat
      with (Z.to_nat (buf + Z.of_nat (length f) + Z.of_nat (length g))) by lia.
    rewrite skipn_behind_after_recv by lia.
    f_equal. rewrite length_app. lia. }
  unfold after_recv at 1. rewrite Hf, Hs.
  unfold after_recv. rewrite <- !app_assoc. reflexivity.
Qed.

Lemma received_all d room :
  Z.of_nat (length d) <= room -> received d room = d.
Proof. intros H. unfold received. apply firstn_all2. lia. Qed.

Lemma ReadNetlinkLoop_continues seq pid f script m buf bufsize msglen :
  loop_ready m buf bufsize msglen ->
  continues be seq pid f ->
  Z.of_nat (length f) <= bufsize - msglen ->
  ReadNetlinkLoop be (RecvDatagram f :: script) m buf bufsize seq pid msglen
  = ReadNetlinkLoop be script (after_recv m buf f) (buf + Z.of_nat (length f))
                    bufsize seq pid (msglen + Z.of_nat (length f)).
Proof.
  intros Hready (h & Hh & Hok & Herr & Hdone & Hmulti & Hother) Hfit.
  pose proof (ReadNetlinkLoop_step be f script m buf bufsize seq pid msglen h Hready)
    as Hstep.
  cbv zeta in Hstep. rewrite (received_all f _ Hfit) in Hstep.
  rewrite Hstep by (intros _; exact Hh). rewrite Hok. cbn [negb].
  apply Z.eqb_neq in Herr. apply Z.eqb_neq in Hdone. apply Z.eqb_neq in Hmulti.
  rewrite Herr, Hdone, Hmulti.
  destruct Hother as [Hseq|Hpid].
  - apply Z.eqb_neq in Hseq. rewrite Hseq. reflexivity.
  - apply Z.eqb_neq in Hpid. rewrite Hpid, andb_false_r. reflexivity.
Qed.

Lemma ReadNetlinkLoop_ends_dump seq pid last script m buf bufsize msglen :
  loop_ready m buf bufsize msglen ->
  ends_dump be last ->
  Z.of_nat (length last) <= bufsize - msglen ->
  ReadNetlinkLoop be (RecvDatagram last :: script) m buf bufsize seq pid msglen
  = Ok (mkRead msglen (after_recv m buf last) script).
Proof.
  intros Hready (h & Hh & Hok & Hdone) Hfit.
  pose proof (ReadNetlinkLoop_step be last script m buf bufsize seq pid msglen h Hready)
    as Hstep.
  cbv zeta in Hstep. rewrite (received_all last _ Hfit) in Hstep.
  rewrite Hstep by (intros _; exact Hh). rewrite Hok, Hdone. reflexivity.
Qed.

Lemma ReadNetlinkLoop_answers seq pid last script m buf bufsize msglen :
  loop_ready m buf bufsize msglen ->
  answers be seq pid last ->
  Z.of_nat (length last) <= bufsize - msglen ->
  ReadNetlinkLoop be (RecvDatagram last :: script) m buf bufsize seq pid msglen
  = Ok (mkRead (msglen + Z.of_nat (length last)) (after_recv m buf last) script).
Proof.
  intros Hready (h & Hh & Hok & Herr & Hdone & Hlast) Hfit.
  pose proof (ReadNetlinkLoop_step be last script m buf bufsize seq pid msglen h Hready)
    as Hstep.
  cbv zeta in Hstep. rewrite (received_all last _ Hfit) in Hstep.
  rewrite Hstep by (intros _; exact Hh). rewrite Hok. cbn [negb].
  apply Z.eqb_neq in Herr. apply Z.eqb_neq in Hdone. rewrite Herr, Hdone.
  destruct Hlast as [Hsingle|[Hseq Hpid]].
  - rewrite Hsingle. reflexivity.
  - apply Z.eqb_eq in Hseq. apply Z.eqb_eq in Hpid. rewrite Hseq, Hpid.
    destruct (Z.land (hdr_flags h) NLM_F_MULTI =? 0); reflexivity.
Qed.

(** The fragments that the loop goes on from are laid out in the buffer
    one behind the other, and the loop reaches the fragment that follows
    them with their lengths added up. *)
Lemma ReadNetlinkLoop_accumulates seq pid script bufsize frags :
  forall m buf msglen,
  loop_ready m buf bufsize msglen ->
  Forall (continues be seq pid) frags ->
  msglen + total_length frags <= bufsize ->
  ReadNetlinkLoop be (map RecvDatagram frags ++ script) m buf bufsize seq pid
                  msglen
  = ReadNetlinkLoop be script (after_recv m buf (concat frags))
                    (buf + total_length frags) bufsize seq pid
                    (msglen + total_length frags).
Proof.
  unfold total_length.
  induction frags as [|f frags IH]; intros m buf msglen Hready Hfrags Hfit.
  - cbn [map app concat length Z.of_nat]. rewrite after_recv_nil, !Z.add_0_r.
    reflexivity.
  - inversion Hfrags as [|? ? Hf Hrest]; subst.
    cbn [map app concat] in *. rewrite length_app, Nat2Z.inj_add in *.
    pose proof Hready as (Hb & Hm & Hs & Hl).
    rewrite ReadNetlinkLoop_continues by (assumption || lia).
    rewrite IH by (try apply loop_ready_step; assumption || lia).
    rewrite after_recv_twice by lia.
    rewrite !Z.add_assoc. reflexivity.
Qed.
End ReceiveLoop.

(** [ReadNetlinkSocket] concatenates.  When the kernel sends fragments
    that the loop goes on from and then one that ends it, and they all fit
    into the buffer, the buffer holds them one behind the other from [buf]
    on, in the order received.  The count returned is the length of the
    fragments in front of an end-of-dump fragment, and includes the last
    fragment when that one is a single-part message or the answer to the
    request.  The answers behind the last fragment stay unread. *)
Theorem ReadNetlinkSocket_concatenates
    (be : bool) (seq pid : Z) (frags : list (list Z)) (last : list Z)
    (script : list recv_result) (m : buffer) (buf bufsize : Z) :
  0 <= buf -> bufsize < 2 ^ 31 -> buf + bufsize <= Z.of_nat (length m) ->
  Forall (continues be seq pid) frags ->
  total_length frags + Z.of_nat (length last) <= bufsize ->
  (ends_dump be last ->
   ReadNetlinkSocket be (map RecvDatagram frags ++ RecvDatagram last :: script)
                     m buf bufsize seq pid
   = Ok (mkRead (total_length frags)
                (after_recv m buf (concat frags ++ last)) script)) /\
  (answers be seq pid last ->
   ReadNetlinkSocket be (map RecvDatagram frags ++ RecvDatagram last :: script)
                     m buf bufsize seq pid
   = Ok (mkRead (total_length frags + Z.of_nat (length last))
                (after_recv m buf (concat frags ++ last)) script)).
Proof.
  intros Hb Hs Hl Hfrags Hfit.
  assert (Hready : loop_ready m buf bufsize 0) by (unfold loop_ready, total_length in *; lia).
  assert (Hready' : loop_ready (after_recv m buf (concat frags))
                               (buf + total_length frags) bufsize
                               (0 + total_length frags)).
  { apply loop_ready_step; [exact Hready|]. unfold total_length in *. lia. }
  unfold ReadNetlinkSocket.
  rewrite ReadNetlinkLoop_accumulates by (assumption || lia).
  split; intros Hlast.
  - rewrite ReadNetlinkLoop_ends_dump by (assumption || lia).
    unfold total_length. rewrite after_recv_twice by (unfold total_length in *; lia).
    reflexivity.
  - rewrite ReadNetlinkLoop_answers by (assumption || lia).
    unfold total_length. rewrite after_recv_twice by (unfold total_length in *; lia).
    reflexivity.
Qed.

(** A fragment with another sequence number, then the end of the dump. *)
Lemma ReadNetlinkSocket_concatenates_witness :
  ReadNetlinkSocket false
    [RecvDatagram foreign_fragment; RecvDatagram done_fragment; RecvError]
    (request_image false 77) 0 BUFSIZE 0 77
  = Ok (mkRead 36
               (after_recv (request_image false 77) 0
                           (concat [foreign_fragment] ++ done_fragment))
               [RecvError]).
Proof.
  destruct (ReadNetlinkSocket_concatenates false 0 77 [foreign_fragment]
              done_fragment [RecvError] (request_image false 77) 0 BUFSIZE)
    as [Hdone _].
  - lia.
  - reflexivity.
  - vm_compute. discriminate.
  - constructor; [|constructor].
    exists (mkHdr 36 RTM_NEWROUTE NLM_F_MULTI 9 77).
    split; [vm_compute; reflexivity|].
    split; [vm_compute; reflexivity|].
    split; [vm_compute; discriminate|].
    split; [vm_compute; discriminate|].
    split; [vm_compute; discriminate|].
    left. vm_compute. discriminate.
  - vm_compute. discriminate.
  - apply Hdone.
    exists (mkHdr 20 NLMSG_DONE NLM_F_MULTI 0 77).
    split; [vm_compute; reflexivity|].
    split; [vm_compute; reflexivity|reflexivity].
Defined.

(** [ReadNetlinkSocket] stays inside [buf[0..bufsize)].  Called with a
    buffer that has [bufsize] bytes from [buf] on, it never reads or
    writes outside the buffer, whatever the kernel sends: it returns, or
    blocks in [recv].  When it returns, the result is [-1] or a count
    between 0 and [bufsize], the bytes in front of [buf] and behind
    [buf + bufsize] are as they were, and at least one answer of the
    kernel was consumed. *)
Theorem ReadNetlinkSocket_stays_in_buffer
    (be : bool) (script : list recv_result) (m : buffer)
    (buf bufsize seq pid : Z) :
  0 <= buf -> 0 <= bufsize < 2 ^ 31 -> buf + bufsize <= Z.of_nat (length m) ->
  match ReadNetlinkSocket be script m buf bufsize seq pid with
  | Ok r =>
      (read_ret r = -1 \/ 0 <= read_ret r <= bufsize) /\
      length (read_buf r) = length m /\
      firstn (Z.to_nat buf) (read_buf r) = firstn (Z.to_nat buf) m /\
      skipn (Z.to_nat (buf + bufsize)) (read_buf r)
      = skipn (Z.to_nat (buf + bufsize)) m /\
      exists taken, taken <> [] /\ script = taken ++ read_pending r
  | Fault f => f = Blocks
  end.
Proof.
  intros Hb Hs Hl.
  assert (Hready : loop_ready m buf bufsize 0) by (unfold loop_ready; lia).
  pose proof (ReadNetlinkLoop_frame be script m buf bufsize seq pid 0 Hready) as H.
  rewrite Z.sub_0_r in H. exact H.
Qed.

(** A buffer with two bytes in front of [buf] and one byte behind
    [buf + bufsize]. *)
Lemma ReadNetlinkSocket_stays_in_buffer_witness :
  match ReadNetlinkSocket false
          [RecvDatagram foreign_fragment; RecvDatagram done_fragment]
          ([7; 7] ++ request_image false 77 ++ [9]) 2 BUFSIZE 0 77 with
  | Ok r =>
      (read_ret r = -1 \/ 0 <= read_ret r <= BUFSIZE) /\
      length (read_buf r) = length ([7; 7] ++ request_image false 77 ++ [9]) /\
      firstn (Z.to_nat 2) (read_buf r)
      = firstn (Z.to_nat 2) ([7; 7] ++ request_image false 77 ++ [9]) /\
      skipn (Z.to_nat (2 + BUFSIZE)) (read_buf r)
      = skipn (Z.to_nat (2 + BUFSIZE)) ([7; 7] ++ request_image false 77 ++ [9]) /\
      exists taken,
        taken <> [] /\
        [RecvDatagram foreign_fragment; RecvDatagram done_fragment]
        = taken ++ read_pending r
  | Fault f => f = Blocks
  end.
Proof.
  apply (ReadNetlinkSocket_stays_in_buffer false
           [RecvDatagram foreign_fragment; RecvDatagram done_fragment]
           ([7; 7] ++ request_image false 77 ++ [9]) 2 BUFSIZE 0 77).
  - lia.
  - vm_compute. split; [discriminate|reflexivity].
  - vm_compute. discriminate.
Defined.

(** A datagram longer than the buffer is cut to the buffer without an
    error.  When its first message fits and ends the loop as a single-part
    message or as the answer to the request, [ReadNetlinkSocket] returns
    [bufsize] and the buffer holds the first [bufsize] bytes of the
    datagram; the rest of the datagram is lost. *)
Theorem ReadNetlinkSocket_truncates_long_datagram
    (be : bool) (d : list Z) (script : list recv_result) (m : buffer)
    (buf bufsize seq pid : Z) (h : nlmsghdr) :
  0 <= buf -> bufsize < 2 ^ 31 -> buf + bufsize <= Z.of_nat (length m) ->
  bufsize < Z.of_nat (length d) ->
  header_of be d = Ok h ->
  16 <= hdr_len h <= bufsize ->
  hdr_type h <> NLMSG_ERROR -> hdr_type h <> NLMSG_DONE ->
  (Z.land (hdr_flags h) NLM_F_MULTI = 0 \/
   to_int32 (hdr_seq h) = seq /\ to_int32 (hdr_pid h) = pid) ->
  ReadNetlinkSocket be (RecvDatagram d :: script) m buf bufsize seq pid
  = Ok (mkRead bufsize (after_recv m buf (firstn (Z.to_nat bufsize) d)) script).
Proof.
  intros Hb Hs Hl Hlong Hh Hlen Herr Hdone Hlast.
  assert (Hready : loop_ready m buf bufsize 0) by (unfold loop_ready; lia).
  unfold ReadNetlinkSocket.
  pose proof (ReadNetlinkLoop_step be d script m buf bufsize seq pid 0 h Hready)
    as Hstep.
  cbv zeta in Hstep. rewrite Z.sub_0_r in Hstep.
  assert (Hg : Z.of_nat (length (received d bufsize)) = bufsize)
    by (rewrite length_received by lia; lia).
  rewrite Hg in Hstep.
  rewrite Hstep by (intros _; rewrite header_of_received by lia; exact Hh).
  unfold envelope_ok.
  replace (16 <=? bufsize) with true by (symmetry; apply Z.leb_le; lia).
  replace (16 <=? hdr_len h) with true by (symmetry; apply Z.leb_le; lia).
  replace (hdr_len h <=? bufsize) with true by (symmetry; apply Z.leb_le; lia).
  cbn [andb negb].
  apply Z.eqb_neq in Herr. apply Z.eqb_neq in Hdone. rewrite Herr, Hdone.
  unfold received. cbn [Z.add].
  destruct Hlast as [Hsingle|[Hseq Hpid]].
  - rewrite Hsingle. reflexivity.
  - apply Z.eqb_eq in Hseq. apply Z.eqb_eq in Hpid. rewrite Hseq, Hpid.
    destruct (Z.land (hdr_flags h) NLM_F_MULTI =? 0); reflexivity.
Qed.

(** A datagram of two entries, 88 bytes, met with a buffer of 60 bytes. *)
Lemma ReadNetlinkSocket_truncates_long_datagram_witness :
  ReadNetlinkSocket false
    [RecvDatagram (encode_entries false [gateway_entry; interface_entry])]
    (request_image false 77) 0 60 0 77
  = Ok (mkRead 60
          (after_recv (request_image false 77) 0
             (firstn (Z.to_nat 60)
                     (encode_entries false [gateway_entry; interface_entry])))
          []).
Proof.
  apply (ReadNetlinkSocket_truncates_long_datagram false
           (encode_entries false [gateway_entry; interface_entry]) []
           (request_image false 77)
           0 60 0 77 (mkHdr 44 RTM_NEWROUTE NLM_F_MULTI 0 77)).
  - lia.
  - reflexivity.
  - vm_compute. discriminate.
  - vm_compute. reflexivity.
  - vm_compute. reflexivity.
  - cbn [hdr_len]. lia.
  - vm_compute. discriminate.
  - vm_compute. discriminate.
  - right. split; reflexivity.
Defined.

(** ** DefaultRoute, from the call to the return *)

Lemma length_request_image be pid :
  length (request_image be pid) = Z.to_nat BUFSIZE.
Proof.
  unfold request_image.
  rewrite !length_app, !length_bytes_of_u16, !length_bytes_of_u32, repeat_length.
  reflexivity.
Qed.

Lemma loop_ready_request be pid : loop_ready (request_image be pid) 0 BUFSIZE 0.
Proof.
  unfold loop_ready. rewrite length_request_image.
  unfold BUFSIZE. change (2 ^ 31) with 2147483648. lia.
Qed.

Lemma select_route_shape be m st res :
  select_route be m st = Ok res ->
  res = (false, None) \/ exists a, res = (true, Some a).
Proof.
  unfold select_route. destruct (foundDefaultRoute st); cbn [negb]; intros H.
  - apply bind_Ok in H. destruct H as (a & _ & H). injection H as <-. eauto.
  - destruct (routeCount st >? 0); [|injection H as <-; auto].
    apply bind_Ok in H. destruct H as (z & _ & H).
    apply bind_Ok in H. destruct H as (a & _ & H). injection H as <-. eauto.
Qed.

(** Whenever [DefaultRoute] returns, the socket was closed if and only if
    it had been opened; the output slot was written if and only if the
    value returned is [true]; and the answers of the kernel left unread
    are the answers it had in store, less those taken from the front.  A
    failed [socket] call is answered by [false] with nothing sent or
    received. *)
Theorem DefaultRoute_closes_socket (be : bool) (os : kernel) (res : route_result) :
  DefaultRoute be os = Ok res ->
  sd_closed res = (0 <=? socket_ret os) /\
  (ret res = true <-> exists a, default_route res = Some a) /\
  (exists taken, recv_rets os = taken ++ pending res) /\
  (socket_ret os < 0 -> res = mkRoute false None false (recv_rets os)).
Proof.
  intros H.
  assert (Hfail : forall closed script,
             (exists taken, recv_rets os = taken ++ script) ->
             closed = (0 <=? socket_ret os) ->
             (socket_ret os < 0 -> closed = false /\ script = recv_rets os) ->
             Ok (mkRoute false None closed script) = Ok res ->
             sd_closed res = (0 <=? socket_ret os) /\
             (ret res = true <-> exists a, default_route res = Some a) /\
             (exists taken, recv_rets os = taken ++ pending res) /\
             (socket_ret os < 0 -> res = mkRoute false None false (recv_rets os))).
  { intros closed script Htaken Hclosed Hneg E. injection E as <-.
    cbn [sd_closed ret default_route pending].
    split; [exact Hclosed|]. split.
    - split; [discriminate|intros [a Ha]; discriminate].
    - split; [exact Htaken|].
      intros Hs. destruct (Hneg Hs) as [-> ->]. reflexivity. }
  destruct (Z_lt_le_dec (socket_ret os) 0) as [Hs|Hs].
  - unfold DefaultRoute in H.
    destruct (Z.ltb_spec (socket_ret os) 0); [|lia].
    apply (Hfail false (recv_rets os)); [exists []; reflexivity| |auto|exact H].
    symmetry. apply Z.leb_gt. exact Hs.
  - assert (Hopen : true = (0 <=? socket_ret os))
      by (symmetry; apply Z.leb_le; exact Hs).
    destruct (Z_lt_le_dec (send_ret os) 0) as [Hsend|Hsend].
    + unfold DefaultRoute in H.
      destruct (Z.ltb_spec (socket_ret os) 0); [lia|].
      rewrite request_msg_image in H. cbn [bind] in H.
      destruct (Z.ltb_spec (send_ret os) 0); [|lia].
      apply (Hfail true (recv_rets os)); [exists []; reflexivity|exact Hopen|lia|exact H].
    + rewrite DefaultRoute_received in H by assumption.
      apply bind_Ok in H. destruct H as (r & Hr & H).
      pose proof (ReadNetlinkLoop_frame be (recv_rets os)
                    (request_image be (getpid_ret os)) 0 BUFSIZE 0
                    (to_int32 (to_uint32 (getpid_ret os))) 0
                    (loop_ready_request be (getpid_ret os))) as Hframe.
      unfold receive, ReadNetlinkSocket in Hr. rewrite Hr in Hframe.
      destruct Hframe as (_ & _ & _ & _ & taken & _ & Htaken).
      destruct (read_ret r <? 0).
      * apply (Hfail true (read_pending r)); [eauto|exact Hopen|lia|exact H].
      * apply bind_Ok in H. destruct H as (st & _ & H).
        apply bind_Ok in H. destruct H as (sel & Hsel & H).
        apply select_route_shape in Hsel.
        destruct Hsel as [->|[a ->]]; cbn [fst snd] in H.
        -- apply (Hfail true (read_pending r)); [eauto|exact Hopen|lia|exact H].
        -- injection H as <-. cbn [sd_closed ret default_route pending].
           split; [exact Hopen|]. split; [split; eauto|].
           split; [eauto|lia].
Qed.

(** The call that returns the gateway 192.168.1.1. *)
Lemma DefaultRoute_closes_socket_witness :
  sd_closed (mkRoute true (Some 16885952) true []) = (0 <=? socket_ret gateway_kernel) /\
  (ret (mkRoute true (Some 16885952) true []) = true <->
   exists a, default_route (mkRoute true (Some 16885952) true []) = Some a) /\
  (exists taken,
      recv_rets gateway_kernel
      = taken ++ pending (mkRoute true (Some 16885952) true [])) /\
  (socket_ret gateway_kernel < 0 ->
   mkRoute true (Some 16885952) true []
   = mkRoute false None false (recv_rets gateway_kernel)).
Proof.
  apply (DefaultRoute_closes_socket false gateway_kernel).
  vm_compute. reflexivity.
Defined.

(** The complete decision of [DefaultRoute].  On every response made of
    well-formed route entries, however many calls of [recv] brought it in,
    [DefaultRoute] returns with the socket closed.  It returns [true] if
    and only if an entry of family IPv4 in the main table has a gateway
    attribute or an interface attribute.  With a gateway the output slot
    holds the address in the last gateway attribute of the first such
    entry that has one; without, the address 0.0.0.0; and when [false] is
    returned, the slot is untouched. *)
Theorem DefaultRoute_selects_route
    (be : bool) (os : kernel) (r : read_result) (es : list route_entry) :
  0 <= socket_ret os -> 0 <= send_ret os ->
  receive be os = Ok r ->
  response r (encode_entries be es) ->
  Forall wf_entry es ->
  exists res,
    DefaultRoute be os = Ok res /\
    sd_closed res = true /\ pending res = read_pending r /\
    (ret res = true <->
     (exists e, In e es /\ has_gateway e = true) \/ (0 < count_oif es)%nat) /\
    (forall e, find has_gateway es = Some e ->
               default_route res = match last_gateway (rtm_attrs e) with
                                   | Some g => address_of be g
                                   | None => None
                                   end) /\
    (find has_gateway es = None -> (0 < count_oif es)%nat ->
     default_route res = Some 0) /\
    (ret res = false -> default_route res = None).
Proof.
  intros Hsock Hsend Hrecv Hresp Hwf.
  rewrite (DefaultRoute_route_of be os r es Hsock Hsend Hrecv Hresp Hwf).
  eexists. split; [reflexivity|].
  cbn [sd_closed pending ret default_route].
  split; [reflexivity|]. split; [reflexivity|].
  unfold route_of. destruct (find has_gateway es) as [e|] eqn:Ef.
  - cbn [fst snd]. split.
    + split; [|reflexivity]. intros _. left. exists e.
      apply (find_some _ _ Ef).
    + split; [intros e' E; injection E as <-; reflexivity|].
      split; [discriminate|discriminate].
  - assert (Hnone : ~ exists e, In e es /\ has_gateway e = true).
    { intros (e & Hin & Hgw).
      rewrite (find_none _ _ Ef e Hin) in Hgw. discriminate. }
    destruct (Nat.ltb_spec 0 (count_oif es)) as [Hc|Hc]; cbn [fst snd].
    + split; [split; [intros _; right; exact Hc|reflexivity]|].
      split; [discriminate|]. split; [reflexivity|discriminate].
    + split.
      * split; [discriminate|]. intros [H|H]; [contradiction|lia].
      * split; [discriminate|]. split; [lia|reflexivity].
Qed.

(** The decision on a response whose only entry is outside the main
    table: [false], and nothing stored. *)
Lemma DefaultRoute_selects_route_witness :
  exists res,
    DefaultRoute false local_table_kernel = Ok res /\
    sd_closed res = true /\ pending res = [] /\
    (ret res = true <->
     (exists e, In e [local_table_entry] /\ has_gateway e = true) \/
     (0 < count_oif [local_table_entry])%nat) /\
    (forall e, find has_gateway [local_table_entry] = Some e ->
               default_route res = match last_gateway (rtm_attrs e) with
                                   | Some g => address_of false g
                                   | None => None
                                   end) /\
    (find has_gateway [local_table_entry] = None ->
     (0 < count_oif [local_table_entry])%nat ->
     default_route res = Some 0) /\
    (ret res = false -> default_route res = None).
Proof.
  apply (DefaultRoute_selects_route false local_table_kernel
           (mkRead 44 (encode_entries false [local_table_entry]
                       ++ repeat 0 (Z.to_nat (BUFSIZE - 44))) [])
           [local_table_entry]).
  - vm_compute. discriminate.
  - vm_compute. discriminate.
  - vm_compute. reflexivity.
  - split; vm_compute; reflexivity.
  - constructor; [|constructor]. intros Hmain. vm_compute in Hmain. discriminate.
Defined.

Section Answer.
Variable be : bool.

Lemma header_of_encode_entry e tail :
  is_uint32 (nlmsg_len be e) ->
  is_uint16 (nlmsg_type e) -> is_uint16 (nlmsg_flags e) ->
  is_uint32 (nlmsg_seq e) -> is_uint32 (nlmsg_pid e) ->
  header_of be (encode_entry be e ++ tail)
  = Ok (mkHdr (nlmsg_len be e) (nlmsg_type e) (nlmsg_flags e)
              (nlmsg_seq e) (nlmsg_pid e)).
Proof.
  intros Hl Ht Hf Hs Hp. unfold header_of, encode_entry.
  rewrite <- !app_assoc.
  unfold off_nlmsg_len, off_nlmsg_type, off_nlmsg_flags, off_nlmsg_seq,
    off_nlmsg_pid.
  rewrite load32_bytes_of_u32 by exact Hl. cbn [bind].
  rewrite (load16_skip be _ _ 4 4) by (rewrite ?length_bytes_of_u32; lia).
  change (4 - 4) with 0. rewrite load16_bytes_of_u16 by exact Ht. cbn [bind].
  rewrite (load16_skip be _ _ 6 4) by (rewrite ?length_bytes_of_u32; lia).
  rewrite (load16_skip be _ _ (6 - 4) 2) by (rewrite ?length_bytes_of_u16; lia).
  change (6 - 4 - 2) with 0. rewrite load16_bytes_of_u16 by exact Hf. cbn [bind].
  rewrite (load32_skip be _ _ 8 4) by (rewrite ?length_bytes_of_u32; lia).
  rewrite (load32_skip be _ _ (8 - 4) 2) by (rewrite ?length_bytes_of_u16; lia).
  rewrite (load32_skip be _ _ (8 - 4 - 2) 2) by (rewrite ?length_bytes_of_u16; lia).
  change (8 - 4 - 2 - 2) with 0. rewrite load32_bytes_of_u32 by exact Hs.
  cbn [bind].
  rewrite (load32_skip be _ _ 12 4) by (rewrite ?length_bytes_of_u32; lia).
  rewrite (load32_skip be _ _ (12 - 4) 2) by (rewrite ?length_bytes_of_u16; lia).
  rewrite (load32_skip be _ _ (12 - 4 - 2) 2) by (rewrite ?length_bytes_of_u16; lia).
  rewrite (load32_skip be _ _ (12 - 4 - 2 - 2) 4) by (rewrite ?length_bytes_of_u32; lia).
  change (12 - 4 - 2 - 2 - 4) with 0. rewrite load32_bytes_of_u32 by exact Hp.
  reflexivity.
Qed.

Lemma firstn_after_recv_front m got :
  Z.of_nat (length got) <= Z.of_nat (length m) ->
  firstn (length got) (after_recv m 0 got) = got.
Proof.
  intros H. unfold after_recv. cbn [Z.to_nat firstn app].
  rewrite firstn_app, Nat.sub_diag. cbn [firstn]. rewrite app_nil_r.
  apply firstn_all.
Qed.
End Answer.

(** [DefaultRoute] from the first datagram to the result.  When the first
    datagram that the kernel sends holds well-formed route entries, fits
    the buffer, and begins with an entry that is neither an error nor the
    end of the dump and either lacks the multi-part flag or carries the
    sequence number 0 and the process identifier of the request, that
    datagram alone decides: the result is the route selected from its
    entries, and whatever the kernel sends behind it is left unread. *)
Theorem DefaultRoute_decides_on_first_datagram
    (be : bool) (os : kernel) (e : route_entry) (es : list route_entry)
    (rest : list recv_result) :
  0 <= socket_ret os -> 0 <= send_ret os ->
  recv_rets os = RecvDatagram (encode_entries be (e :: es)) :: rest ->
  Z.of_nat (length (encode_entries be (e :: es))) <= BUFSIZE ->
  Forall wf_entry (e :: es) ->
  is_uint16 (nlmsg_type e) -> is_uint16 (nlmsg_flags e) ->
  is_uint32 (nlmsg_seq e) -> is_uint32 (nlmsg_pid e) ->
  nlmsg_type e <> NLMSG_ERROR -> nlmsg_type e <> NLMSG_DONE ->
  (Z.land (nlmsg_flags e) NLM_F_MULTI = 0 \/
   nlmsg_seq e = 0 /\ nlmsg_pid e = to_uint32 (getpid_ret os)) ->
  DefaultRoute be os =
  Ok (mkRoute (fst (route_of be (e :: es))) (snd (route_of be (e :: es)))
              true rest).
Proof.
  intros Hsock Hsend Hrecv Hfit Hwf Hty Hfl Hsq Hpd Herr Hdone Hlast.
  set (d := encode_entries be (e :: es)) in *.
  pose proof (length_encode_entries_cons be e es) as Hlen. fold d in Hlen.
  destruct (nlmsg_len_aligned be e) as [_ Hmin].
  assert (Hans : answers be 0 (to_int32 (to_uint32 (getpid_ret os))) d).
  { exists (mkHdr (nlmsg_len be e) (nlmsg_type e) (nlmsg_flags e)
                  (nlmsg_seq e) (nlmsg_pid e)).
    split.
    { subst d. unfold encode_entries. cbn [flat_map].
      apply header_of_encode_entry; try assumption.
      unfold is_uint32, BUFSIZE in *. change (2 ^ 32) with 4294967296. lia. }
    cbn [hdr_len hdr_type hdr_flags hdr_seq hdr_pid].
    split.
    { unfold envelope_ok. cbn [hdr_len].
      apply andb_true_iff. split; [apply andb_true_iff; split|];
        apply Z.leb_le; lia. }
    split; [exact Herr|]. split; [exact Hdone|].
    destruct Hlast as [Hsingle|[-> ->]]; [left; exact Hsingle|right].
    split; reflexivity. }
  pose proof (loop_ready_request be (getpid_ret os)) as Hready.
  assert (Hr : receive be os
               = Ok (mkRead (0 + Z.of_nat (length d))
                            (after_recv (request_image be (getpid_ret os)) 0 d)
                            rest)).
  { unfold receive, ReadNetlinkSocket. rewrite Hrecv.
    apply ReadNetlinkLoop_answers; [exact Hready|exact Hans|lia]. }
  rewrite (DefaultRoute_route_of be os _ (e :: es) Hsock Hsend Hr);
    [reflexivity| |exact Hwf].
  split; cbn [read_ret read_buf]; fold d; [lia|].
  apply firstn_after_recv_front. rewrite length_request_image.
  unfold BUFSIZE in *. lia.
Qed.

(** A datagram of two entries, followed by the end of the dump that is
    never received. *)
Lemma DefaultRoute_decides_on_first_datagram_witness :
  DefaultRoute false
    (mkKernel 3 77 28
       [RecvDatagram (encode_entries false [interface_entry; gateway_entry]);
        RecvDatagram done_fragment])
  = Ok (mkRoute true (Some 16885952) true [RecvDatagram done_fragment]).
Proof.
  apply (DefaultRoute_decides_on_first_datagram false
           (mkKernel 3 77 28
              [RecvDatagram (encode_entries false [interface_entry; gateway_entry]);
               RecvDatagram done_fragment])
           interface_entry [gateway_entry] [RecvDatagram done_fragment]).
  - vm_compute. discriminate.
  - vm_compute. discriminate.
  - reflexivity.
  - vm_compute. discriminate.
  - constructor; [|constructor; [|constructor]]; intros _;
      repeat constructor; vm_compute; try discriminate; try reflexivity; try lia.
  - vm_compute. split; [discriminate|reflexivity].
  - vm_compute. split; [discriminate|reflexivity].
  - vm_compute. split; [discriminate|reflexivity].
  - vm_compute. split; [discriminate|reflexivity].
  - vm_compute. discriminate.
  - vm_compute. discriminate.
  - right. split; reflexivity.
Defined.

(** The address returned is the payload of the gateway attribute.  When
    the first entry of the main table that has a gateway carries, as its
    last gateway attribute, one whose payload begins with the bytes [b0],
    [b1], [b2], [b3], [DefaultRoute] returns [true] with the [s_addr] that
    these four bytes are in memory, whose value in host order is
    [b0.b1.b2.b3].  Entries behind that one have no part in the result,
    nor have the interface attributes counted before it. *)
Theorem DefaultRoute_returns_first_gateway
    (be : bool) (os : kernel) (r : read_result)
    (before after : list route_entry) (e : route_entry)
    (pre post : list rtattr) (b0 b1 b2 b3 : Z) (more : list Z) :
  0 <= socket_ret os -> 0 <= send_ret os ->
  receive be os = Ok r ->
  response r (encode_entries be (before ++ e :: after)) ->
  Forall wf_entry (before ++ e :: after) ->
  no_gateway before ->
  in_main_table e = true ->
  rtm_attrs e = pre ++ mkAttr RTA_GATEWAY (b0 :: b1 :: b2 :: b3 :: more) :: post ->
  (forall a, In a post -> is_gateway a = false) ->
  is_uint8 b0 -> is_uint8 b1 -> is_uint8 b2 -> is_uint8 b3 ->
  DefaultRoute be os =
  Ok (mkRoute true (Some (u32_of_bytes be b0 b1 b2 b3)) true (read_pending r)) /\
  NetworkToHost_u32 be (u32_of_bytes be b0 b1 b2 b3)
  = 16777216 * b0 + 65536 * b1 + 256 * b2 + b3.
Proof.
  intros Hsock Hsend Hrecv Hresp Hwf Hbefore Hmain Hattrs Hpost H0 H1 H2 H3.
  split.
  - rewrite (DefaultRoute_route_of be os r _ Hsock Hsend Hrecv Hresp Hwf).
    unfold route_of.
    assert (Hgw : has_gateway e = true).
    { unfold has_gateway. rewrite Hmain, Hattrs, existsb_app. simpl.
      apply orb_true_r. }
    rewrite (find_has_gateway_first before e after Hbefore Hgw).
    rewrite Hattrs, last_gateway_last by (reflexivity || assumption).
    reflexivity.
  - unfold is_uint8 in *. change (2 ^ 8) with 256 in *.
    unfold NetworkToHost_u32, ntohl, u32_of_bytes. destruct be; [reflexivity|].
    rewrite bswap_32_eq.
    replace (b0 + 256 * b1 + 65536 * b2 + 16777216 * b3)
      with (b3 * 16777216 + b2 * 65536 + b1 * 256 + b0) by lia.
    destruct (bytes_sum_32 _ _ _ _ H3 H2 H1 H0) as (E3 & E2 & E1 & E0).
    rewrite E3, E2, E1, E0. lia.
Qed.

(** Of the gateways 10.0.0.1 and 10.0.0.254 in the second entry the last
    one is returned; the gateway of the third entry is not looked at. *)
Lemma DefaultRoute_returns_first_gateway_witness :
  DefaultRoute false two_gateways_kernel
  = Ok (mkRoute true (Some (u32_of_bytes false 10 0 0 254)) true []) /\
  NetworkToHost_u32 false (u32_of_bytes false 10 0 0 254)
  = 16777216 * 10 + 65536 * 0 + 256 * 0 + 254.
Proof.
  apply (DefaultRoute_returns_first_gateway false two_gateways_kernel
           (mkRead 144
              (encode_entries false
                 [interface_entry; two_gateways_entry; gateway_entry]
               ++ repeat 0 (Z.to_nat (BUFSIZE - 144))) [])
           [interface_entry] [gateway_entry] two_gateways_entry
           [mkAttr RTA_GATEWAY [10; 0; 0; 1]] [mkAttr RTA_OIF [2; 0; 0; 0]]
           10 0 0 254 [9]).
  - vm_compute. discriminate.
  - vm_compute. discriminate.
  - vm_compute. reflexivity.
  - split; vm_compute; reflexivity.
  - constructor; [|constructor; [|constructor; [|constructor]]]; intros _;
      repeat constructor; vm_compute; try discriminate; try reflexivity; try lia.
  - intros e a [<-|[]] _ [<-|[<-|[]]]; reflexivity.
  - reflexivity.
  - reflexivity.
  - intros a [<-|[]]. reflexivity.
  - vm_compute. split; [discriminate|reflexivity].
  - vm_compute. split; [discriminate|reflexivity].
  - vm_compute. split; [discriminate|reflexivity].
  - vm_compute. split; [discriminate|reflexivity].
Defined.

(** [DefaultRoute] has no time limit.  When the kernel sends nothing, or
    nothing but fragments that the receive loop goes on from, the call
    never returns: it blocks in [recv]. *)
Theorem DefaultRoute_blocks_without_final_fragment
    (be : bool) (os : kernel) (frags : list (list Z)) :
  0 <= socket_ret os -> 0 <= send_ret os ->
  recv_rets os = map RecvDatagram frags ->
  Forall (continues be 0 (to_int32 (to_uint32 (getpid_ret os)))) frags ->
  total_length frags <= BUFSIZE ->
  DefaultRoute be os = Fault Blocks.
Proof.
  intros Hsock Hsend Hrecv Hfrags Hfit.
  rewrite DefaultRoute_received by assumption.
  unfold receive, ReadNetlinkSocket. rewrite Hrecv.
  rewrite <- (app_nil_r (map RecvDatagram frags)).
  rewrite ReadNetlinkLoop_accumulates;
    [reflexivity|apply loop_ready_request|exact Hfrags|lia].
Qed.

(** One fragment with another sequence number, and nothing behind it. *)
Lemma DefaultRoute_blocks_without_final_fragment_witness :
  DefaultRoute false (mkKernel 3 77 28 [RecvDatagram foreign_fragment])
  = Fault Blocks.
Proof.
  apply (DefaultRoute_blocks_without_final_fragment false
           (mkKernel 3 77 28 [RecvDatagram foreign_fragment])
           [foreign_fragment]).
  - vm_compute. discriminate.
  - vm_compute. discriminate.
  - reflexivity.
  - constructor; [|constructor].
    exists (mkHdr 36 RTM_NEWROUTE NLM_F_MULTI 9 77).
    split; [vm_compute; reflexivity|].
    split; [vm_compute; reflexivity|].
    split; [vm_compute; discriminate|].
    split; [vm_compute; discriminate|].
    split; [vm_compute; discriminate|].
    left. vm_compute. discriminate.
  - vm_compute. discriminate.
Defined.

(** ** The iterations of the two scans *)

Lemma scan_attrs_more_fuel be fuel : forall k m p rt_len st,
  scan_attrs be fuel m p rt_len st <> Fault OutOfFuel ->
  scan_attrs be (fuel + k) m p rt_len st = scan_attrs be fuel m p rt_len st.
Proof.
  induction fuel as [|fuel IH]; intros k m p rt_len st H;
    rewrite scan_attrs_eq in H;
    rewrite (scan_attrs_eq be (_ + k)%nat), (scan_attrs_eq be _ m p rt_len st);
    (destruct (RTA_OK be m p rt_len) as [ok|f]; cbn [bind] in *; [|reflexivity]);
    (destruct ok; cbn [negb] in *; [|reflexivity]).
  - congruence.
  - cbn [Nat.add].
    destruct (scan_attr be m p st) as [st'|f]; cbn [bind] in *; [|reflexivity].
    destruct (load16 be m (p + off_rta_len)) as [rta_len|f]; cbn [bind] in *;
      [|reflexivity].
    apply IH. exact H.
Qed.

(** The two loops of the scan and the iterations they need.  The loop
    over the attributes of an entry always ends: each iteration takes at
    least four bytes off the remaining length, so it ends within the
    iterations that the payload length grants, and more iterations give
    the same outcome.  The loop over the messages ends within one
    iteration per byte of the buffer, or it never ends: the outcome is
    the same for every larger number of iterations. *)
Theorem scan_loops_need_no_more_iterations (be : bool) (m : buffer) :
  (forall p rt_len st fuel,
      rt_len < 2 ^ 31 -> (Z.to_nat rt_len < fuel)%nat ->
      scan_attrs be fuel m p rt_len st <> Fault OutOfFuel /\
      scan_attrs be fuel m p rt_len st
      = scan_attrs be (S (Z.to_nat rt_len)) m p rt_len st) /\
  (forall len st fuel,
      (S (length m) <= fuel)%nat ->
      scan_msgs be fuel m 0 len st = scan_msgs be (S (length m)) m 0 len st).
Proof.
  split.
  - intros p rt_len st fuel Hr Hf.
    split; [apply scan_attrs_terminates; assumption|].
    replace fuel with (S (Z.to_nat rt_len) + (fuel - S (Z.to_nat rt_len)))%nat
      by lia.
    apply scan_attrs_more_fuel. apply scan_attrs_terminates; [exact Hr|lia].
  - intros len st fuel Hf. apply scan_msgs_fuel_suffices. exact Hf.
Qed.

(** A hundred iterations on the response with one gateway entry. *)
Lemma scan_loops_need_no_more_iterations_witness :
  (scan_attrs false 100 (encode_entries false [gateway_entry]) 28 16
              (mkScan 0 false NewInAddr) <> Fault OutOfFuel /\
   scan_attrs false 100 (encode_entries false [gateway_entry]) 28 16
              (mkScan 0 false NewInAddr)
   = scan_attrs false (S (Z.to_nat 16)) (encode_entries false [gateway_entry])
                28 16 (mkScan 0 false NewInAddr)) /\
  scan_msgs false 100 (encode_entries false [gateway_entry]) 0 44
            (mkScan 0 false NewInAddr)
  = scan_msgs false (S (length (encode_entries false [gateway_entry])))
              (encode_entries false [gateway_entry]) 0 44
              (mkScan 0 false NewInAddr).
Proof.
  destruct (scan_loops_need_no_more_iterations false
              (encode_entries false [gateway_entry])) as [Hattrs Hmsgs].
  split.
  - apply Hattrs; [reflexivity|vm_compute; lia].
  - apply Hmsgs. vm_compute. lia.
Defined.
